(** * Reconciliation of organisation records from three registries

    A shallow embedding of the record-merging engine, the tabular export and
    the bulk synchronisation route of the ETL service, together with the
    properties established about them.

    Source files covered:
    - [app/api/routes.py]: [upload_postcodes], [load_postcodes_for_state],
      [extract_data_for_postcode], [merge_organization_records],
      [sync_all_sources], [get_postcodes], [sync_data_with_location],
      [lookup_abn];
    - [app/utils/output.py]: [write_merged_records_to_csv];
    - [app/cache/redis_cache.py]: [RedisCache.get], [RedisCache.set];
    - [app/loaders/supabase_loader.py]: [upsert_organizations];
    - [app/extractors/abn_extractor.py]: [ABNExtractor.extract],
      [ABNExtractor.lookup_abn], [ABRClient.search_charities],
      [etree_to_dict], [extract_business_entity], [format_record];
    - [app/transformers/data_transformer.py]: [transform_abn_data],
      [transform_acnc_data], [transform_nsw_assoc_data].

    The extractors, the transformers, the Supabase table, the order in which
    the thread pool completes its tasks and the clock are parameters of the
    development: the properties below hold for every behaviour of theirs.
    So are the string methods [strip], [upper] and [repr]; the examples are
    computed on ASCII text. *)

From Stdlib Require Import String Ascii NArith List Lia.
From stdpp Require Import base option gmap strings list fin_maps sorting pretty.

(** ** Python values, dictionaries and string methods *)

Module Py.

(** The values held by the fields of a source record. The transformers fill
    every field with [item.get(...)], that is with a string or with [None];
    structured values that the merge only copies from one dictionary to
    another are carried as strings. *)
Inductive value :=
  | VNone
  | VStr (s : string).


(** [d.get(k)]: the value under [k], [None] when the key is absent. *)
Definition get (d : gmap string value) (k : string) : value :=
  default VNone (d !! k).

(** The guard [x = d.get(k); if x: ...]: the string under [k] when it is
    truthy. *)
Definition get_truthy (d : gmap string value) (k : string) : option string :=
  match get d k with
  | VStr s => if String.eqb s "" then None else Some s
  | VNone => None
  end.

(** Python's string methods, as far as the program calls them:
    [str.strip()], [str.upper()] and [repr] of a string. The program is
    modelled over these three functions as they are in Python; what is
    proved holds for every three functions such that upper-casing twice is
    upper-casing once, as [str.upper] does. *)
Class Strings := {
  strip : string → string;
  upper : string → string;
  repr : string → string;
  upper_upper s : upper (upper s) = upper s
}.

(** The three functions on ASCII text, where the examples are computed.
    Characters removed by [str.strip()] there: tab, line feed, vertical
    tab, form feed, carriage return, the four separators 28-31 and the
    space. *)
Definition is_space (a : ascii) : bool :=
  let n := N_of_ascii a in
  ((9 <=? n) && (n <=? 13) || (28 <=? n) && (n <=? 32))%N.

Fixpoint lstrip (s : string) : string :=
  match s with
  | EmptyString => EmptyString
  | String a s' => if is_space a then lstrip s' else s
  end.

Fixpoint rstrip (s : string) : string :=
  match s with
  | EmptyString => EmptyString
  | String a s' =>
      match rstrip s' with
      | EmptyString => if is_space a then EmptyString else String a EmptyString
      | r => String a r
      end
  end.

Definition ascii_strip (s : string) : string := rstrip (lstrip s).

(** [str.upper()] on ASCII text: the letters a-z. *)
Definition upper_ascii (a : ascii) : ascii :=
  let n := N_of_ascii a in
  if ((97 <=? n) && (n <=? 122))%N then ascii_of_N (n - 32) else a.

Fixpoint ascii_upper (s : string) : string :=
  match s with
  | EmptyString => EmptyString
  | String a s' => String (upper_ascii a) (ascii_upper s')
  end.

(** [repr] of a string of printable ASCII characters without a backslash:
    single quotes, unless the string holds a single quote and no double
    quote. *)
Definition dquote : string := String (ascii_of_nat 34) EmptyString.
Definition squote : string := String (ascii_of_nat 39) EmptyString.

Fixpoint contains_char (a : ascii) (s : string) : bool :=
  match s with
  | EmptyString => false
  | String b s' => Ascii.eqb a b || contains_char a s'
  end.

Definition ascii_repr (s : string) : string :=
  if contains_char (ascii_of_nat 39) s && negb (contains_char (ascii_of_nat 34) s)
  then dquote +:+ s +:+ dquote
  else squote +:+ s +:+ squote.

#[export] Instance ascii_strings : Strings.
Proof.
  refine {| strip := ascii_strip; upper := ascii_upper; repr := ascii_repr;
            upper_upper := _ |}.
  abstract (intros s; induction s as [|a s IH]; [reflexivity|];
            cbn [ascii_upper]; rewrite IH; f_equal;
            by destruct a as [[] [] [] [] [] [] [] []]).
Defined.

(** Exceptions, as far as the routes tell them apart: [KeyError] has its own
    handler, every other [Exception] falls to the generic one. *)
Inductive exn :=
  | KeyError (msg : string)
  | ValueError (msg : string)
  | OtherError (msg : string).

Inductive result (A : Type) :=
  | Ok (a : A)
  | Raise (e : exn).
Arguments Ok {A} a.
Arguments Raise {A} e.

(** Sequencing: an exception raised by the first statement skips the rest. *)
#[export] Instance result_bind : MBind result := λ A B k m,
  match m with
  | Ok a => k a
  | Raise e => Raise e
  end.

(** [try: body / except Exception as e: handler e]. *)
Definition try_except {A} (body : result A) (handler : exn -> result A) : result A :=
  match body with
  | Ok a => Ok a
  | Raise e => handler e
  end.

(** [str(e)]: a [KeyError] prints the [repr] of its argument, the other
    exceptions print the argument itself. *)
Definition str_exn {str_methods : Strings} (e : exn) : string :=
  match e with
  | KeyError msg => repr msg
  | ValueError msg => msg
  | OtherError msg => msg
  end.

End Py.

Export Py.

Abbreviation record := (gmap string value).

(** ** The reconciliation engine: [merge_organization_records] *)

Module Merge.

(** A field of a canonical record: a copied source value, or the list held by
    the ['sources'] key. *)
Inductive cell :=
  | CVal (v : value)
  | CList (xs : list string).

Abbreviation merged_record := (gmap string cell).

(** The [stats] dictionary; its ten keys are fixed when it is created. *)
Record statistics := {
  total_abn_records : nat;
  total_acnc_records : nat;
  total_nsw_records : nat;
  merged_records : nat;
  abn_only : nat;
  acnc_only : nat;
  nsw_only : nat;
  abn_acnc_matches : nat;
  acnc_nsw_matches : nat;
  all_source_matches : nat
}.

Definition set_merged_records (n : nat) (s : statistics) : statistics :=
  {| total_abn_records := total_abn_records s;
     total_acnc_records := total_acnc_records s;
     total_nsw_records := total_nsw_records s;
     merged_records := n;
     abn_only := abn_only s;
     acnc_only := acnc_only s;
     nsw_only := nsw_only s;
     abn_acnc_matches := abn_acnc_matches s;
     acnc_nsw_matches := acnc_nsw_matches s;
     all_source_matches := all_source_matches s |}.

Definition incr_abn_only (s : statistics) : statistics :=
  {| total_abn_records := total_abn_records s;
     total_acnc_records := total_acnc_records s;
     total_nsw_records := total_nsw_records s;
     merged_records := merged_records s;
     abn_only := abn_only s + 1;
     acnc_only := acnc_only s;
     nsw_only := nsw_only s;
     abn_acnc_matches := abn_acnc_matches s;
     acnc_nsw_matches := acnc_nsw_matches s;
     all_source_matches := all_source_matches s |}.

Definition incr_acnc_only (s : statistics) : statistics :=
  {| total_abn_records := total_abn_records s;
     total_acnc_records := total_acnc_records s;
     total_nsw_records := total_nsw_records s;
     merged_records := merged_records s;
     abn_only := abn_only s;
     acnc_only := acnc_only s + 1;
     nsw_only := nsw_only s;
     abn_acnc_matches := abn_acnc_matches s;
     acnc_nsw_matches := acnc_nsw_matches s;
     all_source_matches := all_source_matches s |}.

Definition incr_nsw_only (s : statistics) : statistics :=
  {| total_abn_records := total_abn_records s;
     total_acnc_records := total_acnc_records s;
     total_nsw_records := total_nsw_records s;
     merged_records := merged_records s;
     abn_only := abn_only s;
     acnc_only := acnc_only s;
     nsw_only := nsw_only s + 1;
     abn_acnc_matches := abn_acnc_matches s;
     acnc_nsw_matches := acnc_nsw_matches s;
     all_source_matches := all_source_matches s |}.

Definition incr_abn_acnc_matches (s : statistics) : statistics :=
  {| total_abn_records := total_abn_records s;
     total_acnc_records := total_acnc_records s;
     total_nsw_records := total_nsw_records s;
     merged_records := merged_records s;
     abn_only := abn_only s;
     acnc_only := acnc_only s;
     nsw_only := nsw_only s;
     abn_acnc_matches := abn_acnc_matches s + 1;
     acnc_nsw_matches := acnc_nsw_matches s;
     all_source_matches := all_source_matches s |}.

Definition incr_acnc_nsw_matches (s : statistics) : statistics :=
  {| total_abn_records := total_abn_records s;
     total_acnc_records := total_acnc_records s;
     total_nsw_records := total_nsw_records s;
     merged_records := merged_records s;
     abn_only := abn_only s;
     acnc_only := acnc_only s;
     nsw_only := nsw_only s;
     abn_acnc_matches := abn_acnc_matches s;
     acnc_nsw_matches := acnc_nsw_matches s + 1;
     all_source_matches := all_source_matches s |}.

Definition incr_all_source_matches (s : statistics) : statistics :=
  {| total_abn_records := total_abn_records s;
     total_acnc_records := total_acnc_records s;
     total_nsw_records := total_nsw_records s;
     merged_records := merged_records s;
     abn_only := abn_only s;
     acnc_only := acnc_only s;
     nsw_only := nsw_only s;
     abn_acnc_matches := abn_acnc_matches s;
     acnc_nsw_matches := acnc_nsw_matches s;
     all_source_matches := all_source_matches s + 1 |}.

(** The dictionary created at the top of the function. *)
Definition initial_stats (abn_records acnc_records nsw_records : list record) : statistics :=
  {| total_abn_records := length abn_records;
     total_acnc_records := length acnc_records;
     total_nsw_records := length nsw_records;
     merged_records := 0;
     abn_only := 0;
     acnc_only := 0;
     nsw_only := 0;
     abn_acnc_matches := 0;
     acnc_nsw_matches := 0;
     all_source_matches := 0 |}.

(** [{record['abn']: record for record in records if record.get('abn')}]:
    a later record with the same identifier replaces an earlier one. *)
Definition by_abn (records : list record) : gmap string record :=
  foldl (λ m r, match get_truthy r "abn" with
                | Some abn => <[abn := r]> m
                | None => m
                end) ∅ records.

Section strings.

Context {str_methods : Strings}.

(** [name.strip().upper()]. *)
Definition clean (name : string) : string := upper (strip name).

(** The loop that fills [nsw_by_name]. *)
Definition by_name (nsw_records : list record) : gmap string record :=
  foldl (λ m r, match get_truthy r "name" with
                | Some name => <[clean name := r]> m
                | None => m
                end) ∅ nsw_records.

(** [d.update({k1: v1, ...})]. *)
Definition update (d : merged_record) (kvs : list (string * cell)) : merged_record :=
  foldl (λ m kv, <[kv.1 := kv.2]> m) d kvs.

(** [d['sources'].append(s)]. *)
Definition append_source (d : merged_record) (s : string) : merged_record :=
  match d !! "sources" with
  | Some (CList xs) => <["sources" := CList (xs ++ [s])]> d
  | _ => d
  end.

(** The three groups of fields of a canonical record, each either copied from
    the source record that provides it or set to [None]. *)
Definition abn_fields (abn_record : record) : list (string * cell) :=
  [ ("abn", CVal (get abn_record "abn"));
    ("is_current", CVal (get abn_record "is_current"));
    ("replaced_from", CVal (get abn_record "replaced_from"));
    ("entity_status", CVal (get abn_record "entity_status"));
    ("effective_from", CVal (get abn_record "effective_from"));
    ("effective_to", CVal (get abn_record "effective_to"));
    ("entity_type_code", CVal (get abn_record "entity_type_code"));
    ("entity_type_description", CVal (get abn_record "entity_type_description"));
    ("anc_status", CVal (get abn_record "anc_status"));
    ("acnc_status_from", CVal (get abn_record "acnc_status_from"));
    ("acnc_status_to", CVal (get abn_record "acnc_status_to"));
    ("record_last_updated", CVal (get abn_record "record_last_updated"));
    ("gst", CVal (get abn_record "gst"));
    ("dgr", CVal (get abn_record "dgr"));
    ("main_trading_names", CVal (get abn_record "main_trading_names"));
    ("other_trading_names", CVal (get abn_record "other_trading_names"));
    ("main_business_physical_address", CVal (get abn_record "main_business_physical_address"));
    ("tax_concession_endorsements", CVal (get abn_record "tax_concession_endorsements")) ].

Definition abn_fields_empty (abn : value) : list (string * cell) :=
  [ ("abn", CVal abn);
    ("is_current", CVal VNone);
    ("replaced_from", CVal VNone);
    ("entity_status", CVal VNone);
    ("effective_from", CVal VNone);
    ("effective_to", CVal VNone);
    ("entity_type_code", CVal VNone);
    ("entity_type_description", CVal VNone);
    ("anc_status", CVal VNone);
    ("acnc_status_from", CVal VNone);
    ("acnc_status_to", CVal VNone);
    ("record_last_updated", CVal VNone);
    ("gst", CVal VNone);
    ("dgr", CVal VNone);
    ("main_trading_names", CVal VNone);
    ("other_trading_names", CVal VNone);
    ("main_business_physical_address", CVal VNone);
    ("tax_concession_endorsements", CVal VNone) ].

(** The ACNC record is read under its own key names: ['charity_wbsite'],
    ['finacial_year_end'] and ['address']. *)
Definition acnc_fields (acnc_record : record) : list (string * cell) :=
  [ ("legal_name", CVal (get acnc_record "legal_name"));
    ("other_organisation_names", CVal (get acnc_record "other_organisation_names"));
    ("charity_website", CVal (get acnc_record "charity_wbsite"));
    ("date_organisation_established", CVal (get acnc_record "date_organisation_established"));
    ("registration_date", CVal (get acnc_record "registration_date"));
    ("charity_size", CVal (get acnc_record "charity_size"));
    ("number_of_responsible_persons", CVal (get acnc_record "number_of_responsible_persons"));
    ("financial_year_end", CVal (get acnc_record "finacial_year_end"));
    ("operates_in", CVal (get acnc_record "operates_in"));
    ("areas_of_interest", CVal (get acnc_record "areas_of_interest"));
    ("acnc_address", CVal (get acnc_record "address")) ].

Definition acnc_fields_empty : list (string * cell) :=
  [ ("legal_name", CVal VNone);
    ("other_organisation_names", CVal VNone);
    ("charity_website", CVal VNone);
    ("date_organisation_established", CVal VNone);
    ("registration_date", CVal VNone);
    ("charity_size", CVal VNone);
    ("number_of_responsible_persons", CVal VNone);
    ("financial_year_end", CVal VNone);
    ("operates_in", CVal VNone);
    ("areas_of_interest", CVal VNone);
    ("acnc_address", CVal VNone) ].

Definition nsw_fields (nsw_record : record) : list (string * cell) :=
  [ ("nsw_organisation_number", CVal (get nsw_record "organisation_number"));
    ("nsw_name", CVal (get nsw_record "name"));
    ("nsw_organisation_type", CVal (get nsw_record "organisation_type"));
    ("nsw_status", CVal (get nsw_record "status"));
    ("nsw_date_registered", CVal (get nsw_record "date_registered"));
    ("nsw_date_removed", CVal (get nsw_record "date_removed"));
    ("nsw_registered_office_address", CVal (get nsw_record "registered_office_address"));
    ("nsw_organisation_id", CVal (get nsw_record "organisation_id")) ].

Definition nsw_fields_empty : list (string * cell) :=
  [ ("nsw_organisation_number", CVal VNone);
    ("nsw_name", CVal VNone);
    ("nsw_organisation_type", CVal VNone);
    ("nsw_status", CVal VNone);
    ("nsw_date_registered", CVal VNone);
    ("nsw_date_removed", CVal VNone);
    ("nsw_registered_office_address", CVal VNone);
    ("nsw_organisation_id", CVal VNone) ].

(** The two metadata keys; [now] is the value of
    [datetime.now().isoformat()] at the moment the record is created. *)
Definition metadata (source now : string) : list (string * cell) :=
  [ ("sources", CList [source]); ("updated_at", CVal (VStr now)) ].

(** A dictionary display [{k1: v1, ...}]. *)
Definition dict_of (kvs : list (string * cell)) : merged_record := update ∅ kvs.

(** The mutable locals of the function: the output list, the statistics and
    the two tracking sets. *)
Record loop_state := {
  merged : list merged_record;
  stats : statistics;
  processed_abns : gset string;
  processed_nsw_names : gset string
}.

Section passes.

(** [clock n] is the reading of [datetime.now().isoformat()] taken when the
    canonical record of index [n] is created. *)
Context (clock : nat → string).

(** Body of the first loop, [for abn_record in abn_records]. *)
Definition abn_body (acnc_by_abn nsw_by_name : gmap string record)
    (s : loop_state) (abn_record : record) : loop_state :=
  match get_truthy abn_record "abn" with
  | None => s
  | Some abn =>
    if decide (abn ∈ processed_abns s) then s else
    let processed_abns' := processed_abns s ∪ {[abn]} in
    let merged_record :=
      dict_of (abn_fields abn_record ++ acnc_fields_empty ++ nsw_fields_empty
               ++ metadata "abn" (clock (length (merged s)))) in
    let '(merged_record', has_acnc_match, has_nsw_match, names', stats') :=
      match acnc_by_abn !! abn with
      | Some acnc_record =>
          let with_acnc :=
            append_source (update merged_record (acnc_fields acnc_record)) "acnc" in
          let counted := incr_abn_acnc_matches (stats s) in
          match get_truthy acnc_record "legal_name" with
          | Some legal_name =>
              let clean_legal_name := clean legal_name in
              match nsw_by_name !! clean_legal_name with
              | Some nsw_record =>
                  (append_source (update with_acnc (nsw_fields nsw_record)) "nsw",
                   true, true,
                   processed_nsw_names s ∪ {[clean_legal_name]},
                   incr_acnc_nsw_matches counted)
              | None => (with_acnc, true, false, processed_nsw_names s, counted)
              end
          | None => (with_acnc, true, false, processed_nsw_names s, counted)
          end
      | None => (merged_record, false, false, processed_nsw_names s, stats s)
      end in
    let stats'' :=
      if has_acnc_match && has_nsw_match then incr_all_source_matches stats'
      else if negb has_acnc_match && negb has_nsw_match then incr_abn_only stats'
      else stats' in
    {| merged := merged s ++ [merged_record'];
       stats := stats'';
       processed_abns := processed_abns';
       processed_nsw_names := names' |}
  end.

(** Body of the second loop, [for acnc_record in acnc_records]. *)
Definition acnc_body (nsw_by_name : gmap string record)
    (s : loop_state) (acnc_record : record) : loop_state :=
  match get_truthy acnc_record "abn" with
  | None => s
  | Some abn =>
    if decide (abn ∈ processed_abns s) then s else
    let merged_record :=
      dict_of (abn_fields_empty (VStr abn) ++ acnc_fields acnc_record ++ nsw_fields_empty
               ++ metadata "acnc" (clock (length (merged s)))) in
    let '(merged_record', names', stats') :=
      match get_truthy acnc_record "legal_name" with
      | Some legal_name =>
          let clean_legal_name := clean legal_name in
          match nsw_by_name !! clean_legal_name with
          | Some nsw_record =>
              if decide (clean_legal_name ∈ processed_nsw_names s)
              then (merged_record, processed_nsw_names s, incr_acnc_only (stats s))
              else (append_source (update merged_record (nsw_fields nsw_record)) "nsw",
                    processed_nsw_names s ∪ {[clean_legal_name]},
                    incr_acnc_nsw_matches (stats s))
          | None => (merged_record, processed_nsw_names s, incr_acnc_only (stats s))
          end
      | None => (merged_record, processed_nsw_names s, incr_acnc_only (stats s))
      end in
    {| merged := merged s ++ [merged_record'];
       stats := stats';
       processed_abns := processed_abns s;
       processed_nsw_names := names' |}
  end.

(** Body of the third loop, [for nsw_record in nsw_records]. *)
Definition nsw_body (s : loop_state) (nsw_record : record) : loop_state :=
  match get_truthy nsw_record "name" with
  | None => s
  | Some name =>
    let clean_name := clean name in
    if decide (clean_name ∈ processed_nsw_names s) then s else
    let merged_record :=
      dict_of (abn_fields_empty VNone ++ acnc_fields_empty ++ nsw_fields nsw_record
               ++ metadata "nsw" (clock (length (merged s)))) in
    {| merged := merged s ++ [merged_record];
       stats := incr_nsw_only (stats s);
       processed_abns := processed_abns s;
       processed_nsw_names := processed_nsw_names s |}
  end.

(** The state before the first loop. *)
Definition initial_state (abn_records acnc_records nsw_records : list record) : loop_state :=
  {| merged := [];
     stats := initial_stats abn_records acnc_records nsw_records;
     processed_abns := ∅;
     processed_nsw_names := ∅ |}.

(** The three loops, each from the state left by the one before. *)
Definition abn_pass (abn_records acnc_records nsw_records : list record) : loop_state :=
  foldl (abn_body (by_abn acnc_records) (by_name nsw_records))
        (initial_state abn_records acnc_records nsw_records) abn_records.

Definition acnc_pass (abn_records acnc_records nsw_records : list record) : loop_state :=
  foldl (acnc_body (by_name nsw_records))
        (abn_pass abn_records acnc_records nsw_records) acnc_records.

Definition nsw_pass (abn_records acnc_records nsw_records : list record) : loop_state :=
  foldl nsw_body (acnc_pass abn_records acnc_records nsw_records) nsw_records.

Definition merge_organization_records
    (abn_records acnc_records nsw_records : list record)
    : list merged_record * statistics :=
  let s := nsw_pass abn_records acnc_records nsw_records in
  (merged s, set_merged_records (length (merged s)) (stats s)).

End passes.

(** The provenance of a canonical record: the list under ['sources']. *)
Definition sources (m : merged_record) : list string :=
  match m !! "sources" with
  | Some (CList xs) => xs
  | _ => []
  end.

(** A field of a canonical record, [None] when absent. *)
Definition field (m : merged_record) (k : string) : value :=
  match m !! k with
  | Some (CVal v) => v
  | _ => VNone
  end.

End strings.

End Merge.

(** ** The tabular export: [write_merged_records_to_csv] *)

Module Output.

Import Merge.

(** The [fieldnames] list handed to [csv.DictWriter]. *)
Definition fieldnames : list string :=
  [ "abn"; "is_current"; "replaced_from"; "entity_status"; "effective_from"; "effective_to";
    "entity_type_code"; "entity_type_description"; "anc_status"; "acnc_status_from"; "acnc_status_to";
    "record_last_updated"; "gst"; "dgr"; "main_trading_names"; "other_trading_names";
    "main_business_physical_address"; "tax_concession_endorsements";
    "legal_name"; "other_organisation_names"; "charity_website"; "date_organisation_established";
    "registration_date"; "charity_size"; "number_of_responsible_persons"; "financial_year_end";
    "operates_in"; "areas_of_interest"; "acnc_address";
    "nsw_organisation_number"; "nsw_name"; "nsw_organisation_type"; "nsw_status";
    "nsw_date_registered"; "nsw_date_removed"; "nsw_registered_office_address"; "nsw_organisation_id";
    "sources"; "updated_at" ].

(** The column sequence as the specification of the export lists it. *)
Definition spec_columns : list string :=
  [ "abn"; "is_current"; "replaced_from"; "entity_status"; "effective_from";
    "effective_to"; "entity_type_code"; "entity_type_description"; "anc_status";
    "acnc_status_from"; "acnc_status_to"; "record_last_updated"; "gst"; "dgr";
    "main_trading_names"; "other_trading_names"; "main_business_physical_address";
    "tax_concession_endorsements"; "legal_name"; "other_organisation_names";
    "charity_website"; "date_organisation_established"; "registration_date";
    "charity_size"; "number_of_responsible_persons"; "financial_year_end";
    "operates_in"; "areas_of_interest"; "acnc_address"; "nsw_organisation_number";
    "nsw_name"; "nsw_organisation_type"; "nsw_status"; "nsw_date_registered";
    "nsw_date_removed"; "nsw_registered_office_address"; "nsw_organisation_id";
    "sources"; "updated_at" ].

Section strings.

Context {str_methods : Strings}.

(** The text the writer puts in a field: nothing for [None] and for a key the
    record lacks, the string itself, and [str] of a list. Quoting and
    delimiters are the CSV dialect's and are not modelled: a row is the list
    of its fields. *)
Definition csv_field (c : option cell) : string :=
  match c with
  | None => ""
  | Some (CVal VNone) => ""
  | Some (CVal (VStr s)) => s
  | Some (CList xs) => "[" +:+ String.concat ", " (map repr xs) +:+ "]"
  end.

(** Keys of the record that are not columns; [DictWriter] refuses them
    ([extrasaction='raise']). *)
Definition wrong_fields (r : merged_record) : list string :=
  filter (λ k, k ∉ fieldnames) (map fst (map_to_list r)).

(** [writer.writerow(record)]. *)
Definition writerow (r : merged_record) : result (list string) :=
  match wrong_fields r with
  | [] => Ok (map (λ k, csv_field (r !! k)) fieldnames)
  | ks => Raise (ValueError ("dict contains fields not in fieldnames: "
                             +:+ String.concat ", " (map repr ks)))
  end.

(** The loop over the records: the rows written so far, and how the loop
    ended. *)
Fixpoint write_rows (file : list (list string)) (rs : list merged_record)
    : list (list string) * result unit :=
  match rs with
  | [] => (file, Ok tt)
  | r :: rs' =>
      match writerow r with
      | Ok row => write_rows (file ++ [row]) rs'
      | Raise e => (file, Raise e)
      end
  end.

(** The content of the file named [filename] once the function has returned
    or raised: [writeheader()] comes first, then one row per record. *)
Definition write_merged_records_to_csv (merged_records : list merged_record)
    (filename : string) : list (list string) * result unit :=
  write_rows [fieldnames] merged_records.

End strings.

End Output.

(** ** The bulk route: [sync_all_sources] and what it calls *)

Module Sync.

Import Merge.

(** Decoded JSON, as [json.loads] returns it and [json.dumps] takes it. *)
#[local] Unset Elimination Schemes.
Inductive json :=
  | JNull
  | JBool (b : bool)
  | JNum (n : nat)
  | JStr (s : string)
  | JArr (xs : list json)
  | JObj (kvs : list (string * json)).
#[local] Set Elimination Schemes.

(** Truthiness of a decoded payload, as in [if cached_data:] and
    [if not data:]. *)
Definition json_truthy (j : json) : bool :=
  match j with
  | JNull => false
  | JBool b => b
  | JNum n => negb (Nat.eqb n 0)
  | JStr s => negb (String.eqb s "")
  | JArr xs => match xs with [] => false | _ => true end
  | JObj kvs => match kvs with [] => false | _ => true end
  end.

(** [data[k]]: the last binding of [k] when [data] is an object; a missing
    key raises [KeyError], a payload that is not an object [TypeError]. *)
Definition subscript (data : json) (k : string) : result json :=
  match data with
  | JObj kvs =>
      match foldl (λ acc kv, if String.eqb kv.1 k then Some kv.2 else acc) None kvs with
      | Some v => Ok v
      | None => Raise (KeyError k)
      end
  | _ => Raise (OtherError "TypeError")
  end.

Fixpoint strings_of (xs : list json) : option (list string) :=
  match xs with
  | [] => Some []
  | JStr s :: xs' => cons s <$> strings_of xs'
  | _ => None
  end.

(** [sorted(x)] for the list of postcode strings the upload route stores.
    Any other payload is outside what the routes write; it is given the
    outcome of a comparison between unlike values, [TypeError]. *)
Definition sorted (x : json) : result (list string) :=
  match x with
  | JArr xs =>
      match strings_of xs with
      | Some l => Ok (merge_sort String.le l)
      | None => Raise (OtherError "TypeError")
      end
  | _ => Raise (OtherError "TypeError")
  end.

(** [RedisCache.get] and [RedisCache.set] on a reachable server: the store
    maps a key to the decoded form of the JSON text kept under it. *)
Definition cache_get (c : gmap string json) (key : string) : option json := c !! key.

Definition cache_set (c : gmap string json) (key : string) (v : json) : gmap string json :=
  <[key := v]> c.

(** [x = cache.get(key); if x: ...]. *)
Definition cache_hit (c : gmap string json) (key : string) : option json :=
  match cache_get c key with
  | Some v => if json_truthy v then Some v else None
  | None => None
  end.

Section strings.

Context {str_methods : Strings}.

(** [load_postcodes_for_state]. *)
Definition load_postcodes_for_state (c : gmap string json) (state : string)
    : result (list string) :=
  let redis_key := "postcodes:" +:+ upper state in
  try_except
    (match cache_hit c redis_key with
     | None => Raise (KeyError ("No postcodes found for " +:+ state
                                +:+ ". Please upload them first."))
     | Some data => postcodes ← subscript data "postcodes"; sorted postcodes
     end)
    (λ e, Raise (KeyError ("Error loading postcodes for " +:+ state +:+ ": "
                           +:+ str_exn e))).

(** The payload [upload_postcodes] stores under ["postcodes:STATE"]; the
    route answers 400 instead when [postcodes] is empty. *)
Definition upload_entry (state_upper : string) (postcodes : list string)
    (upload_timestamp : string) : json :=
  JObj [ ("state", JStr state_upper);
         ("postcodes", JArr (map JStr postcodes));
         ("upload_timestamp", JStr upload_timestamp);
         ("total_postcodes", JNum (length postcodes)) ].

(** A Flask response: [jsonify(body), status]. *)
Record http_response := {
  status_code : nat;
  body : json
}.

(** One submitted task: [futures[future] = (source, postcode)] together with
    what [future.result()] returns or raises. *)
Record future := {
  f_source : string;
  f_postcode : string;
  f_result : result (list record)
}.

(** [postcode_stats['by_postcode'][postcode]]. *)
Record counts := {
  n_abn : nat;
  n_acnc : nat;
  n_nsw : nat;
  n_total : nat
}.

Record postcode_stats := {
  total_postcodes : nat;
  processed_postcodes : nat;
  failed_postcodes : list string;
  by_postcode : gmap string counts
}.

(** The locals filled while the results are collected. *)
Record collection := {
  all_abn_records : list record;
  all_acnc_records : list record;
  all_nsw_records : list record;
  pstats : postcode_stats
}.

Definition zero_counts : counts :=
  {| n_abn := 0; n_acnc := 0; n_nsw := 0; n_total := 0 |}.

Definition initial_collection (postcodes : list string) : collection :=
  {| all_abn_records := [];
     all_acnc_records := [];
     all_nsw_records := [];
     pstats := {| total_postcodes := length postcodes;
                  processed_postcodes := 0;
                  failed_postcodes := [];
                  by_postcode := ∅ |} |}.

(** Body of [for future in as_completed(futures)]: the [try] branch when the
    result is returned, the [except] branch when it is raised. *)
Definition collect_step (acc : collection) (f : future) : collection :=
  let ps := pstats acc in
  let postcode := f_postcode f in
  match f_result f with
  | Ok records =>
      let initialised :=
        match by_postcode ps !! postcode with
        | Some _ => by_postcode ps
        | None => <[postcode := zero_counts]> (by_postcode ps)
        end in
      let entry := default zero_counts (initialised !! postcode) in
      let n := length records in
      let '(abn', acnc', nsw', entry') :=
        if String.eqb (f_source f) "abn" then
          (all_abn_records acc ++ records, all_acnc_records acc, all_nsw_records acc,
           {| n_abn := n; n_acnc := n_acnc entry; n_nsw := n_nsw entry;
              n_total := n_total entry |})
        else if String.eqb (f_source f) "acnc" then
          (all_abn_records acc, all_acnc_records acc ++ records, all_nsw_records acc,
           {| n_abn := n_abn entry; n_acnc := n; n_nsw := n_nsw entry;
              n_total := n_total entry |})
        else if String.eqb (f_source f) "nsw" then
          (all_abn_records acc, all_acnc_records acc, all_nsw_records acc ++ records,
           {| n_abn := n_abn entry; n_acnc := n_acnc entry; n_nsw := n;
              n_total := n_total entry |})
        else
          (all_abn_records acc, all_acnc_records acc, all_nsw_records acc, entry) in
      let totalled :=
        {| n_abn := n_abn entry'; n_acnc := n_acnc entry'; n_nsw := n_nsw entry';
           n_total := n_abn entry' + n_acnc entry' + n_nsw entry' |} in
      {| all_abn_records := abn';
         all_acnc_records := acnc';
         all_nsw_records := nsw';
         pstats := {| total_postcodes := total_postcodes ps;
                      processed_postcodes := processed_postcodes ps;
                      failed_postcodes := failed_postcodes ps;
                      by_postcode := <[postcode := totalled]> initialised |} |}
  | Raise _ =>
      {| all_abn_records := all_abn_records acc;
         all_acnc_records := all_acnc_records acc;
         all_nsw_records := all_nsw_records acc;
         pstats := {| total_postcodes := total_postcodes ps;
                      processed_postcodes := processed_postcodes ps;
                      failed_postcodes :=
                        if decide (postcode ∈ failed_postcodes ps)
                        then failed_postcodes ps
                        else failed_postcodes ps ++ [postcode];
                      by_postcode := by_postcode ps |} |}
  end.

(** [p in by_postcode and by_postcode[p]['total'] > 0]. *)
Definition has_records (bp : gmap string counts) (p : string) : bool :=
  match bp !! p with
  | Some entry => 0 <? n_total entry
  | None => false
  end.

(** The comprehension counted into ['processed_postcodes']. *)
Definition count_processed (postcodes : list string) (bp : gmap string counts) : nat :=
  length (List.filter (has_records bp) postcodes).

(** What [jsonify] and [json.dumps] make of the Python values. The order of
    the keys of an encoded dictionary is not significant. *)
Definition json_of_value (v : value) : json :=
  match v with
  | VNone => JNull
  | VStr s => JStr s
  end.

Definition json_of_cell (c : cell) : json :=
  match c with
  | CVal v => json_of_value v
  | CList xs => JArr (map JStr xs)
  end.

Definition json_of_record (m : merged_record) : json :=
  JObj (map (λ kv, (kv.1, json_of_cell kv.2)) (map_to_list m)).

Definition json_of_statistics (s : statistics) : json :=
  JObj [ ("total_abn_records", JNum (total_abn_records s));
         ("total_acnc_records", JNum (total_acnc_records s));
         ("total_nsw_records", JNum (total_nsw_records s));
         ("merged_records", JNum (merged_records s));
         ("abn_only", JNum (abn_only s));
         ("acnc_only", JNum (acnc_only s));
         ("nsw_only", JNum (nsw_only s));
         ("abn_acnc_matches", JNum (abn_acnc_matches s));
         ("acnc_nsw_matches", JNum (acnc_nsw_matches s));
         ("all_source_matches", JNum (all_source_matches s)) ].

Definition json_of_counts (e : counts) : json :=
  JObj [ ("abn", JNum (n_abn e)); ("acnc", JNum (n_acnc e));
         ("nsw", JNum (n_nsw e)); ("total", JNum (n_total e)) ].

Definition json_of_postcode_stats (ps : postcode_stats) : json :=
  JObj [ ("total_postcodes", JNum (total_postcodes ps));
         ("processed_postcodes", JNum (processed_postcodes ps));
         ("failed_postcodes", JArr (map JStr (failed_postcodes ps)));
         ("by_postcode",
          JObj (map (λ kv, (kv.1, json_of_counts kv.2)) (map_to_list (by_postcode ps)))) ].

(** What the route does outside its own locals, in the order it does it. *)
Inductive event :=
  | Submitted (source state postcode : string)
  | Merged (n_abn_records n_acnc_records n_nsw_records : nat)
  | CsvWritten (filename : string) (content : list (list string))
  | Upserted (n_records : nat)
  | CacheSet (key : string) (ttl : nat).

(** The result of one request: the response, the store it leaves and the
    trace of its effects. *)
Record outcome := {
  response : http_response;
  cache_after : gmap string json;
  trace : list event
}.

Section routes.

(** The collaborators of the route. An extractor call and a transformer
    call each return or raise; [as_completed] yields the futures in the
    order the pool completes them; [table_upsert] is the Supabase call;
    [clock] and [processing_time] are the readings of [datetime.now()]. *)
Context {raw : Type}.
Context (nsw_extract : string → result raw).
Context (acnc_extract abn_extract : string → string → result raw).
Context (transform_nsw_assoc_data transform_acnc_data transform_abn_data :
           raw → result (list record)).
Context (as_completed : list future → list future).
Context (table_upsert : list merged_record → result json).
Context (clock : nat → string).
Context (processing_time : string).

(** The body of the [try] block of [extract_data_for_postcode]. *)
Definition extract_and_transform (source state postcode : string)
    : result (list record) :=
  if String.eqb source "nsw" then
    raw_data ← nsw_extract postcode; transform_nsw_assoc_data raw_data
  else if String.eqb source "acnc" then
    raw_data ← acnc_extract state postcode; transform_acnc_data raw_data
  else if String.eqb source "abn" then
    raw_data ← abn_extract state postcode; transform_abn_data raw_data
  else Raise (ValueError "Invalid source").

(** [extract_data_for_postcode]; the message it prints is not modelled. *)
Definition extract_data_for_postcode (source state postcode : string)
    : result (list record) :=
  try_except (extract_and_transform source state postcode) (λ _, Ok []).

(** [SupabaseLoader.upsert_organizations]. *)
Definition upsert_organizations (data : list merged_record) : result json :=
  try_except (table_upsert data)
    (λ e, Raise (OtherError ("Error upserting to Supabase: " +:+ str_exn e))).

(** The tasks submitted to the pool, in submission order. *)
Definition submit (state_upper : string) (postcodes : list string) : list future :=
  postcode ← postcodes;
  source ← ["abn"; "acnc"; "nsw"];
  [ {| f_source := source;
       f_postcode := postcode;
       f_result := extract_data_for_postcode source state_upper postcode |} ].

(** The two handlers that close the route. *)
Definition not_found (state : string) (e : exn) : http_response :=
  {| status_code := 404;
     body := JObj [ ("error", JStr (str_exn e));
                    ("suggestion", JStr ("Upload postcodes for " +:+ state
                                         +:+ " using /upload/postcodes/" +:+ state));
                    ("status", JStr "failed") ] |}.

Definition server_error (state : string) (e : exn) : http_response :=
  {| status_code := 500;
     body := JObj [ ("error", JStr (str_exn e));
                    ("state", JStr state);
                    ("status", JStr "failed") ] |}.

Definition handle (state : string) (e : exn) : http_response :=
  match e with
  | KeyError _ => not_found state e
  | _ => server_error state e
  end.

(** The block [if merged_records: ... else: ...]: its effects and the value
    of [loader_result]. *)
Definition load_merged (state_upper : string) (merged_records : list merged_record)
    : list event * result json :=
  match merged_records with
  | [] => ([], Ok (JStr "No records to load"))
  | _ =>
      let filename := "merged_records_" +:+ state_upper +:+ ".csv" in
      let '(content, written) :=
        Output.write_merged_records_to_csv merged_records filename in
      match written with
      | Raise e => ([CsvWritten filename content], Raise e)
      | Ok _ =>
          ([CsvWritten filename content; Upserted (length merged_records)],
           upsert_organizations merged_records)
      end
  end.

(** The loop over [as_completed(futures)], from the empty collections. *)
Definition collect_results (state_upper : string) (postcodes : list string) : collection :=
  foldl collect_step (initial_collection postcodes)
        (as_completed (submit state_upper postcodes)).

(** [postcode_stats] once ['processed_postcodes'] has been counted. *)
Definition batch_stats (state_upper : string) (postcodes : list string) : postcode_stats :=
  let ps := pstats (collect_results state_upper postcodes) in
  {| total_postcodes := total_postcodes ps;
     processed_postcodes := count_processed postcodes (by_postcode ps);
     failed_postcodes := failed_postcodes ps;
     by_postcode := by_postcode ps |}.

(** [sync_all_sources]. *)
Definition sync_all_sources (c : gmap string json) (state : string) : outcome :=
  let state_upper := upper state in
  let cache_key := "sync_all_" +:+ state_upper in
  match cache_hit c cache_key with
  | Some cached_data =>
      {| response := {| status_code := 200; body := cached_data |};
         cache_after := c;
         trace := [] |}
  | None =>
      match load_postcodes_for_state c state_upper with
      | Raise e => {| response := handle state e; cache_after := c; trace := [] |}
      | Ok [] =>
          {| response :=
               {| status_code := 400;
                  body := JObj [("error", JStr ("No postcodes found for " +:+ state_upper))] |};
             cache_after := c;
             trace := [] |}
      | Ok postcodes =>
          let submitted :=
            map (λ f, Submitted (f_source f) state_upper (f_postcode f))
                (submit state_upper postcodes) in
          let collected := collect_results state_upper postcodes in
          let postcode_stats := batch_stats state_upper postcodes in
          let '(merged_records, merge_stats) :=
            merge_organization_records clock (all_abn_records collected)
              (all_acnc_records collected) (all_nsw_records collected) in
          let merging :=
            [ Merged (length (all_abn_records collected))
                     (length (all_acnc_records collected))
                     (length (all_nsw_records collected)) ] in
          let '(loading, loaded) := load_merged state_upper merged_records in
          match loaded with
          | Raise e =>
              {| response := handle state e;
                 cache_after := c;
                 trace := submitted ++ merging ++ loading |}
          | Ok loader_result =>
              let response_data :=
                JObj [ ("status", JStr "success");
                       ("state", JStr state_upper);
                       ("postcode_stats", json_of_postcode_stats postcode_stats);
                       ("merge_stats", json_of_statistics merge_stats);
                       ("merged_records_count", JNum (length merged_records));
                       ("loader_result", loader_result);
                       ("merged_records", JArr (map json_of_record (take 100 merged_records)));
                       ("total_merged_records", JNum (length merged_records));
                       ("processing_time", JStr processing_time) ] in
              {| response := {| status_code := 200; body := response_data |};
                 cache_after := cache_set c cache_key response_data;
                 trace := submitted ++ merging ++ loading ++ [CacheSet cache_key 3600] |}
          end
      end
  end.

End routes.

(** The stores the application can leave behind: every write of every route
    to the cache, and the expiry of the one key written with a time to
    live. Each bulk request has extractors, transformers, a completion
    order, a loader, clock readings and a processing time of its own. The
    single-source routes are taken with every payload they could store;
    sources other than the three known ones are answered 400 before any
    write. *)
Inductive app_cache : gmap string json → Prop :=
  | app_cache_empty :
      app_cache ∅
  | app_cache_upload c state postcodes upload_timestamp :
      postcodes ≠ [] →
      app_cache c →
      app_cache (cache_set c ("postcodes:" +:+ upper state)
                   (upload_entry (upper state) postcodes upload_timestamp))
  | app_cache_sync_all {raw : Type}
      (nsw_extract : string → result raw)
      (acnc_extract abn_extract : string → string → result raw)
      (transform_nsw_assoc_data transform_acnc_data transform_abn_data :
         raw → result (list record))
      (as_completed : list future → list future)
      (table_upsert : list merged_record → result json)
      (clock : nat → string) (processing_time : string) c state :
      app_cache c →
      app_cache (cache_after
                   (sync_all_sources nsw_extract acnc_extract abn_extract
                      transform_nsw_assoc_data transform_acnc_data transform_abn_data
                      as_completed table_upsert clock processing_time c state))
  | app_cache_expire c state_upper :
      app_cache c →
      app_cache (delete ("sync_all_" +:+ state_upper) c)
  | app_cache_sync_data c source v :
      source ∈ ["nsw"; "acnc"; "abn"] →
      app_cache c →
      app_cache (cache_set c ("sync_" +:+ source) v)
  | app_cache_sync_data_with_state c source state v :
      source ∈ ["nsw"; "acnc"; "abn"] →
      app_cache c →
      app_cache (cache_set c ("sync_" +:+ source +:+ "_" +:+ state) v)
  | app_cache_sync_data_with_location c source state postcode v :
      source ∈ ["nsw"; "acnc"; "abn"] →
      app_cache c →
      app_cache (cache_set c ("sync_" +:+ source +:+ "_" +:+ state +:+ "_" +:+ postcode) v)
  | app_cache_lookup_abn c abn_number v :
      app_cache c →
      app_cache (cache_set c ("abn_lookup_" +:+ abn_number) v).

End strings.

End Sync.

(** ** Properties of canonical record lists *)

Module Props.

Import Merge.

(** No two canonical records at different positions carry the same
    identifier, unless the identifier is [None]. *)
Definition identifier_unique (records : list merged_record) : Prop :=
  ∀ i j r1 r2,
    records !! i = Some r1 → records !! j = Some r2 →
    field r1 "abn" ≠ VNone → field r1 "abn" = field r2 "abn" → i = j.

Section strings.

Context {str_methods : Strings}.

(** The normalized name of a canonical record that only the NSW register
    contributed to. *)
Definition nsw_only_name (r : merged_record) : option string :=
  match sources r, field r "nsw_name" with
  | ["nsw"], VStr name => Some (clean name)
  | _, _ => None
  end.

(** No two NSW-only canonical records at different positions have the same
    normalized name. *)
Definition nsw_name_unique (records : list merged_record) : Prop :=
  ∀ i j r1 r2 name,
    records !! i = Some r1 → records !! j = Some r2 →
    nsw_only_name r1 = Some name → nsw_only_name r2 = Some name → i = j.

End strings.

(** A canonical record created by the pass that seeds from [source]. *)
Definition seeded (source : string) (r : merged_record) : Prop :=
  head (sources r) = Some source.

(** A source record given by its string fields. *)
Definition record_of (kvs : list (string * string)) : record :=
  list_to_map (map (λ kv, (kv.1, VStr kv.2)) kvs).

End Props.

(** ** A batch of two postcodes in which one extraction fails *)

Module Scenario.

Import Merge Sync Props.

(** The NSW and ACNC extractors find one organisation per postcode; the ABN
    extractor finds one for 2001 and fails for 2000. The raw items already
    have the shape the transformers produce. *)
Definition nsw_extract (postcode : string) : result (list record) :=
  Ok [record_of [("name", "Club " +:+ postcode)]].

Definition acnc_extract (state postcode : string) : result (list record) :=
  Ok [record_of [("abn", "51" +:+ postcode); ("legal_name", "Charity " +:+ postcode)]].

Definition abn_extract (state postcode : string) : result (list record) :=
  if String.eqb postcode "2000" then Raise (OtherError "ABN lookup timed out")
  else Ok [record_of [("abn", "51" +:+ postcode)]].

Definition transform (raw_data : list record) : result (list record) := Ok raw_data.

(** The pool completes the tasks in the order they were submitted. *)
Definition as_completed (futures : list future) : list future := futures.

Definition table_upsert (data : list merged_record) : result json := Ok JNull.

Definition clock (n : nat) : string := "2024-01-01T00:00:00".

(** The store after postcodes 2000 and 2001 were uploaded for NSW. *)
Definition registered : gmap string json :=
  cache_set ∅ "postcodes:NSW" (upload_entry "NSW" ["2000"; "2001"] "2024-01-01T00:00:00").

Definition sync_all (c : gmap string json) (state : string) : outcome :=
  sync_all_sources nsw_extract acnc_extract abn_extract transform transform transform
    as_completed table_upsert clock "2024-01-01T00:00:01" c state.

End Scenario.

(** ** The canonical records the merge can build *)

Module Canon.

Import Merge.

Section strings.

Context {str_methods : Strings}.

(** The record created at the top of an iteration of each loop. *)
Definition seed_abn (abn_record : record) (now : string) : merged_record :=
  dict_of (abn_fields abn_record ++ acnc_fields_empty ++ nsw_fields_empty
           ++ metadata "abn" now).

Definition seed_acnc (abn : string) (acnc_record : record) (now : string) : merged_record :=
  dict_of (abn_fields_empty (VStr abn) ++ acnc_fields acnc_record ++ nsw_fields_empty
           ++ metadata "acnc" now).

Definition seed_nsw (nsw_record : record) (now : string) : merged_record :=
  dict_of (abn_fields_empty VNone ++ acnc_fields_empty ++ nsw_fields nsw_record
           ++ metadata "nsw" now).

(** The two [update] / [append] pairs that add a matched source. *)
Definition with_acnc (d : merged_record) (acnc_record : record) : merged_record :=
  append_source (update d (acnc_fields acnc_record)) "acnc".

Definition with_nsw (d : merged_record) (nsw_record : record) : merged_record :=
  append_source (update d (nsw_fields nsw_record)) "nsw".

(** The identifier of a canonical record, when it has one. *)
Definition identifier (r : merged_record) : option string :=
  match field r "abn" with
  | VStr s => Some s
  | VNone => None
  end.

(** The records that can be built from the three inputs: each one comes from
    input records, joined on the identifier and on the normalized name. *)
Inductive canonical (abn_records acnc_records nsw_records : list record)
    : merged_record → Prop :=
  | canonical_abn a k now :
      a ∈ abn_records → get_truthy a "abn" = Some k →
      canonical abn_records acnc_records nsw_records (seed_abn a now)
  | canonical_abn_acnc a c k now :
      a ∈ abn_records → get_truthy a "abn" = Some k →
      c ∈ acnc_records → get_truthy c "abn" = Some k →
      canonical abn_records acnc_records nsw_records (with_acnc (seed_abn a now) c)
  | canonical_abn_acnc_nsw a c n k legal_name name now :
      a ∈ abn_records → get_truthy a "abn" = Some k →
      c ∈ acnc_records → get_truthy c "abn" = Some k →
      get_truthy c "legal_name" = Some legal_name →
      n ∈ nsw_records → get_truthy n "name" = Some name →
      clean name = clean legal_name →
      canonical abn_records acnc_records nsw_records
        (with_nsw (with_acnc (seed_abn a now) c) n)
  | canonical_acnc c k now :
      c ∈ acnc_records → get_truthy c "abn" = Some k →
      canonical abn_records acnc_records nsw_records (seed_acnc k c now)
  | canonical_acnc_nsw c n k legal_name name now :
      c ∈ acnc_records → get_truthy c "abn" = Some k →
      get_truthy c "legal_name" = Some legal_name →
      n ∈ nsw_records → get_truthy n "name" = Some name →
      clean name = clean legal_name →
      canonical abn_records acnc_records nsw_records (with_nsw (seed_acnc k c now) n)
  | canonical_nsw n name now :
      n ∈ nsw_records → get_truthy n "name" = Some name →
      canonical abn_records acnc_records nsw_records (seed_nsw n now).

(** Every consumed name is the normalized name of the NSW record merged
    into some canonical record of the output so far. *)
Definition names_covered (s : loop_state) : Prop :=
  ∀ c, c ∈ processed_nsw_names s →
       ∃ r name, r ∈ merged s ∧ "nsw" ∈ sources r
                 ∧ field r "nsw_name" = VStr name ∧ clean name = c.

(** [list(dict.fromkeys(xs))]: the first occurrence of each element, in
    order. *)
Definition fromkeys (xs : list string) : list string :=
  foldl (λ acc x, if decide (x ∈ acc) then acc else acc ++ [x]) [] xs.

(** The truthy values found under [key], in the order of the records. *)
Definition truthy_values (key : string) (records : list record) : list string :=
  omap (λ r, get_truthy r key) records.

End strings.

End Canon.

(** ** The other routes: postcodes, single lookups and single-source syncs *)

Module Routes.

Import Merge Sync Canon.

(** [str.lower()] on the letters A-Z. The route asks only whether the
    lowered name ends with ['.csv'], and no character outside A-Z is
    lowered to one of these four. *)
Definition lower_ascii (a : ascii) : ascii :=
  let n := N_of_ascii a in
  if ((65 <=? n) && (n <=? 90))%N then ascii_of_N (n + 32) else a.

Fixpoint lower (s : string) : string :=
  match s with
  | EmptyString => EmptyString
  | String a s' => String (lower_ascii a) (lower s')
  end.

(** [s.endswith(suffix)]. *)
Fixpoint endswith (s suffix : string) : bool :=
  String.eqb s suffix
  || match s with
     | EmptyString => false
     | String _ s' => endswith s' suffix
     end.

(** [request.files['file']]: the name and the bytes of the uploaded file. *)
Record upload := {
  filename : option string;
  content : string
}.

(** What a route leaves: its response and the store. *)
Record reply := {
  answer : http_response;
  store : gmap string json
}.

(** A source record as [json.dumps] writes it. *)
Definition json_of_source_record (r : record) : json :=
  JObj (map (λ kv, (kv.1, json_of_value kv.2)) (map_to_list r)).

(** A source record handed to the loader: a row whose cells are its
    values. *)
Definition as_row (r : record) : merged_record := CVal <$> r.

Definition bad_request (message : string) : http_response :=
  {| status_code := 400; body := JObj [("error", JStr message)] |}.

Section routes.

(** Collaborators. [read_postcodes] stands for the block of
    [upload_postcodes] that decodes the file and collects the digit strings
    it finds with the [csv] module: it returns the list [postcodes] as it
    stands before the emptiness test, or raises. [abr_lookup] is
    [ABNExtractor().lookup_abn], whose [None] is [JNull]. The extractors,
    transformers and the Supabase call are those of the bulk route. *)
Context {str_methods : Strings}.
Context {raw : Type}.
Context (read_postcodes : string → result (list string)).
Context (abr_lookup : string → result json).
Context (nsw_extract : string → result raw).
Context (acnc_extract abn_extract : string → string → result raw).
Context (transform_nsw_assoc_data transform_acnc_data transform_abn_data :
           raw → result (list record)).
Context (table_upsert : list merged_record → result json).

(** [upload_postcodes]; [now] is the upload timestamp. *)
Definition upload_postcodes (c : gmap string json) (state : string)
    (file : option upload) (now : string) : reply :=
  match file with
  | None => {| answer := bad_request "No file provided"; store := c |}
  | Some f =>
      if bool_decide (filename f = Some "") then
        {| answer := bad_request "No file selected"; store := c |}
      else if match filename f with
              | Some name => negb (endswith (lower name) ".csv")
              | None => false
              end then
        {| answer := bad_request "File must be a CSV"; store := c |}
      else
        match read_postcodes (content f) with
        | Raise e =>
            {| answer := {| status_code := 500;
                            body := JObj [ ("error", JStr (str_exn e));
                                           ("status", JStr "failed") ] |};
               store := c |}
        | Ok [] =>
            {| answer := bad_request "No valid postcodes found in file"; store := c |}
        | Ok found =>
            let postcodes := fromkeys found in
            let state_upper := upper state in
            let redis_key := "postcodes:" +:+ state_upper in
            {| answer :=
                 {| status_code := 200;
                    body := JObj [ ("status", JStr "success");
                                   ("state", JStr state_upper);
                                   ("postcodes_uploaded", JNum (length postcodes));
                                   ("postcodes", JArr (map JStr (take 10 postcodes)));
                                   ("total_postcodes", JNum (length postcodes));
                                   ("redis_key", JStr redis_key) ] |};
               store := cache_set c redis_key (upload_entry state_upper postcodes now) |}
        end
  end.

(** [get_postcodes]. *)
Definition get_postcodes (c : gmap string json) (state : string) : http_response :=
  match load_postcodes_for_state c (upper state) with
  | Ok postcodes =>
      {| status_code := 200;
         body := JObj [ ("status", JStr "success");
                        ("state", JStr (upper state));
                        ("postcodes", JArr (map JStr postcodes));
                        ("total_postcodes", JNum (length postcodes)) ] |}
  | Raise (KeyError msg) =>
      {| status_code := 404;
         body := JObj [ ("error", JStr (str_exn (KeyError msg)));
                        ("status", JStr "failed") ] |}
  | Raise e =>
      {| status_code := 500;
         body := JObj [ ("error", JStr (str_exn e)); ("status", JStr "failed") ] |}
  end.

(** [lookup_abn]. *)
Definition lookup_abn (c : gmap string json) (abn_number : string) : reply :=
  let cache_key := "abn_lookup_" +:+ abn_number in
  match cache_hit c cache_key with
  | Some cached_data =>
      {| answer := {| status_code := 200; body := cached_data |}; store := c |}
  | None =>
      match abr_lookup abn_number with
      | Raise e =>
          {| answer := {| status_code := 500;
                          body := JObj [ ("error", JStr (str_exn e));
                                         ("abn", JStr abn_number);
                                         ("status", JStr "failed") ] |};
             store := c |}
      | Ok result =>
          if json_truthy result then
            {| answer := {| status_code := 200;
                            body := JObj [ ("status", JStr "success");
                                           ("abn", JStr abn_number);
                                           ("data", result) ] |};
               store := cache_set c cache_key result |}
          else
            {| answer := {| status_code := 404;
                            body := JObj [("error", JStr "ABN not found or invalid")] |};
               store := c |}
      end
  end.

(** [sync_data_with_location]. *)
Definition sync_data_with_location (c : gmap string json)
    (source state postcode : string) : reply :=
  let cache_key := "sync_" +:+ source +:+ "_" +:+ state +:+ "_" +:+ postcode in
  let failed (e : exn) :=
    {| answer := {| status_code := 500;
                    body := JObj [ ("error", JStr (str_exn e));
                                   ("source", JStr source);
                                   ("state", JStr state);
                                   ("postcode", JStr postcode);
                                   ("status", JStr "failed") ] |};
       store := c |} in
  match cache_hit c cache_key with
  | Some cached_data =>
      {| answer := {| status_code := 200; body := cached_data |}; store := c |}
  | None =>
      if bool_decide (source ∈ ["nsw"; "acnc"; "abn"]) then
        match extract_and_transform nsw_extract acnc_extract abn_extract
                transform_nsw_assoc_data transform_acnc_data transform_abn_data
                source state postcode with
        | Raise e => failed e
        | Ok transformed_data =>
            match upsert_organizations table_upsert (as_row <$> transformed_data) with
            | Raise e => failed e
            | Ok result =>
                {| answer :=
                     {| status_code := 200;
                        body := JObj [ ("status", JStr "success");
                                       ("source", JStr source);
                                       ("state", JStr state);
                                       ("postcode", JStr postcode);
                                       ("records_processed",
                                        JNum (length transformed_data));
                                       ("data", result) ] |};
                   store := cache_set c cache_key
                              (JArr (map json_of_source_record transformed_data)) |}
            end
        end
      else
        {| answer := bad_request "Invalid source. Valid sources are: nsw, acnc, abn";
           store := c |}
  end.

End routes.

End Routes.

(** ** What a batch is expected to collect *)

Module Batch.

Import Merge Sync.

(** The records a task contributes: what its function returns. *)
Definition job_records (extract : string → string → string → result (list record))
    (source state_upper postcode : string) : list record :=
  match extract source state_upper postcode with
  | Ok records => records
  | Raise _ => []
  end.

(** The entry of [by_postcode] once the three tasks of a postcode have been
    collected. *)
Definition expected_counts (extract : string → string → string → result (list record))
    (state_upper postcode : string) : counts :=
  let n_abn := length (job_records extract "abn" state_upper postcode) in
  let n_acnc := length (job_records extract "acnc" state_upper postcode) in
  let n_nsw := length (job_records extract "nsw" state_upper postcode) in
  {| n_abn := n_abn; n_acnc := n_acnc; n_nsw := n_nsw;
     n_total := n_abn + n_acnc + n_nsw |}.

(** [entry[source]] for the three source keys. *)
Definition count_of (entry : counts) (source : string) : nat :=
  if String.eqb source "abn" then n_abn entry
  else if String.eqb source "acnc" then n_acnc entry
  else n_nsw entry.

(** What collecting a task adds to the records of [source]. *)
Definition contribution (extract : string → string → string → result (list record))
    (state_upper source : string) (f : future) : list record :=
  if String.eqb (f_source f) source
  then job_records extract source state_upper (f_postcode f)
  else [].

End Batch.

(** ** The ABN extractor: [app/extractors/abn_extractor.py] *)

Module Abn.

Import Sync.

(** A Python dictionary is carried as [JObj] of its items. [setitem] is
    [d[key] = v]: a key that is present keeps its position. *)
Fixpoint setitem (kvs : list (string * json)) (key : string) (v : json)
    : list (string * json) :=
  match kvs with
  | [] => [(key, v)]
  | (k, x) :: kvs' =>
      if String.eqb k key then (k, v) :: kvs' else (k, x) :: setitem kvs' key v
  end.

(** A dictionary display [{k1: v1, k2: v2, ...}]: the items are stored from
    left to right, so a key written twice holds its last value. *)
Definition dict (items : list (string * json)) : json :=
  JObj (foldl (λ kvs kv, setitem kvs kv.1 kv.2) [] items).

(** The value bound to [key], as [subscript] reads it. *)
Definition item (kvs : list (string * json)) (key : string) : option json :=
  foldl (λ acc kv, if String.eqb kv.1 key then Some kv.2 else acc) None kvs.

Definition attribute_error : exn := OtherError "AttributeError".

(** [x.get(key, default)]: [AttributeError] unless [x] is a dictionary. *)
Definition dict_get (x : json) (key : string) (default_value : json) : result json :=
  match x with
  | JObj kvs => Ok (default default_value (item kvs key))
  | _ => Raise attribute_error
  end.

(** [isinstance(x, dict)]. *)
Definition is_dict (x : json) : bool :=
  match x with
  | JObj _ => true
  | _ => false
  end.

(** [v == s] for a string [s]. *)
Definition is_str (v : json) (s : string) : bool :=
  match v with
  | JStr s' => String.eqb s' s
  | _ => false
  end.

(** The local function [get_path] of [format_record]. *)
Fixpoint get_path (curr : json) (path : list string) : json :=
  match path with
  | [] => curr
  | key :: path' =>
      let curr :=
        match curr with
        | JArr [] => JNull
        | JArr (first :: _) => first
        | _ => curr
        end in
      match curr with
      | JObj kvs => get_path (default JNull (item kvs key)) path'
      | _ => JNull
      end
  end.

Section strings.

Context {str_methods : Strings}.

(** An [xml.etree.ElementTree.Element]: its tag, its text and its
    children. *)
#[local] Unset Elimination Schemes.
Inductive element :=
  | Element (tag : string) (text : option string) (children : list element).
#[local] Set Elimination Schemes.

Definition tag_of (elem : element) : string :=
  match elem with
  | Element tag _ _ => tag
  end.

(** [tag[tag.find('}') + 1:]] when the tag holds a closing brace. *)
Fixpoint after_brace (tag : string) : option string :=
  match tag with
  | EmptyString => None
  | String a tag' => if Ascii.eqb a "}" then Some tag' else after_brace tag'
  end.

(** The tag without its namespace. *)
Definition local_tag (tag : string) : string := default tag (after_brace tag).

(** The three branches that store a child value in [child_dict]. *)
Definition add_child (child_dict : list (string * json)) (tag : string) (child_value : json)
    : list (string * json) :=
  match item child_dict tag with
  | Some (JArr values) => setitem child_dict tag (JArr (values ++ [child_value]))
  | Some v => setitem child_dict tag (JArr [v; child_value])
  | None => setitem child_dict tag child_value
  end.

(** [etree_to_dict]. *)
Fixpoint etree_to_dict (elem : element) : json :=
  match elem with
  | Element _ text children =>
      let child_dict :=
        foldl (λ acc child, add_child acc (local_tag (tag_of child)) (etree_to_dict child))
              [] children in
      let text := strip (default "" text) in
      if negb (String.eqb text "") && bool_decide (children = []) then JStr text
      else if negb (String.eqb text "") then JObj (setitem child_dict "value" (JStr text))
      else JObj child_dict
  end.

(** The values of the children of [elem] whose local tag is [key], in
    document order. *)
Definition child_values (elem : element) (key : string) : list json :=
  match elem with
  | Element _ _ children =>
      etree_to_dict <$> filter (λ child, local_tag (tag_of child) = key) children
  end.

(** What a dictionary holds for a tag that the values [values] were stored
    under, one after the other: the value itself when there is one, the
    list of the values when there are more. *)
Definition grouped (values : list json) : option json :=
  match values with
  | [] => None
  | [v] => Some v
  | _ => Some (JArr values)
  end.

(** [extract_business_entity]. *)
Definition extract_business_entity (details : json) : result json :=
  body ← dict_get details "Body" (JObj []);
  found ← dict_get body "SearchByABNv201408Response" (JObj []);
  payload ← dict_get found "ABRPayloadSearchResults" (JObj []);
  response ← dict_get payload "response" (JObj []);
  dict_get response "businessEntity201408" (JObj []).

(** [value or default] for an optional string argument. *)
Definition or_else (x : option string) (default_value : string) : string :=
  match x with
  | Some s => if String.eqb s "" then default_value else s
  | None => default_value
  end.

Section abr.

(** Collaborators. [dumps] is [json.dumps]. [found_abns postcode] is the
    call of [SearchByCharity] with its retries and the parse of its answer:
    the non-empty texts of the [abn] elements, or what is raised.
    [lookup_abn_details] is [ABRClient._lookup_abn_details], whose [None] is
    [JNull]; where the client is created for the call, what its creation
    raises is raised by it. Logging and [time.sleep] are not modelled. *)
Context (dumps : json → string).
Context (found_abns : string → result (list string)).
Context (lookup_abn_details : string → result json).

(** [json.dumps(be.get(key)) if be.get(key) is not None else None]. *)
Definition dumped (kvs : list (string * json)) (key : string) : json :=
  match default JNull (item kvs key) with
  | JNull => JNull
  | v => JStr (dumps v)
  end.

(** [format_record]. *)
Definition format_record (be : json) : result json :=
  match be with
  | JObj kvs =>
      Ok (dict
            [ ("abn", get_path be ["ABN"; "identifierValue"]);
              ("isCurrent", get_path be ["ABN"; "isCurrentIndicator"]);
              ("replacedFrom", get_path be ["ABN"; "replacedFrom"]);
              ("entityStatus", get_path be ["entityStatus"; "entityStatusCode"]);
              ("effectiveFrom", get_path be ["entityStatus"; "effectiveFrom"]);
              ("effectiveTo", get_path be ["entityStatus"; "effectiveTo"]);
              ("entityTypeCode", get_path be ["entityType"; "entityTypeCode"]);
              ("entityDescription", get_path be ["entityType"; "entityDescription"]);
              ("acnc_status", get_path be ["ACNCRegistration"; "status"]);
              ("acnc_status_from", get_path be ["ACNCRegistration"; "effectiveFrom"]);
              ("acnc_status_to", get_path be ["ACNCRegistration"; "effectiveTo"]);
              ("record_last_updated", default JNull (item kvs "recordLastUpdatedDate"));
              ("gst", dumped kvs "goodsAndServicesTax");
              ("dgr", dumped kvs "dgrEndorsement");
              ("main_trading_names", dumped kvs "mainTradingName");
              ("other_trading_names", dumped kvs "otherTradingName");
              ("main_business_physical_address", dumped kvs "mainBusinessPhysicalAddress");
              ("tax_concession_endorsements", dumped kvs "taxConcessionCharityEndorsement") ])
  | _ => Raise attribute_error
  end.

(** [ABRClient._call_search_by_charity]; a negative [limit], which no
    caller passes, is not modelled. *)
Definition call_search_by_charity (postcode : string) (limit : option nat)
    : result (list string) :=
  abns ← found_abns postcode;
  Ok (match limit with
      | Some n => take n abns
      | None => abns
      end).

(** The part of the loop body of [ABRClient.search_charities] that reads
    the main address: [postcode_val] and [state_code], where [None] is the
    [None] of Python. *)
Definition main_location (be : json) : result (json * option string) :=
  main_addr ← dict_get be "mainBusinessPhysicalAddress" JNull;
  if json_truthy main_addr then
    postcode_val ← dict_get main_addr "postcode" JNull;
    state_val ← dict_get main_addr "stateCode" JNull;
    state_code ←
      (if json_truthy state_val then
         match state_val with
         | JStr s => Ok (upper s)
         | _ => Raise attribute_error
         end
       else Ok "");
    Ok (postcode_val, Some state_code)
  else Ok (JNull, None).

(** What the test [state_code == state.upper() and postcode_val == postcode]
    accepts: the main business address of the entity is a dictionary that
    holds the postcode, and a state equal to the one searched once both are
    in upper case; an address without a state passes for the empty state
    only. *)
Definition located_in (postcode state : string) (be : json) : Prop :=
  ∃ main_addr state_val,
    dict_get be "mainBusinessPhysicalAddress" JNull = Ok main_addr
    ∧ json_truthy main_addr = true
    ∧ dict_get main_addr "postcode" JNull = Ok (JStr postcode)
    ∧ dict_get main_addr "stateCode" JNull = Ok state_val
    ∧ ((∃ s, state_val = JStr s ∧ upper s = upper state)
       ∨ json_truthy state_val = false ∧ upper state = "").

(** Body of [for abn in abns]. *)
Definition search_body (postcode state : string) (charities : list json) (abn : string)
    : result (list json) :=
  parsed_details ← lookup_abn_details abn;
  if negb (json_truthy parsed_details) then Ok charities
  else
    be ← extract_business_entity parsed_details;
    location ← main_location be;
    if bool_decide (location.2 = Some (upper state)) && is_str location.1 postcode then
      formatted ← format_record be;
      Ok (charities ++ [formatted])
    else Ok charities.

(** [ABRClient.search_charities]. *)
Definition search_charities (postcode state : string) (max_abns : option nat)
    : result (list json) :=
  abns ← call_search_by_charity postcode max_abns;
  foldl (λ acc abn, charities ← acc; search_body postcode state charities abn)
        (Ok []) abns.

(** [ABNExtractor.extract], which reaches [ABRClient.search_charities]
    through [ABRService.search_charities]; both re-raise what is raised. *)
Definition extract (state postcode : option string) (max_abns : option nat)
    : result (list json) :=
  search_charities (or_else postcode "2000") (or_else state "NSW") max_abns.

(** [ABNExtractor.lookup_abn]. *)
Definition lookup_abn (abn : string) : json :=
  match
    (parsed_details ← lookup_abn_details abn;
     if negb (json_truthy parsed_details) then Ok JNull
     else
       be ← extract_business_entity parsed_details;
       if json_truthy be then format_record be else Ok JNull)
  with
  | Ok formatted => formatted
  | Raise _ => JNull
  end.

End abr.

End strings.

End Abn.

(** ** The transformers: [app/transformers/data_transformer.py] *)

Module Transform.

Import Sync Abn.

(** [item.get(key)] for the items of a dictionary. *)
Definition field_of (kvs : list (string * json)) (key : string) : json :=
  default JNull (item kvs key).

(** The keys of a dictionary. *)
Definition keys (d : json) : list string :=
  match d with
  | JObj kvs => kvs.*1
  | _ => []
  end.

(** The dictionary appended for one item of [transform_abn_data]; [now] is
    [datetime.now().isoformat()]. *)
Definition transform_abn_item (now : string) (raw_item : json) : result json :=
  match raw_item with
  | JObj kvs =>
      Ok (dict
            [ ("abn", field_of kvs "abn");
              ("is_current", field_of kvs "isCurrent");
              ("replaced_from", field_of kvs "replacedFrom");
              ("entity_status", field_of kvs "entityStatus");
              ("effective_from", field_of kvs "effectiveFrom");
              ("effective_to", field_of kvs "effectiveTo");
              ("entity_type_code", field_of kvs "entityTypeCode");
              ("entity_type_description", field_of kvs "entityTypeDescription");
              ("anc_status", field_of kvs "anc_status");
              ("acnc_status_from", field_of kvs "acnc_status_from");
              ("acnc_status_to", field_of kvs "acnc_status_to");
              ("record_last_updated", field_of kvs "record_last_updated");
              ("gst", field_of kvs "gst");
              ("dgr", field_of kvs "dgr");
              ("main_trading_names", field_of kvs "main_trading_names");
              ("other_trading_names", field_of kvs "other_trading_names");
              ("main_business_physical_address",
               default (JObj []) (item kvs "main_business_physical_address"));
              ("tax_concession_endorsements",
               default (JArr []) (item kvs "tax_concession_endorsements"));
              ("updated_at", JStr now) ])
  | _ => Raise attribute_error
  end.

(** The dictionary appended for one item of [transform_acnc_data]. *)
Definition transform_acnc_item (now : string) (raw_item : json) : result json :=
  match raw_item with
  | JObj kvs =>
      Ok (dict
            [ ("abn", field_of kvs "ABN");
              ("legal_name", field_of kvs "Charity_Legal_Name");
              ("other_organisation_names", field_of kvs "Other_Organisation_Names");
              ("address",
               dict [ ("street", field_of kvs "Address_Type");
                      ("street", field_of kvs "Address_Line_1");
                      ("street", field_of kvs "Address_Line_2");
                      ("street", field_of kvs "Address_Line_3");
                      ("city", field_of kvs "Town_City");
                      ("state", field_of kvs "State");
                      ("postcode", field_of kvs "Postcode");
                      ("country", field_of kvs "Country") ]);
              ("charity_wbsite", field_of kvs "Charity_Website");
              ("date_organisation_established", field_of kvs "Date_Organisation_Established");
              ("registration_date", field_of kvs "Registration_Date");
              ("charity_size", field_of kvs "Charity_Size");
              ("number_of_responsible_persons", field_of kvs "Number_of_Responsible_Persons");
              ("finacial_year_end", field_of kvs "Financial_Year_End");
              ("operates_in",
               dict [ ("act", field_of kvs "Operates_in_ACT");
                      ("nsw", field_of kvs "Operates_in_NSW");
                      ("nt", field_of kvs "Operates_in_NT");
                      ("qld", field_of kvs "Operates_in_QLD");
                      ("sa", field_of kvs "Operates_in_SA");
                      ("tas", field_of kvs "Operates_in_TAS");
                      ("vic", field_of kvs "Operates_in_VIC");
                      ("wa", field_of kvs "Operates_in_WA");
                      ("countries", field_of kvs "Operates_in_Countries") ]);
              ("areas_of_interest",
               dict [ ("pbi", field_of kvs "PBI");
                      ("hpc", field_of kvs "HPC");
                      ("preventing_or_relieving_suffering_of_animals",
                       field_of kvs "Preventing_or_relieving_suffering_of_animals");
                      ("aborigninal_or_tsi", field_of kvs "Aboriginal_or_TSI");
                      ("adults", field_of kvs "Adults");
                      ("advancing_health", field_of kvs "Advancing_health");
                      ("advancing_education", field_of kvs "Advancing_education");
                      ("advancing_religion", field_of kvs "Advancing_religion");
                      ("advancing_culture", field_of kvs "Advancing_culture");
                      ("advancing_social_or_public_welfare",
                       field_of kvs "Advancing_social_or_public_welfare");
                      ("advancing_natural_environment",
                       field_of kvs "Advancing_natual_environment");
                      ("advancing_security_or safety_of_australia_or_australian_public",
                       field_of kvs "Advancing_security_or_safety_of_Australia_or_Australian_public");
                      ("aged_persons", field_of kvs "Aged_Persons");
                      ("childern", field_of kvs "Children");
                      ("communities_overseas", field_of kvs "Communities_Overseas");
                      ("early_childhood", field_of kvs "Early_Childhood");
                      ("ethnic_groups", field_of kvs "Ethnic_Groups");
                      ("families", field_of kvs "Families");
                      ("females", field_of kvs "Females");
                      ("financially_disadvantaged", field_of kvs "Financially_Disadvantaged");
                      ("gay_lesbian_bisexual", field_of kvs "Gay_Lesbian_Bisexual");
                      ("general_community_in_australia",
                       field_of kvs "General_Community_in_Australia");
                      ("males", field_of kvs "Males");
                      ("migrants_refugees_or_asylum_seekers",
                       field_of kvs "Migrants_Refugees_or_Asylum_Seekers");
                      ("other_beneficiaries", field_of kvs "Other_Beneficiaries");
                      ("other_charities", field_of kvs "Other_Charities");
                      ("promote_or_oppose_a_change_to_law__government_poll_or_prac",
                       field_of kvs "Promote_or_oppose_a_change_to_law__government_poll_or_prac");
                      ("promoting_or_protecting_human_rights",
                       field_of kvs "Promoting_or_protecting_human_rights");
                      ("promoting_reconciliation__mutual_respect_and_tolerance",
                       field_of kvs "Promoting_reconciliation__mutual_respect_and_tolerance");
                      ("purposes_beneficial_to_ther_general_public_and_other_analogous",
                       field_of kvs "Purposes_beneficial_to_ther_general_public_and_other_analogous");
                      ("people_at_risk_of_homelessness",
                       field_of kvs "People_at_risk_of_homelessness");
                      ("people_with_chronic_illness", field_of kvs "People_with_Chronic_Illness");
                      ("people_with_disabilities", field_of kvs "People_with_Disabilities");
                      ("pre_post_releaseoffenders", field_of kvs "Pre_Post_Release_Offenders");
                      ("rural_regional_remote_communities",
                       field_of kvs "Rural_Regional_Remote_Communities");
                      ("unemployed_person", field_of kvs "Unemployed_Person");
                      ("veterans_or_their_families", field_of kvs "Veterans_or_their_families");
                      ("victims_of_crime", field_of kvs "Victims_of_crime");
                      ("victims_of_disasters", field_of kvs "Victims_of_Disasters");
                      ("youth", field_of kvs "Youth") ]);
              ("updated_at", JStr now) ])
  | _ => Raise attribute_error
  end.

(** The dictionary appended for one item of [transform_nsw_assoc_data]. *)
Definition transform_nsw_assoc_item (now : string) (raw_item : json) : result json :=
  match raw_item with
  | JObj kvs =>
      Ok (dict
            [ ("organisation_number", field_of kvs "organisation_number");
              ("name", field_of kvs "name");
              ("organisation_type", field_of kvs "organisation_type");
              ("status", field_of kvs "status");
              ("date_registered", field_of kvs "date_registered");
              ("date_removed", field_of kvs "date_removed");
              ("registered_office_address", field_of kvs "registered_office_address");
              ("organisation_id", field_of kvs "organisation_id");
              ("updated_at", JStr now) ])
  | _ => Raise attribute_error
  end.

(** The loop [for item in raw_data: transformed.append(...)] of the three
    transformers; [clock n] is the reading of the clock for item [n]. An
    exception leaves the function, so nothing is returned. *)
Fixpoint transform_loop (transform_item : string → json → result json)
    (clock : nat → string) (n : nat) (raw_data : list json) : result (list json) :=
  match raw_data with
  | [] => Ok []
  | raw_item :: rest =>
      transformed_item ← transform_item (clock n) raw_item;
      transformed ← transform_loop transform_item clock (S n) rest;
      Ok (transformed_item :: transformed)
  end.

Definition transform_abn_data (clock : nat → string) (raw_data : list json)
    : result (list json) :=
  transform_loop transform_abn_item clock 0 raw_data.

Definition transform_acnc_data (clock : nat → string) (raw_data : list json)
    : result (list json) :=
  transform_loop transform_acnc_item clock 0 raw_data.

Definition transform_nsw_assoc_data (clock : nat → string) (raw_data : list json)
    : result (list json) :=
  transform_loop transform_nsw_assoc_item clock 0 raw_data.

End Transform.

(** ** Requests to the other routes *)

Module Requests.

Import Merge Sync Props Routes.

(** The uploaded file has one column: the header [postcode] and the lines
    2001, 2000 and 2001 again. *)
Definition line_feed : ascii := ascii_of_nat 10.

Definition line (s : string) : string := s +:+ String line_feed EmptyString.

Definition csv_file : upload :=
  {| filename := Some "Postcodes.CSV";
     content := line "postcode" +:+ line "2001" +:+ line "2000" +:+ line "2001" |}.

(** [content.split('\n')]. *)
Fixpoint split_lines (content : string) : list string :=
  match content with
  | EmptyString => [EmptyString]
  | String a rest =>
      if Ascii.eqb a line_feed then EmptyString :: split_lines rest
      else match split_lines rest with
           | l :: ls => String a l :: ls
           | [] => [String a EmptyString]
           end
  end.

(** [str.isdigit()] on ASCII text. *)
Definition is_digit (a : ascii) : bool :=
  let n := N_of_ascii a in ((48 <=? n) && (n <=? 57))%N.

Fixpoint all_digits (s : string) : bool :=
  match s with
  | EmptyString => true
  | String a rest => is_digit a && all_digits rest
  end.

Definition isdigit (s : string) : bool := negb (String.eqb s "") && all_digits s.

(** The block of [upload_postcodes] that reads the file, on a file of one
    column: ASCII text without comma, double quote or carriage return. Under
    the header [postcode] the reader yields one row for every line that is
    not empty; under another header, or none, the first value of every line
    is taken, the first line included. Both ways the postcodes are the lines
    that, stripped, are made of digits, in the order of the file. *)
Definition read_postcodes (content : string) : result (list string) :=
  Ok (List.filter isdigit (map strip (split_lines content))).

(** The register knows one ABN. *)
Definition abr_lookup (abn_number : string) : result json :=
  if String.eqb abn_number "51824753556"
  then Ok (JObj [("abn", JStr abn_number); ("entityStatus", JStr "Active")])
  else Ok JNull.

(** A register that cannot be reached. *)
Definition abr_down (abn_number : string) : result json :=
  Raise (OtherError "ABR Service under maintenance").

(** The pool completes the tasks in the reverse of the submission order. *)
Definition as_completed (futures : list future) : list future := reverse futures.

(** A loader whose call raises. *)
Definition table_upsert_down (data : list merged_record) : result json :=
  Raise (OtherError "connection reset").

(** Extractors that raise. *)
Definition nsw_down (postcode : string) : result (list record) :=
  Raise (OtherError "timeout").

Definition register_down (state postcode : string) : result (list record) :=
  Raise (OtherError "timeout").

(** The single-source route with the collaborators of the batch. *)
Definition sync_one (c : gmap string json) (source state postcode : string) : reply :=
  sync_data_with_location Scenario.nsw_extract Scenario.acnc_extract Scenario.abn_extract
    Scenario.transform Scenario.transform Scenario.transform Scenario.table_upsert
    c source state postcode.

End Requests.

(** ** One entity in the register *)

Module Register.

Import Sync Abn.

(** [json.dumps] with its default separators, on values whose strings are
    ASCII text and whose objects bind every key once. Inside a string the
    double quote and the backslash are escaped with a backslash, the control
    characters of the short forms with their letter, and the other
    characters outside the range from the space to the tilde with their
    four hexadecimal digits. *)
Definition backslash : string := String (ascii_of_nat 92) EmptyString.

Definition hex_digit (n : N) : string :=
  String (ascii_of_N (if (n <? 10)%N then 48 + n else 87 + n)) EmptyString.

Definition escape (a : ascii) : string :=
  let n := N_of_ascii a in
  if (n =? 34)%N then backslash +:+ dquote
  else if (n =? 92)%N then backslash +:+ backslash
  else if (n =? 10)%N then backslash +:+ "n"
  else if (n =? 13)%N then backslash +:+ "r"
  else if (n =? 9)%N then backslash +:+ "t"
  else if (n =? 8)%N then backslash +:+ "b"
  else if (n =? 12)%N then backslash +:+ "f"
  else if ((32 <=? n) && (n <=? 126))%N then String a EmptyString
  else backslash +:+ "u00" +:+ hex_digit (n / 16) +:+ hex_digit (n mod 16).

Fixpoint escaped (s : string) : string :=
  match s with
  | EmptyString => EmptyString
  | String a rest => escape a +:+ escaped rest
  end.

Definition quoted (s : string) : string := dquote +:+ escaped s +:+ dquote.

Fixpoint dumps (v : json) : string :=
  match v with
  | JNull => "null"
  | JBool b => if b then "true" else "false"
  | JNum n => pretty n
  | JStr s => quoted s
  | JArr xs => "[" +:+ String.concat ", " (map dumps xs) +:+ "]"
  | JObj kvs =>
      "{" +:+ String.concat ", " (map (λ '(k, v), quoted k +:+ ": " +:+ dumps v) kvs) +:+ "}"
  end.

(** The business entity of ABN 51824753556, and the parsed answer that
    holds it. *)
Definition entity : json :=
  JObj [ ("ABN", JObj [ ("identifierValue", JStr "51824753556");
                        ("isCurrentIndicator", JStr "Y") ]);
         ("entityType", JObj [ ("entityTypeCode", JStr "PUB");
                               ("entityDescription", JStr "Australian Public Company") ]);
         ("ACNCRegistration", JObj [ ("status", JStr "Registered") ]);
         ("mainBusinessPhysicalAddress", JObj [ ("stateCode", JStr "nsw");
                                                ("postcode", JStr "2000") ]) ].

Definition details : json :=
  JObj [ ("Body",
          JObj [ ("SearchByABNv201408Response",
                  JObj [ ("ABRPayloadSearchResults",
                          JObj [ ("response",
                                  JObj [ ("businessEntity201408", entity) ]) ]) ]) ]) ].

(** The register lists two ABNs for every postcode and knows the first. *)
Definition found_abns (postcode : string) : result (list string) :=
  Ok ["51824753556"; "00000000000"].

Definition lookup_abn_details (abn : string) : result json :=
  if String.eqb abn "51824753556" then Ok details else Ok JNull.

(** The record [format_record] makes of the entity. *)
Definition formatted : json :=
  match format_record dumps entity with
  | Ok record => record
  | Raise _ => JNull
  end.

End Register.

(** * Theorems *)

Section merge_facts.

Import Merge Props.

Context {str_methods : Strings}.
Context (clock : nat → string).


Lemma get_truthy_Some (d : record) k s :
  get_truthy d k = Some s → get d k = VStr s ∧ s ≠ "".
Proof.
  unfold get_truthy. destruct (get d k) as [|s']; [done|].
  destruct (String.eqb_spec s' ""); [done|]. intros [= ->]. done.
Qed.

Lemma update_lookup_notin (d : merged_record) kvs k :
  k ∉ kvs.*1 → update d kvs !! k = d !! k.
Proof.
  unfold update. revert d. induction kvs as [|[k' v] kvs IH]; intros d Hk; [done|].
  simpl in *. apply not_elem_of_cons in Hk as [Hne Hk].
  rewrite IH by done. by rewrite lookup_insert_ne.
Qed.

Lemma update_app (d : merged_record) kvs1 kvs2 :
  update d (kvs1 ++ kvs2) = update (update d kvs1) kvs2.
Proof. unfold update. by rewrite foldl_app. Qed.

Lemma sources_seed fields source now :
  sources (dict_of (fields ++ metadata source now)) = [source].
Proof.
  unfold sources, dict_of. rewrite update_app. unfold metadata, update at 1. simpl.
  rewrite lookup_insert_ne by done. by rewrite lookup_insert_eq.
Qed.

Lemma lookup_sources_seed fields source now :
  dict_of (fields ++ metadata source now) !! "sources" = Some (CList [source]).
Proof.
  unfold dict_of. rewrite update_app. unfold metadata, update at 1. simpl.
  rewrite lookup_insert_ne by done. by rewrite lookup_insert_eq.
Qed.

Lemma lookup_sources_append (d : merged_record) xs s :
  d !! "sources" = Some (CList xs) →
  append_source d s !! "sources" = Some (CList (xs ++ [s])).
Proof. intros H. unfold append_source. rewrite H. by rewrite lookup_insert_eq. Qed.

Lemma acnc_fields_keys r : "sources" ∉ (acnc_fields r).*1.
Proof. simpl. apply (bool_decide_unpack _). by vm_compute. Qed.

Lemma nsw_fields_keys r : "sources" ∉ (nsw_fields r).*1.
Proof. simpl. apply (bool_decide_unpack _). by vm_compute. Qed.

Local Arguments dict_of : simpl never.
Local Arguments update : simpl never.
Local Arguments append_source : simpl never.
Lemma sources_lookup (d : merged_record) xs :
  d !! "sources" = Some (CList xs) → sources d = xs.
Proof. intros H. unfold sources. by rewrite H. Qed.

(** Closes the conjuncts left once the appended record is dealt with: facts
    about the flags, and equations that hold by computation. *)
Ltac flags_and_stats :=
  repeat match goal with
         | |- _ ∧ _ => split
         | |- _ ↔ _ => split
         | |- _ = _ => reflexivity
         | |- _ → _ => intro
         | |- is_Some (Some _) => eexists; reflexivity
         | H : false = true |- _ => discriminate H
         | H : true = false |- _ => discriminate H
         end.

Lemma abn_body_spec acnc_by_abn nsw_by_name s abn_record abn :
  get_truthy abn_record "abn" = Some abn →
  abn ∉ processed_abns s →
  let s' := abn_body clock acnc_by_abn nsw_by_name s abn_record in
  ∃ r (has_acnc_match has_nsw_match : bool),
    merged s' = merged s ++ [r]
    ∧ sources r = "abn" :: (if has_acnc_match then ["acnc"] else [])
                        ++ (if has_nsw_match then ["nsw"] else [])
    ∧ (has_acnc_match = true ↔ is_Some (acnc_by_abn !! abn))
    ∧ (has_nsw_match = true ↔
         ∃ acnc_record legal_name,
           acnc_by_abn !! abn = Some acnc_record
           ∧ get_truthy acnc_record "legal_name" = Some legal_name
           ∧ is_Some (nsw_by_name !! clean legal_name))
    ∧ (has_nsw_match = true → has_acnc_match = true)
    ∧ stats s' =
        (if has_acnc_match && has_nsw_match then incr_all_source_matches
         else if negb has_acnc_match && negb has_nsw_match then incr_abn_only
         else id)
          ((if has_nsw_match then incr_acnc_nsw_matches else id)
             ((if has_acnc_match then incr_abn_acnc_matches else id) (stats s))).
Proof.
  intros Habn Hnew s'. subst s'. unfold abn_body. rewrite Habn.
  destruct (decide (abn ∈ processed_abns s)) as [|_]; [done|].
  pose proof (lookup_sources_seed
    (abn_fields abn_record ++ acnc_fields_empty ++ nsw_fields_empty)
    "abn" (clock (length (merged s)))) as Hseed.
  rewrite <- !(assoc_L app) in Hseed.
  destruct (acnc_by_abn !! abn) as [acnc_record|] eqn:Hacnc.
  - assert (Hacnc_src : ∀ d : merged_record, d !! "sources" = Some (CList ["abn"]) →
      append_source (update d (acnc_fields acnc_record)) "acnc" !! "sources"
      = Some (CList ["abn"; "acnc"])).
    { intros d Hd. apply (lookup_sources_append _ ["abn"]).
      by rewrite update_lookup_notin by apply acnc_fields_keys. }
    destruct (get_truthy acnc_record "legal_name") as [legal_name|] eqn:Hname.
    + destruct (nsw_by_name !! clean legal_name) as [nsw_record|] eqn:Hnsw.
      * eexists _, true, true. cbn [merged stats andb negb].
        split; [reflexivity|]. split; [|split; [flags_and_stats|split]].
        -- apply sources_lookup, (lookup_sources_append _ ["abn"; "acnc"]).
           rewrite update_lookup_notin by apply nsw_fields_keys. by apply Hacnc_src.
        -- split; [|done]. intros _. exists acnc_record, legal_name.
           rewrite Hnsw. eauto.
        -- flags_and_stats.
      * eexists _, true, false. cbn [merged stats andb negb].
        split; [reflexivity|]. split; [|split; [flags_and_stats|split]].
        -- by apply sources_lookup, Hacnc_src.
        -- split; [done|]. intros (? & ? & [= <-] & Hn & [? Hs]). congruence.
        -- flags_and_stats.
    + eexists _, true, false. cbn [merged stats andb negb].
      split; [reflexivity|]. split; [|split; [flags_and_stats|split]].
      * by apply sources_lookup, Hacnc_src.
      * split; [done|]. intros (? & ? & [= <-] & Hn & _). congruence.
      * flags_and_stats.
  - eexists _, false, false. cbn [merged stats andb negb].
    split; [reflexivity|]. split; [by apply sources_lookup|].
    split; [split; [done|by intros [? ?]]|]. split; [|flags_and_stats].
    split; [done|]. intros (? & ? & ? & _). done.
Qed.

Lemma abn_body_skip acnc_by_abn nsw_by_name s abn_record :
  (∀ abn, get_truthy abn_record "abn" = Some abn → abn ∈ processed_abns s) →
  abn_body clock acnc_by_abn nsw_by_name s abn_record = s.
Proof.
  intros H. unfold abn_body. destruct (get_truthy abn_record "abn") as [abn|]; [|done].
  by rewrite decide_True by auto.
Qed.

(** What one iteration of the second loop does to a record it does not
    skip. *)
Lemma acnc_body_spec nsw_by_name s acnc_record abn :
  get_truthy acnc_record "abn" = Some abn →
  abn ∉ processed_abns s →
  let s' := acnc_body clock nsw_by_name s acnc_record in
  ∃ r (has_nsw_match : bool),
    merged s' = merged s ++ [r]
    ∧ sources r = "acnc" :: (if has_nsw_match then ["nsw"] else [])
    ∧ (has_nsw_match = true ↔
         ∃ legal_name, get_truthy acnc_record "legal_name" = Some legal_name
                       ∧ is_Some (nsw_by_name !! clean legal_name)
                       ∧ clean legal_name ∉ processed_nsw_names s)
    ∧ stats s' = (if has_nsw_match then incr_acnc_nsw_matches else incr_acnc_only) (stats s)
    ∧ processed_abns s' = processed_abns s
    ∧ (has_nsw_match = false →
         processed_nsw_names s' = processed_nsw_names s
         ∧ r = dict_of (abn_fields_empty (VStr abn) ++ acnc_fields acnc_record
                        ++ nsw_fields_empty
                        ++ metadata "acnc" (clock (length (merged s))))).
Proof.
  intros Habn Hnew s'. subst s'. unfold acnc_body. rewrite Habn.
  destruct (decide (abn ∈ processed_abns s)) as [|_]; [done|].
  pose proof (lookup_sources_seed
    (abn_fields_empty (VStr abn) ++ acnc_fields acnc_record ++ nsw_fields_empty)
    "acnc" (clock (length (merged s)))) as Hseed.
  rewrite <- !(assoc_L app) in Hseed.
  destruct (get_truthy acnc_record "legal_name") as [legal_name|].
  - destruct (nsw_by_name !! clean legal_name) as [nsw_record|] eqn:Hnsw.
    + destruct (decide (clean legal_name ∈ processed_nsw_names s)) as [Hin|Hout].
      * eexists _, false. cbn [merged stats processed_abns processed_nsw_names].
        split; [reflexivity|]. split; [by apply sources_lookup|].
        split; [|flags_and_stats]. split; [done|]. intros (? & [= <-] & _ & ?). done.
      * eexists _, true. cbn [merged stats processed_abns processed_nsw_names].
        split; [reflexivity|]. split; [|split; [|flags_and_stats]].
        -- apply sources_lookup, (lookup_sources_append _ ["acnc"]).
           by rewrite update_lookup_notin by apply nsw_fields_keys.
        -- split; [|done]. intros _. exists legal_name. rewrite Hnsw. eauto.
    + eexists _, false. cbn [merged stats processed_abns processed_nsw_names].
      split; [reflexivity|]. split; [by apply sources_lookup|].
      split; [|flags_and_stats]. split; [done|]. intros (? & [= <-] & [? ?] & _). congruence.
  - eexists _, false. cbn [merged stats processed_abns processed_nsw_names].
    split; [reflexivity|]. split; [by apply sources_lookup|].
    split; [|flags_and_stats]. split; [done|]. intros (? & ? & _). done.
Qed.

Lemma acnc_body_skip nsw_by_name s acnc_record :
  (∀ abn, get_truthy acnc_record "abn" = Some abn → abn ∈ processed_abns s) →
  acnc_body clock nsw_by_name s acnc_record = s.
Proof.
  intros H. unfold acnc_body. destruct (get_truthy acnc_record "abn") as [abn|]; [|done].
  by rewrite decide_True by auto.
Qed.

(** One iteration of the third loop either skips the record or appends an
    NSW-only record and counts it. *)
Lemma nsw_body_spec s nsw_record :
  let s' := nsw_body clock s nsw_record in
  s' = s
  ∨ ∃ r, merged s' = merged s ++ [r]
         ∧ sources r = ["nsw"]
         ∧ stats s' = incr_nsw_only (stats s).
Proof.
  intros s'. subst s'. unfold nsw_body.
  destruct (get_truthy nsw_record "name") as [name|]; [|by left].
  destruct (decide (clean name ∈ processed_nsw_names s)); [by left|].
  right. eexists. cbn [merged stats]. split; [reflexivity|]. split; [|done].
  pose proof (lookup_sources_seed
    (abn_fields_empty VNone ++ acnc_fields_empty ++ nsw_fields nsw_record)
    "nsw" (clock (length (merged s)))) as Hseed.
  rewrite <- !(assoc_L app) in Hseed. by apply sources_lookup.
Qed.

(** A key is bound by [update] to its last binding in the list, and keeps
    its old binding when the list has none. *)
Lemma update_lookup (d : merged_record) kvs k :
  update d kvs !! k
  = foldl (λ acc kv, if String.eqb kv.1 k then Some kv.2 else acc) (d !! k) kvs.
Proof.
  unfold update. revert d. induction kvs as [|[k' v] kvs IH]; intros d; [done|].
  cbn [foldl fst snd]. rewrite IH. f_equal. rewrite lookup_insert.
  destruct (String.eqb_spec k' k); by case_decide.
Qed.

Lemma foldl_invariant {S A} (P : S → Prop) (f : S → A → S) l s :
  P s → (∀ s a, P s → P (f s a)) → P (foldl f s l).
Proof. intros Hs Hstep. revert s Hs. induction l; simpl; auto. Qed.





(** *** The three passes and their counters *)

Lemma abn_pass_invariant abn_records acnc_records nsw_records :
  let s := abn_pass clock abn_records acnc_records nsw_records in
  Forall (seeded "abn") (merged s)
  ∧ length (merged s) = abn_only (stats s) + abn_acnc_matches (stats s)
  ∧ all_source_matches (stats s) = acnc_nsw_matches (stats s)
  ∧ all_source_matches (stats s) ≤ abn_acnc_matches (stats s)
  ∧ acnc_only (stats s) = 0
  ∧ nsw_only (stats s) = 0.
Proof.
  unfold abn_pass. apply foldl_invariant.
  { cbn. repeat split; auto. }
  intros s abn_record (Hseed & Hlen & Hall & Hle & Hacnc & Hnsw).
  destruct (get_truthy abn_record "abn") as [abn|] eqn:Habn;
    [destruct (decide (abn ∈ processed_abns s)) as [Hin|Hout]|].
  - rewrite abn_body_skip; [done|]. intros ? Heq. rewrite Habn in Heq. by simplify_eq.
  - destruct (abn_body_spec (by_abn acnc_records) (by_name nsw_records)
                s abn_record abn Habn Hout)
      as (r & a & n & Hm & Hsrc & _ & _ & Himp & Hstats).
    rewrite Hm, Hstats, length_app. split.
    { apply Forall_app. split; [done|]. apply Forall_singleton.
      unfold seeded. by rewrite Hsrc. }
    destruct a, n; try (by specialize (Himp eq_refl));
      cbn [andb negb id length all_source_matches abn_only abn_acnc_matches
           acnc_nsw_matches acnc_only nsw_only incr_all_source_matches
           incr_abn_only incr_acnc_nsw_matches incr_abn_acnc_matches];
      repeat split; lia.
  - rewrite abn_body_skip; [done|]. intros ? Heq. rewrite Habn in Heq. done.
Qed.

Lemma acnc_pass_invariant abn_records acnc_records nsw_records :
  let s1 := abn_pass clock abn_records acnc_records nsw_records in
  let s := acnc_pass clock abn_records acnc_records nsw_records in
  ∃ l, merged s = merged s1 ++ l
    ∧ Forall (seeded "acnc") l
    ∧ acnc_only (stats s) + acnc_nsw_matches (stats s)
      = acnc_only (stats s1) + acnc_nsw_matches (stats s1) + length l
    ∧ acnc_nsw_matches (stats s1) ≤ acnc_nsw_matches (stats s)
    ∧ abn_only (stats s) = abn_only (stats s1)
    ∧ abn_acnc_matches (stats s) = abn_acnc_matches (stats s1)
    ∧ all_source_matches (stats s) = all_source_matches (stats s1)
    ∧ nsw_only (stats s) = nsw_only (stats s1).
Proof.
  intros s1 s. subst s. unfold acnc_pass. fold s1. apply foldl_invariant.
  { exists []. rewrite app_nil_r. cbn [length]. repeat split; auto with lia. }
  intros s acnc_record (l & Hl & Hseed & Hcount & Hmono & H1 & H2 & H3 & H4).
  destruct (get_truthy acnc_record "abn") as [abn|] eqn:Habn;
    [destruct (decide (abn ∈ processed_abns s)) as [Hin|Hout]|].
  - rewrite acnc_body_skip; [by exists l|].
    intros ? Heq. rewrite Habn in Heq. by simplify_eq.
  - destruct (acnc_body_spec (by_name nsw_records) s acnc_record abn Habn Hout)
      as (r & n & Hm & Hsrc & _ & Hstats & _).
    exists (l ++ [r]). rewrite Hm, Hstats, Hl, length_app, (assoc_L app).
    split; [done|]. split.
    { apply Forall_app. split; [done|]. apply Forall_singleton.
      unfold seeded. by rewrite Hsrc. }
    destruct n;
      cbn [length all_source_matches abn_only abn_acnc_matches acnc_nsw_matches
           acnc_only nsw_only incr_acnc_nsw_matches incr_acnc_only];
      repeat split; lia.
  - rewrite acnc_body_skip; [by exists l|]. intros ? Heq. rewrite Habn in Heq. done.
Qed.

Lemma nsw_pass_invariant abn_records acnc_records nsw_records :
  let s2 := acnc_pass clock abn_records acnc_records nsw_records in
  let s := nsw_pass clock abn_records acnc_records nsw_records in
  ∃ l, merged s = merged s2 ++ l
    ∧ Forall (seeded "nsw") l
    ∧ nsw_only (stats s) = nsw_only (stats s2) + length l
    ∧ abn_only (stats s) = abn_only (stats s2)
    ∧ acnc_only (stats s) = acnc_only (stats s2)
    ∧ abn_acnc_matches (stats s) = abn_acnc_matches (stats s2)
    ∧ acnc_nsw_matches (stats s) = acnc_nsw_matches (stats s2)
    ∧ all_source_matches (stats s) = all_source_matches (stats s2).
Proof.
  intros s2 s. subst s. unfold nsw_pass. fold s2. apply foldl_invariant.
  { exists []. rewrite app_nil_r. cbn [length]. repeat split; auto with lia. }
  intros s nsw_record (l & Hl & Hseed & Hcount & H1 & H2 & H3 & H4 & H5).
  destruct (nsw_body_spec s nsw_record) as [->|(r & Hm & Hsrc & Hstats)];
    [by exists l|].
  exists (l ++ [r]). rewrite Hm, Hstats, Hl, length_app, (assoc_L app).
  split; [done|]. split.
  { apply Forall_app. split; [done|]. apply Forall_singleton.
    unfold seeded. by rewrite Hsrc. }
  cbn [length all_source_matches abn_only abn_acnc_matches acnc_nsw_matches
       acnc_only nsw_only incr_nsw_only].
  repeat split; lia.
Qed.


End merge_facts.

Section merge_scenarios.

Import Merge Props.

(** C6. Scenario A: one ABN record, one ACNC record with the same
    identifier and legal name X, one NSW record named X. The merge returns
    one canonical record, its provenance is abn, acnc, nsw, and
    [all_source_matches] is 1. *)
Theorem scenario_all_three_sources (clock : nat → string) :
  let out := merge_organization_records clock
               [record_of [("abn", "1")]]
               [record_of [("abn", "1"); ("legal_name", "X")]]
               [record_of [("name", "X")]] in
  length out.1 = 1
  ∧ map sources out.1 = [["abn"; "acnc"; "nsw"]]
  ∧ all_source_matches out.2 = 1
  ∧ merged_records out.2 = 1.
Proof. intros out. subst out. by vm_compute. Qed.

(** C1. Two ACNC records with the same identifier and no ABN record give two
    canonical records with that identifier, and two NSW records whose names
    normalize to the same string give two NSW-only canonical records: the
    second and the third loop consult the tracking sets and never add to
    them. *)
Theorem duplicate_identifiers_survive (clock : nat → string) :
  let acnc := record_of [("abn", "2")] in
  let by_id := (merge_organization_records clock [] [acnc; acnc] []).1 in
  let by_name := (merge_organization_records clock [] []
                    [record_of [("name", "X")]; record_of [("name", " x ")]]).1 in
  map (λ r, field r "abn") by_id = [VStr "2"; VStr "2"]
  ∧ ¬ identifier_unique by_id
  ∧ map sources by_name = [["nsw"]; ["nsw"]]
  ∧ map nsw_only_name by_name = [Some "X"; Some "X"]
  ∧ ¬ nsw_name_unique by_name.
Proof.
  intros acnc by_id by_name.
  assert (Hid : map (λ r, field r "abn") by_id = [VStr "2"; VStr "2"]) by by vm_compute.
  assert (Hnm : map nsw_only_name by_name = [Some "X"; Some "X"]) by by vm_compute.
  assert (Hsrc : map sources by_name = [["nsw"]; ["nsw"]]) by by vm_compute.
  clearbody by_id by_name.
  split; [exact Hid|]. split; [|split; [exact Hsrc|split; [exact Hnm|]]].
  - intros Huniq.
    destruct by_id as [|r1 [|r2 [|]]]; try discriminate Hid.
    injection Hid as H1 H2.
    assert (0 = 1) as Habs; [|discriminate Habs].
    apply (Huniq 0 1 r1 r2); [reflexivity | reflexivity | | ]; congruence.
  - intros Huniq.
    destruct by_name as [|r1 [|r2 [|]]]; try discriminate Hnm.
    injection Hnm as H1 H2.
    assert (0 = 1) as Habs; [|discriminate Habs].
    apply (Huniq 0 1 r1 r2 "X"); [reflexivity | reflexivity | exact H1 | exact H2].
Qed.

(** C2. Two ABN records matched by two ACNC records with the same legal
    name X both receive the fields of the one NSW record named X, and
    [acnc_nsw_matches] reaches 2: the first loop looks the name up in
    [nsw_by_name] without asking whether it is already in
    [processed_nsw_names], which holds X after the first record. *)
Theorem nsw_record_merged_twice (clock : nat → string) :
  let abn_records := [record_of [("abn", "1")]; record_of [("abn", "2")]] in
  let acnc_records := [record_of [("abn", "1"); ("legal_name", "X")];
                       record_of [("abn", "2"); ("legal_name", "X")]] in
  let nsw_records := [record_of [("name", "X"); ("organisation_number", "INC1")]] in
  let after_first := abn_pass clock (take 1 abn_records) acnc_records nsw_records in
  let out := merge_organization_records clock abn_records acnc_records nsw_records in
  "X" ∈ processed_nsw_names after_first
  ∧ map (λ r, (field r "abn", sources r, field r "nsw_organisation_number")) out.1
    = [ (VStr "1", ["abn"; "acnc"; "nsw"], VStr "INC1");
        (VStr "2", ["abn"; "acnc"; "nsw"], VStr "INC1") ]
  ∧ acnc_nsw_matches out.2 = 2
  ∧ all_source_matches out.2 = 2.
Proof.
  intros abn_records acnc_records nsw_records after_first out.
  split; [|by vm_compute].
  apply (bool_decide_unpack _). by vm_compute.
Qed.



End merge_scenarios.

Section output_facts.

Import Merge Output.

Context {str_methods : Strings}.

Lemma write_rows_head file rs row :
  head file = Some row → head (write_rows file rs).1 = Some row.
Proof.
  revert file. induction rs as [|r rs IH]; intros file Hhead; [done|].
  cbn [write_rows]. destruct (writerow r) as [cells|e]; [|done].
  apply IH. by destruct file.
Qed.

(** C8, amended. Whatever the records, and whether or not a row is refused,
    the first line written is the header, its columns are the sequence the
    specification lists, in that order, and there are 39 of them. *)
Theorem csv_header_columns merged_records filename :
  head (write_merged_records_to_csv merged_records filename).1 = Some fieldnames
  ∧ fieldnames = spec_columns
  ∧ length fieldnames = 39
  ∧ NoDup fieldnames.
Proof.
  split; [by apply write_rows_head|]. split; [reflexivity|]. split; [reflexivity|].
  apply (bool_decide_unpack _). by vm_compute.
Qed.

End output_facts.

Section output_examples.

Import Merge Output.

(** C8, as the claim counts the columns: the header of the export does not
    have 38 columns. *)
Lemma csv_header_is_not_38_columns :
  ¬ (∀ merged_records filename,
       ∃ header, head (write_merged_records_to_csv merged_records filename).1 = Some header
                 ∧ length header = 38
                 ∧ header = spec_columns).
Proof.
  intros H. destruct (H [] "merged_records.csv") as (header & Hhead & Hlen & _).
  cbn in Hhead. injection Hhead as <-. discriminate Hlen.
Qed.

End output_examples.

Section sync_facts.

Import Merge Sync.

Context {str_methods : Strings}.
Context {raw : Type}.
Context (nsw_extract : string → result raw).
Context (acnc_extract abn_extract : string → string → result raw).
Context (transform_nsw_assoc_data transform_acnc_data transform_abn_data :
           raw → result (list record)).
Context (as_completed : list future → list future).
Context (table_upsert : list merged_record → result json).
Context (clock : nat → string).
Context (processing_time : string).

Local Abbreviation extract_and_transform :=
  (extract_and_transform nsw_extract acnc_extract abn_extract
     transform_nsw_assoc_data transform_acnc_data transform_abn_data).
Local Abbreviation extract_data_for_postcode :=
  (extract_data_for_postcode nsw_extract acnc_extract abn_extract
     transform_nsw_assoc_data transform_acnc_data transform_abn_data).
Local Abbreviation submit :=
  (submit nsw_extract acnc_extract abn_extract
     transform_nsw_assoc_data transform_acnc_data transform_abn_data).
Local Abbreviation collect_results :=
  (collect_results nsw_extract acnc_extract abn_extract
     transform_nsw_assoc_data transform_acnc_data transform_abn_data as_completed).
Local Abbreviation batch_stats :=
  (batch_stats nsw_extract acnc_extract abn_extract
     transform_nsw_assoc_data transform_acnc_data transform_abn_data as_completed).
Local Abbreviation sync_all_sources :=
  (sync_all_sources nsw_extract acnc_extract abn_extract
     transform_nsw_assoc_data transform_acnc_data transform_abn_data
     as_completed table_upsert clock processing_time).

(** The task body returns what its [try] block returns, and the empty list
    when that block raises. *)
Lemma extract_data_for_postcode_returns source state postcode :
  extract_data_for_postcode source state postcode
  = Ok (match extract_and_transform source state postcode with
        | Ok records => records
        | Raise _ => []
        end).
Proof.
  unfold Sync.extract_data_for_postcode, try_except.
  by destruct (extract_and_transform source state postcode).
Qed.

Lemma extract_and_transform_unknown source state postcode :
  source ∉ ["nsw"; "acnc"; "abn"] →
  extract_and_transform source state postcode = Raise (ValueError "Invalid source").
Proof.
  intros Hsrc. unfold Sync.extract_and_transform.
  destruct (String.eqb_spec source "nsw") as [->|_]; [exfalso; apply Hsrc; repeat constructor|].
  destruct (String.eqb_spec source "acnc") as [->|_]; [exfalso; apply Hsrc; repeat constructor|].
  destruct (String.eqb_spec source "abn") as [->|_]; [exfalso; apply Hsrc; repeat constructor|].
  done.
Qed.

(** C10. Whatever the source, the state, the postcode and the behaviour of
    the extractors and transformers, [extract_data_for_postcode] returns: the
    records when extraction and transformation succeed, the empty list when
    either raises or when the source name is unknown. It never raises, so a
    failed job returns what a job that found nothing returns. *)
Theorem extract_data_for_postcode_never_raises source state postcode :
  extract_data_for_postcode source state postcode
  = Ok (match extract_and_transform source state postcode with
        | Ok records => records
        | Raise _ => []
        end)
  ∧ (∀ e, extract_data_for_postcode source state postcode ≠ Raise e)
  ∧ (∀ e, extract_and_transform source state postcode = Raise e →
          extract_data_for_postcode source state postcode = Ok [])
  ∧ (source ∉ ["nsw"; "acnc"; "abn"] →
       extract_and_transform source state postcode = Raise (ValueError "Invalid source")
       ∧ extract_data_for_postcode source state postcode = Ok []).
Proof.
  rewrite extract_data_for_postcode_returns.
  split; [done|]. split; [done|]. split; [by intros e ->|].
  intros Hsrc. by rewrite extract_and_transform_unknown.
Qed.

(** *** The route when no postcodes are registered *)

Lemma upper_ascii_idemp a : upper_ascii (upper_ascii a) = upper_ascii a.
Proof. destruct a as [[] [] [] [] [] [] [] []]; reflexivity. Qed.

Lemma upper_idemp s : upper (upper s) = upper s.
Proof. apply upper_upper. Qed.

Lemma cache_hit_set c k v k' :
  cache_hit (cache_set c k v) k'
  = if decide (k = k') then (if json_truthy v then Some v else None) else cache_hit c k'.
Proof.
  unfold cache_hit, cache_get, cache_set. rewrite lookup_insert.
  by destruct (decide (k = k')).
Qed.




Lemma load_postcodes_registered c state postcodes :
  load_postcodes_for_state c state = Ok postcodes →
  is_Some (cache_hit c ("postcodes:" +:+ upper state)).
Proof.
  unfold load_postcodes_for_state.
  destruct (cache_hit c ("postcodes:" +:+ upper state)); [eauto|done].
Qed.

(** The loader only ever raises [KeyError]. *)
Lemma load_postcodes_raises c state e :
  load_postcodes_for_state c state = Raise e → ∃ msg, e = KeyError msg.
Proof.
  unfold load_postcodes_for_state, try_except.
  match goal with |- context [match ?b with Ok _ => _ | Raise _ => _ end] =>
    destruct b end; [done|]. intros [= <-]. eauto.
Qed.





Lemma source_key_fresh source rest b :
  source ∈ ["nsw"; "acnc"; "abn"] →
  "sync_" +:+ source +:+ rest ≠ "sync_all_" +:+ b
  ∧ "sync_" +:+ source +:+ rest ≠ "postcodes:" +:+ b
  ∧ "sync_" +:+ source ≠ "sync_all_" +:+ b
  ∧ "sync_" +:+ source ≠ "postcodes:" +:+ b.
Proof.
  intros H. repeat (apply elem_of_cons in H as [->|H]);
    [| | |by apply elem_of_nil in H]; cbn; repeat split; discriminate.
Qed.

Lemma lookup_key_fresh abn_number b :
  "abn_lookup_" +:+ abn_number ≠ "sync_all_" +:+ b
  ∧ "abn_lookup_" +:+ abn_number ≠ "postcodes:" +:+ b.
Proof. cbn. split; discriminate. Qed.


End sync_facts.

Section reachable_stores.

Import Merge Sync.

Context {str_methods : Strings}.


End reachable_stores.

Section sync_route_facts.

Import Merge Sync.

Context {str_methods : Strings}.
Context {raw : Type}.
Context (nsw_extract : string → result raw).
Context (acnc_extract abn_extract : string → string → result raw).
Context (transform_nsw_assoc_data transform_acnc_data transform_abn_data :
           raw → result (list record)).
Context (as_completed : list future → list future).
Context (table_upsert : list merged_record → result json).
Context (clock : nat → string).
Context (processing_time : string).

Local Abbreviation extract_and_transform :=
  (extract_and_transform nsw_extract acnc_extract abn_extract
     transform_nsw_assoc_data transform_acnc_data transform_abn_data).
Local Abbreviation extract_data_for_postcode :=
  (extract_data_for_postcode nsw_extract acnc_extract abn_extract
     transform_nsw_assoc_data transform_acnc_data transform_abn_data).
Local Abbreviation submit :=
  (submit nsw_extract acnc_extract abn_extract
     transform_nsw_assoc_data transform_acnc_data transform_abn_data).
Local Abbreviation collect_results :=
  (collect_results nsw_extract acnc_extract abn_extract
     transform_nsw_assoc_data transform_acnc_data transform_abn_data as_completed).
Local Abbreviation batch_stats :=
  (batch_stats nsw_extract acnc_extract abn_extract
     transform_nsw_assoc_data transform_acnc_data transform_abn_data as_completed).
Local Abbreviation sync_all_sources :=
  (sync_all_sources nsw_extract acnc_extract abn_extract
     transform_nsw_assoc_data transform_acnc_data transform_abn_data
     as_completed table_upsert clock processing_time).


(** *** Failed extractions and the batch statistics *)

Lemma submit_results_ok state_upper postcodes f :
  f ∈ submit state_upper postcodes → ∃ records, f_result f = Ok records.
Proof.
  unfold Sync.submit. intros Hf.
  apply list_elem_of_bind in Hf as (postcode & Hf & _).
  apply list_elem_of_bind in Hf as (source & Hf & _).
  apply list_elem_of_singleton in Hf as ->. cbn [f_result].
  rewrite extract_data_for_postcode_returns. eauto.
Qed.

Lemma collect_step_keeps_failed futures acc :
  (∀ f, f ∈ futures → ∃ records, f_result f = Ok records) →
  failed_postcodes (pstats (foldl collect_step acc futures))
  = failed_postcodes (pstats acc).
Proof.
  revert acc. induction futures as [|f futures IH]; intros acc Hok; [done|].
  cbn [foldl]. rewrite IH by (intros; apply Hok; by right).
  destruct (Hok f) as [records Hf]; [by left|].
  unfold collect_step. rewrite Hf.
  by repeat (destruct (String.eqb _ _)).
Qed.

(** Whatever the extractors do and in whatever order the tasks complete,
    the list of failed postcodes of a batch is empty. *)
Lemma failed_postcodes_always_empty state_upper postcodes :
  (∀ futures, as_completed futures ⊆ futures) →
  failed_postcodes (batch_stats state_upper postcodes) = [].
Proof.
  intros Hsub. unfold Sync.batch_stats, Sync.collect_results. cbn [failed_postcodes].
  rewrite collect_step_keeps_failed; [done|].
  intros f Hf. eapply submit_results_ok, Hsub, Hf.
Qed.

End sync_route_facts.

Section sync_scenarios.

Import Merge Sync Props.

(** C3. Two postcodes, three sources, and the ABN extraction of postcode
    2000 raising: the route still answers 200 after merging the five
    non-empty results, the other postcode keeps its counts, both postcodes
    count as processed, but postcode 2000 is not in ['failed_postcodes'],
    which is empty: the failure was turned into an empty list inside the
    task, and the [except] branch of the collecting loop never runs. *)
Theorem failed_job_is_not_reported :
  let out := Scenario.sync_all Scenario.registered "nsw" in
  let stats :=
    batch_stats Scenario.nsw_extract Scenario.acnc_extract Scenario.abn_extract
      Scenario.transform Scenario.transform Scenario.transform Scenario.as_completed
      "NSW" ["2000"; "2001"] in
  extract_and_transform Scenario.nsw_extract Scenario.acnc_extract Scenario.abn_extract
    Scenario.transform Scenario.transform Scenario.transform "abn" "NSW" "2000"
  = Raise (OtherError "ABN lookup timed out")
  ∧ status_code (response out) = 200
  ∧ subscript (body (response out)) "postcode_stats" = Ok (json_of_postcode_stats stats)
  ∧ failed_postcodes stats = []
  ∧ processed_postcodes stats = 2
  ∧ by_postcode stats !! "2000"
    = Some {| n_abn := 0; n_acnc := 1; n_nsw := 1; n_total := 2 |}
  ∧ by_postcode stats !! "2001"
    = Some {| n_abn := 1; n_acnc := 1; n_nsw := 1; n_total := 3 |}
  ∧ trace out !! 6 = Some (Merged 1 2 2)
  ∧ subscript (body (response out)) "total_merged_records" = Ok (JNum 4).
Proof.
  intros out stats. split; [reflexivity|].
  split; [by vm_compute|]. split; [by vm_compute|]. split; [by vm_compute|].
  split; [by vm_compute|]. split; [by vm_compute|]. split; [by vm_compute|].
  split; by vm_compute.
Qed.


End sync_scenarios.

(** * Further properties of the code *)

Section merge_extras.
Import Merge Props Canon.
Context {str_methods : Strings}.
Context (clock : nat → string).
Local Arguments dict_of : simpl never.
Local Arguments update : simpl never.
Local Arguments append_source : simpl never.

Lemma lookup_append_source_ne (d : merged_record) s k :
  k ≠ "sources" → append_source d s !! k = d !! k.
Proof.
  intros Hk. unfold append_source. destruct (d !! "sources") as [[|xs]|]; try done.
  by rewrite lookup_insert_ne.
Qed.

Ltac lookup_canonical :=
  unfold identifier, field, sources, with_nsw, with_acnc, seed_abn, seed_acnc, seed_nsw, dict_of;
  repeat first [ rewrite lookup_append_source_ne by discriminate | rewrite update_lookup ];
  cbn [foldl app abn_fields abn_fields_empty acnc_fields nsw_fields acnc_fields_empty
       nsw_fields_empty metadata fst snd String.eqb Ascii.eqb Bool.eqb];
  rewrite ?lookup_empty.

(** *** The lookup dictionaries: the last record wins *)

Lemma last_cons_from_option {A} (x : A) l :
  last (x :: l) = Some (default x (last l)).
Proof. revert x. induction l as [|y l IH]; intros x; [done|]. cbn [last]. by rewrite IH. Qed.

Lemma keyed_fold_lookup (key : record → option string) (l : list record)
    (m : gmap string record) k :
  foldl (λ m r, match key r with Some x => <[x := r]> m | None => m end) m l !! k
  = match last (filter (λ r, key r = Some k) l) with
    | Some r => Some r
    | None => m !! k
    end.
Proof.
  revert m. induction l as [|r l IH]; intros m; [done|].
  cbn [foldl]. rewrite IH. rewrite filter_cons.
  destruct (key r) as [x|] eqn:Hkey.
  - destruct (decide (Some x = Some k)) as [[= ->]|Hne].
    + rewrite last_cons_from_option, lookup_insert_eq.
      by destruct (last (filter _ l)).
    + rewrite lookup_insert_ne by congruence. done.
  - destruct (decide (None = Some k)); done.
Qed.

Lemma by_name_keyed nsw_records :
  by_name nsw_records
  = foldl (λ m r, match clean <$> get_truthy r "name" with
                  | Some x => <[x := r]> m
                  | None => m
                  end) ∅ nsw_records.
Proof.
  unfold by_name. generalize (∅ : gmap string record).
  induction nsw_records as [|r l IH]; intros m; [done|].
  cbn [foldl]. rewrite IH. by destruct (get_truthy r "name").
Qed.

(** X1. Both lookup dictionaries bind a key to the last input record that
    carries it: the identifier for [by_abn], the normalized name for
    [by_name]. *)
Theorem lookups_keep_last_record (records : list record) (k : string) :
  by_abn records !! k = last (filter (λ r, get_truthy r "abn" = Some k) records)
  ∧ by_name records !! k
    = last (filter (λ r, clean <$> get_truthy r "name" = Some k) records).
Proof.
  split.
  - unfold by_abn. rewrite (keyed_fold_lookup (λ r, get_truthy r "abn")).
    by destruct (last _).
  - rewrite by_name_keyed.
    rewrite (keyed_fold_lookup (λ r, clean <$> get_truthy r "name")).
    by destruct (last _).
Qed.

Lemma by_abn_sound records k r :
  by_abn records !! k = Some r → r ∈ records ∧ get_truthy r "abn" = Some k.
Proof.
  unfold by_abn. rewrite (keyed_fold_lookup (λ r, get_truthy r "abn")), lookup_empty.
  destruct (last _) as [r'|] eqn:Hlast; [|done]. intros [= ->].
  apply last_Some_elem_of in Hlast. by apply list_elem_of_filter in Hlast as [? ?].
Qed.

Lemma by_name_sound records k r :
  by_name records !! k = Some r →
  r ∈ records ∧ ∃ name, get_truthy r "name" = Some name ∧ clean name = k.
Proof.
  rewrite by_name_keyed.
  rewrite (keyed_fold_lookup (λ r, clean <$> get_truthy r "name")), lookup_empty.
  destruct (last _) as [r'|] eqn:Hlast; [|done]. intros [= ->].
  apply last_Some_elem_of in Hlast. apply list_elem_of_filter in Hlast as [Hk ?].
  split; [done|]. destruct (get_truthy r "name") as [name|]; [|done].
  injection Hk as <-. eauto.
Qed.

Lemma by_name_complete records r name :
  r ∈ records → get_truthy r "name" = Some name →
  is_Some (by_name records !! clean name).
Proof.
  intros Hr Hname. rewrite by_name_keyed.
  rewrite (keyed_fold_lookup (λ r, clean <$> get_truthy r "name")), lookup_empty.
  destruct (last _) as [r'|] eqn:Hlast; [by eexists|].
  apply last_None in Hlast.
  assert (r ∈ filter (λ r, clean <$> get_truthy r "name" = Some (clean name)) records) as Hin.
  { apply list_elem_of_filter. split; [|done]. by rewrite Hname. }
  rewrite Hlast in Hin. by apply elem_of_nil in Hin.
Qed.

(** *** One iteration of each loop, record by record *)

Lemma abn_body_step acnc_by_abn nsw_by_name s a :
  let s' := abn_body clock acnc_by_abn nsw_by_name s a in
  match get_truthy a "abn" with
  | None => s' = s
  | Some k =>
      if decide (k ∈ processed_abns s) then s' = s
      else
        processed_abns s' = processed_abns s ∪ {[k]}
        ∧ let base := seed_abn a (clock (length (merged s))) in
          match acnc_by_abn !! k with
          | None =>
              merged s' = merged s ++ [base]
              ∧ processed_nsw_names s' = processed_nsw_names s
          | Some c =>
              match get_truthy c "legal_name" with
              | None =>
                  merged s' = merged s ++ [with_acnc base c]
                  ∧ processed_nsw_names s' = processed_nsw_names s
              | Some legal_name =>
                  match nsw_by_name !! clean legal_name with
                  | None =>
                      merged s' = merged s ++ [with_acnc base c]
                      ∧ processed_nsw_names s' = processed_nsw_names s
                  | Some n =>
                      merged s' = merged s ++ [with_nsw (with_acnc base c) n]
                      ∧ processed_nsw_names s'
                        = processed_nsw_names s ∪ {[clean legal_name]}
                  end
              end
          end
  end.
Proof.
  intros s'. subst s'. unfold abn_body.
  destruct (get_truthy a "abn") as [k|]; [|done].
  destruct (decide (k ∈ processed_abns s)) as [|_]; [done|].
  cbn zeta. destruct (acnc_by_abn !! k) as [c|]; [|by split].
  destruct (get_truthy c "legal_name") as [legal_name|]; [|by split].
  destruct (nsw_by_name !! clean legal_name) as [n|]; by split.
Qed.

Lemma acnc_body_step nsw_by_name s c :
  let s' := acnc_body clock nsw_by_name s c in
  processed_abns s' = processed_abns s
  ∧ match get_truthy c "abn" with
    | None => s' = s
    | Some k =>
        if decide (k ∈ processed_abns s) then s' = s
        else
          let base := seed_acnc k c (clock (length (merged s))) in
          match get_truthy c "legal_name" with
          | None =>
              merged s' = merged s ++ [base]
              ∧ processed_nsw_names s' = processed_nsw_names s
          | Some legal_name =>
              match nsw_by_name !! clean legal_name with
              | None =>
                  merged s' = merged s ++ [base]
                  ∧ processed_nsw_names s' = processed_nsw_names s
              | Some n =>
                  if decide (clean legal_name ∈ processed_nsw_names s)
                  then merged s' = merged s ++ [base]
                       ∧ processed_nsw_names s' = processed_nsw_names s
                  else merged s' = merged s ++ [with_nsw base n]
                       ∧ processed_nsw_names s'
                         = processed_nsw_names s ∪ {[clean legal_name]}
              end
          end
    end.
Proof.
  intros s'. subst s'. unfold acnc_body.
  destruct (get_truthy c "abn") as [k|]; [|done].
  destruct (decide (k ∈ processed_abns s)) as [|_]; [done|].
  cbn zeta. destruct (get_truthy c "legal_name") as [legal_name|]; [|by split].
  destruct (nsw_by_name !! clean legal_name) as [n|]; [|by split].
  destruct (decide (clean legal_name ∈ processed_nsw_names s)) as [|_]; by split.
Qed.

Lemma nsw_body_step s n :
  let s' := nsw_body clock s n in
  processed_abns s' = processed_abns s
  ∧ processed_nsw_names s' = processed_nsw_names s
  ∧ match get_truthy n "name" with
    | None => s' = s
    | Some name =>
        if decide (clean name ∈ processed_nsw_names s) then s' = s
        else merged s' = merged s ++ [seed_nsw n (clock (length (merged s)))]
    end.
Proof.
  intros s'. subst s'. unfold nsw_body.
  destruct (get_truthy n "name") as [name|]; [|done].
  cbn zeta. destruct (decide (clean name ∈ processed_nsw_names s)) as [|_]; done.
Qed.

(** *** Provenance and identifier of each shape *)

Lemma seed_abn_sources a now : seed_abn a now !! "sources" = Some (CList ["abn"]).
Proof.
  unfold seed_abn.
  rewrite !(assoc_L app _ _ (metadata _ _)). apply lookup_sources_seed.
Qed.

Lemma seed_acnc_sources k c now : seed_acnc k c now !! "sources" = Some (CList ["acnc"]).
Proof.
  unfold seed_acnc.
  rewrite !(assoc_L app _ _ (metadata _ _)). apply lookup_sources_seed.
Qed.

Lemma seed_nsw_sources n now : seed_nsw n now !! "sources" = Some (CList ["nsw"]).
Proof.
  unfold seed_nsw.
  rewrite !(assoc_L app _ _ (metadata _ _)). apply lookup_sources_seed.
Qed.

Lemma with_acnc_sources (d : merged_record) xs c :
  d !! "sources" = Some (CList xs) →
  with_acnc d c !! "sources" = Some (CList (xs ++ ["acnc"])).
Proof.
  intros Hd. apply lookup_sources_append.
  by rewrite update_lookup_notin by apply acnc_fields_keys.
Qed.

Lemma with_nsw_sources (d : merged_record) xs n :
  d !! "sources" = Some (CList xs) →
  with_nsw d n !! "sources" = Some (CList (xs ++ ["nsw"])).
Proof.
  intros Hd. apply lookup_sources_append.
  by rewrite update_lookup_notin by apply nsw_fields_keys.
Qed.

Lemma get_truthy_get (d : record) k s : get_truthy d k = Some s → get d k = VStr s.
Proof. intros H. by apply get_truthy_Some in H as [? _]. Qed.

(** The provenance of a canonical record is one of six lists; it tells
    whether the record has an identifier, and a record with NSW provenance
    carries the name of its NSW record. *)
Lemma canonical_provenance abn_records acnc_records nsw_records r :
  canonical abn_records acnc_records nsw_records r →
  (sources r = ["abn"] ∨ sources r = ["abn"; "acnc"] ∨ sources r = ["abn"; "acnc"; "nsw"]
   ∨ sources r = ["acnc"] ∨ sources r = ["acnc"; "nsw"] ∨ sources r = ["nsw"])
  ∧ (identifier r = None ↔ sources r = ["nsw"])
  ∧ (sources r = ["nsw"] → is_Some (nsw_only_name r)).
Proof.
  destruct 1 as [a k now _ Hk | a c k now _ Hk _ _ | a c n k ln nm now _ Hk _ _ _ _ Hnm _
                | c k now _ Hk | c n k ln nm now _ Hk _ _ Hnm _ | n nm now _ Hnm].
  - rewrite (sources_lookup _ _ (seed_abn_sources a now)).
    assert (identifier (seed_abn a now) = Some k) as ->
      by (lookup_canonical; by rewrite (get_truthy_get _ _ _ Hk)).
    split; [auto|]. split; [split; discriminate|discriminate].
  - rewrite (sources_lookup _ _ (with_acnc_sources _ _ c (seed_abn_sources a now))).
    assert (identifier (with_acnc (seed_abn a now) c) = Some k) as ->
      by (lookup_canonical; by rewrite (get_truthy_get _ _ _ Hk)).
    split; [auto|]. split; [split; discriminate|discriminate].
  - rewrite (sources_lookup _ _
               (with_nsw_sources _ _ n (with_acnc_sources _ _ c (seed_abn_sources a now)))).
    assert (identifier (with_nsw (with_acnc (seed_abn a now) c) n) = Some k) as ->
      by (lookup_canonical; by rewrite (get_truthy_get _ _ _ Hk)).
    split; [auto 10|]. split; [split; discriminate|discriminate].
  - rewrite (sources_lookup _ _ (seed_acnc_sources k c now)).
    assert (identifier (seed_acnc k c now) = Some k) as -> by (by lookup_canonical).
    split; [auto 10|]. split; [split; discriminate|discriminate].
  - rewrite (sources_lookup _ _ (with_nsw_sources _ _ n (seed_acnc_sources k c now))).
    assert (identifier (with_nsw (seed_acnc k c now) n) = Some k) as ->
      by (by lookup_canonical).
    split; [auto 10|]. split; [split; discriminate|discriminate].
  - assert (identifier (seed_nsw n now) = None) as -> by (by lookup_canonical).
    unfold nsw_only_name.
    rewrite (sources_lookup _ _ (seed_nsw_sources n now)).
    assert (field (seed_nsw n now) "nsw_name" = VStr nm) as ->
      by (lookup_canonical; by rewrite (get_truthy_get _ _ _ Hnm)).
    split; [auto 10|]. split; [done|]. by eexists.
Qed.

(** *** Every output record is canonical *)

Lemma foldl_invariant_in {S A} (P : S → Prop) (f : S → A → S) (l : list A) s :
  P s → (∀ s a, a ∈ l → P s → P (f s a)) → P (foldl f s l).
Proof.
  revert s. induction l as [|a l IH]; intros s Hs Hstep; [done|].
  cbn [foldl]. apply IH.
  - apply Hstep; [by left|done].
  - intros s' a' Ha'. apply Hstep. by right.
Qed.

Lemma names_covered_keep s s' r :
  merged s' = merged s ++ [r] →
  processed_nsw_names s' = processed_nsw_names s →
  names_covered s → names_covered s'.
Proof.
  intros Hm Hn Hcov c Hc. rewrite Hn in Hc.
  destruct (Hcov c Hc) as (r' & name & Hr' & ?). exists r', name.
  rewrite Hm. split; [|done]. apply elem_of_app. by left.
Qed.

Lemma names_covered_add s s' r name :
  merged s' = merged s ++ [r] →
  processed_nsw_names s' = processed_nsw_names s ∪ {[clean name]} →
  "nsw" ∈ sources r → field r "nsw_name" = VStr name →
  names_covered s → names_covered s'.
Proof.
  intros Hm Hn Hsrc Hfield Hcov c Hc. rewrite Hn in Hc. rewrite Hm.
  apply elem_of_union in Hc as [Hc|Hc].
  - destruct (Hcov c Hc) as (r' & name' & Hr' & ?). exists r', name'.
    split; [|done]. apply elem_of_app. by left.
  - apply elem_of_singleton in Hc as ->. exists r, name.
    split; [|done]. apply elem_of_app. right. by apply list_elem_of_singleton.
Qed.

Lemma with_nsw_name (d : merged_record) n name :
  get_truthy n "name" = Some name → field (with_nsw d n) "nsw_name" = VStr name.
Proof. intros Hn. lookup_canonical. by rewrite (get_truthy_get _ _ _ Hn). Qed.

Lemma with_nsw_provenance (d : merged_record) xs n :
  d !! "sources" = Some (CList xs) → "nsw" ∈ sources (with_nsw d n).
Proof.
  intros Hd. rewrite (sources_lookup _ _ (with_nsw_sources _ _ n Hd)).
  apply elem_of_app. right. by apply list_elem_of_singleton.
Qed.

Lemma abn_pass_canonical abn_records acnc_records nsw_records :
  let s := abn_pass clock abn_records acnc_records nsw_records in
  Forall (canonical abn_records acnc_records nsw_records) (merged s) ∧ names_covered s.
Proof.
  unfold abn_pass. apply foldl_invariant_in.
  { split; [by apply Forall_nil|]. intros c Hc. by apply not_elem_of_empty in Hc. }
  intros s a Ha [Hcan Hcov].
  pose proof (abn_body_step (by_abn acnc_records) (by_name nsw_records) s a) as Hstep.
  cbn zeta in Hstep.
  destruct (get_truthy a "abn") as [k|] eqn:Hk; [|by rewrite Hstep].
  destruct (decide (k ∈ processed_abns s)) as [|_]; [by rewrite Hstep|].
  destruct Hstep as [_ Hstep].
  destruct (by_abn acnc_records !! k) as [c|] eqn:Hc.
  - apply by_abn_sound in Hc as [Hc Hck].
    assert (canonical abn_records acnc_records nsw_records
              (with_acnc (seed_abn a (clock (length (merged s)))) c)) as Hwith
      by (by eapply canonical_abn_acnc).
    destruct (get_truthy c "legal_name") as [legal_name|] eqn:Hln.
    + destruct (by_name nsw_records !! clean legal_name) as [n|] eqn:Hn.
      * apply by_name_sound in Hn as (Hn & name & Hname & Hclean).
        destruct Hstep as [Hm Hnames]. rewrite <- Hclean in Hnames. split.
        -- rewrite Hm. apply Forall_app. split; [done|]. apply Forall_singleton.
           by eapply canonical_abn_acnc_nsw.
        -- eapply names_covered_add; [done|done| |by apply with_nsw_name|done].
           eapply with_nsw_provenance, with_acnc_sources, seed_abn_sources.
      * destruct Hstep as [Hm Hnames]. split; [|by eapply names_covered_keep].
        rewrite Hm. apply Forall_app. split; [done|]. by apply Forall_singleton.
    + destruct Hstep as [Hm Hnames]. split; [|by eapply names_covered_keep].
      rewrite Hm. apply Forall_app. split; [done|]. by apply Forall_singleton.
  - destruct Hstep as [Hm Hnames]. split; [|by eapply names_covered_keep].
    rewrite Hm. apply Forall_app. split; [done|]. apply Forall_singleton.
    by eapply canonical_abn.
Qed.

Lemma acnc_pass_canonical abn_records acnc_records nsw_records :
  let s := acnc_pass clock abn_records acnc_records nsw_records in
  Forall (canonical abn_records acnc_records nsw_records) (merged s) ∧ names_covered s.
Proof.
  unfold acnc_pass. apply foldl_invariant_in; [apply abn_pass_canonical|].
  intros s c Hc [Hcan Hcov].
  pose proof (acnc_body_step (by_name nsw_records) s c) as [_ Hstep].
  cbn zeta in Hstep.
  destruct (get_truthy c "abn") as [k|] eqn:Hk; [|by rewrite Hstep].
  destruct (decide (k ∈ processed_abns s)) as [|_]; [by rewrite Hstep|].
  assert (canonical abn_records acnc_records nsw_records
            (seed_acnc k c (clock (length (merged s))))) as Hseed
    by (by eapply canonical_acnc).
  assert (∀ s', merged s' = merged s ++ [seed_acnc k c (clock (length (merged s)))]
                ∧ processed_nsw_names s' = processed_nsw_names s →
                Forall (canonical abn_records acnc_records nsw_records) (merged s')
                ∧ names_covered s') as Hkeep.
  { intros s' [Hm Hnames]. split; [|by eapply names_covered_keep].
    rewrite Hm. apply Forall_app. split; [done|]. by apply Forall_singleton. }
  destruct (get_truthy c "legal_name") as [legal_name|] eqn:Hln; [|by apply Hkeep].
  destruct (by_name nsw_records !! clean legal_name) as [n|] eqn:Hn; [|by apply Hkeep].
  destruct (decide (clean legal_name ∈ processed_nsw_names s)) as [|_]; [by apply Hkeep|].
  apply by_name_sound in Hn as (Hn & name & Hname & Hclean).
  destruct Hstep as [Hm Hnames]. rewrite <- Hclean in Hnames. split.
  - rewrite Hm. apply Forall_app. split; [done|]. apply Forall_singleton.
    by eapply canonical_acnc_nsw.
  - eapply names_covered_add; [done|done| |by apply with_nsw_name|done].
    eapply with_nsw_provenance, seed_acnc_sources.
Qed.

Lemma nsw_pass_canonical abn_records acnc_records nsw_records :
  let s := nsw_pass clock abn_records acnc_records nsw_records in
  Forall (canonical abn_records acnc_records nsw_records) (merged s) ∧ names_covered s.
Proof.
  unfold nsw_pass. apply foldl_invariant_in; [apply acnc_pass_canonical|].
  intros s n Hn [Hcan Hcov].
  pose proof (nsw_body_step s n) as (_ & Hnames & Hstep). cbn zeta in Hstep.
  destruct (get_truthy n "name") as [name|] eqn:Hname; [|by rewrite Hstep].
  destruct (decide (clean name ∈ processed_nsw_names s)) as [|_]; [by rewrite Hstep|].
  split; [|by eapply names_covered_keep].
  rewrite Hstep. apply Forall_app. split; [done|]. apply Forall_singleton.
  by eapply canonical_nsw.
Qed.

(** *** The identifiers of the output *)

Lemma fromkeys_step_elem_of (acc l : list string) x :
  x ∈ foldl (λ acc x, if decide (x ∈ acc) then acc else acc ++ [x]) acc l
  ↔ x ∈ acc ∨ x ∈ l.
Proof.
  revert acc. induction l as [|y l IH]; intros acc; cbn [foldl].
  - rewrite elem_of_nil. tauto.
  - rewrite IH, elem_of_cons. destruct (decide (y ∈ acc)) as [Hy|Hy].
    + split; [tauto|]. intros [?|[->|?]]; auto.
    + rewrite elem_of_app, list_elem_of_singleton. tauto.
Qed.

Lemma fromkeys_step_NoDup (acc l : list string) :
  NoDup acc →
  NoDup (foldl (λ acc x, if decide (x ∈ acc) then acc else acc ++ [x]) acc l).
Proof.
  revert acc. induction l as [|y l IH]; intros acc Hacc; cbn [foldl]; [done|].
  apply IH. destruct (decide (y ∈ acc)) as [Hy|Hy]; [done|].
  apply NoDup_app. split; [done|]. split; [|apply NoDup_singleton].
  intros x Hx ->%list_elem_of_singleton. done.
Qed.

Lemma identifier_seed_abn a k now :
  get_truthy a "abn" = Some k → identifier (seed_abn a now) = Some k.
Proof. intros Hk. lookup_canonical. by rewrite (get_truthy_get _ _ _ Hk). Qed.

Lemma identifier_seed_acnc k c now : identifier (seed_acnc k c now) = Some k.
Proof. by lookup_canonical. Qed.

Lemma identifier_seed_nsw n now : identifier (seed_nsw n now) = None.
Proof. by lookup_canonical. Qed.

Lemma identifier_with_acnc (d : merged_record) c : identifier (with_acnc d c) = identifier d.
Proof. by lookup_canonical. Qed.

Lemma identifier_with_nsw (d : merged_record) n : identifier (with_nsw d n) = identifier d.
Proof. by lookup_canonical. Qed.

Lemma abn_fold_identifiers acnc_by_abn nsw_by_name l s :
  processed_abns s = list_to_set (omap identifier (merged s)) →
  let s' := foldl (abn_body clock acnc_by_abn nsw_by_name) s l in
  omap identifier (merged s')
  = foldl (λ acc x, if decide (x ∈ acc) then acc else acc ++ [x])
          (omap identifier (merged s)) (truthy_values "abn" l)
  ∧ processed_abns s' = list_to_set (omap identifier (merged s')).
Proof.
  revert s. induction l as [|a l IH]; intros s Hs; [done|].
  cbn [foldl]. unfold truthy_values. cbn [omap list_omap]. fold (truthy_values "abn" l).
  pose proof (abn_body_step acnc_by_abn nsw_by_name s a) as Hstep. cbn zeta in Hstep.
  destruct (get_truthy a "abn") as [k|] eqn:Hk; [|rewrite Hstep; by apply IH].
  cbn [foldl].
  destruct (decide (k ∈ processed_abns s)) as [Hin|Hout].
  { rewrite Hstep. rewrite decide_True by (by rewrite Hs, elem_of_list_to_set in Hin).
    by apply IH. }
  rewrite decide_False by (by rewrite Hs, elem_of_list_to_set in Hout).
  destruct Hstep as [Habns Hstep].
  assert (omap identifier (merged (abn_body clock acnc_by_abn nsw_by_name s a))
          = omap identifier (merged s) ++ [k]) as Hids.
  { pose proof (identifier_seed_abn a k (clock (length (merged s))) Hk) as Hseed.
    destruct (acnc_by_abn !! k) as [c|];
      [destruct (get_truthy c "legal_name") as [legal_name|];
       [destruct (nsw_by_name !! clean legal_name) as [n|]|]|];
      destruct Hstep as [-> _]; rewrite omap_app; cbn [omap list_omap];
      rewrite ?identifier_with_nsw, ?identifier_with_acnc, Hseed; done. }
  rewrite <- Hids. apply IH.
  rewrite Habns, Hids, Hs, list_to_set_app_L. cbn. by rewrite (right_id_L ∅ (∪)).
Qed.

Lemma acnc_fold_identifiers nsw_by_name l s :
  let s' := foldl (acnc_body clock nsw_by_name) s l in
  omap identifier (merged s')
  = omap identifier (merged s)
    ++ filter (λ k, k ∉ processed_abns s) (truthy_values "abn" l)
  ∧ processed_abns s' = processed_abns s.
Proof.
  revert s. induction l as [|c l IH]; intros s.
  { cbn. by rewrite app_nil_r. }
  cbn [foldl]. unfold truthy_values. cbn [omap list_omap]. fold (truthy_values "abn" l).
  pose proof (acnc_body_step nsw_by_name s c) as [Habns Hstep]. cbn zeta in Hstep.
  destruct (IH (acnc_body clock nsw_by_name s c)) as [IHids IHabns].
  cbn zeta. rewrite IHids, IHabns, Habns. split; [|done]. clear IH IHids IHabns.
  destruct (get_truthy c "abn") as [k|] eqn:Hk; [|by rewrite Hstep].
  rewrite filter_cons.
  destruct (decide (k ∈ processed_abns s)) as [Hin|Hout].
  { rewrite Hstep. by rewrite decide_False by auto. }
  rewrite decide_True by done.
  assert (omap identifier (merged (acnc_body clock nsw_by_name s c))
          = omap identifier (merged s) ++ [k]) as ->; [|by rewrite <- (assoc_L app)].
  pose proof (identifier_seed_acnc k c (clock (length (merged s)))) as Hseed.
  destruct (get_truthy c "legal_name") as [legal_name|];
    [destruct (nsw_by_name !! clean legal_name) as [n|];
     [destruct (decide (clean legal_name ∈ processed_nsw_names s))|]|];
    destruct Hstep as [-> _]; rewrite omap_app; cbn [omap list_omap];
    rewrite ?identifier_with_nsw, Hseed; done.
Qed.

Lemma nsw_fold_identifiers l s :
  omap identifier (merged (foldl (nsw_body clock) s l)) = omap identifier (merged s).
Proof.
  revert s. induction l as [|n l IH]; intros s; [done|].
  cbn [foldl]. rewrite IH.
  pose proof (nsw_body_step s n) as (_ & _ & Hstep). cbn zeta in Hstep.
  destruct (get_truthy n "name") as [name|]; [|by rewrite Hstep].
  destruct (decide (clean name ∈ processed_nsw_names s)); [by rewrite Hstep|].
  rewrite Hstep, omap_app. cbn [omap list_omap].
  by rewrite identifier_seed_nsw, app_nil_r.
Qed.

(** The identifiers carried by the output of a merge, in order. *)
Lemma merge_identifiers abn_records acnc_records nsw_records :
  omap identifier (merge_organization_records clock abn_records acnc_records nsw_records).1
  = fromkeys (truthy_values "abn" abn_records)
    ++ filter (λ k, k ∉ truthy_values "abn" abn_records)
              (truthy_values "abn" acnc_records).
Proof.
  unfold merge_organization_records. cbn [fst].
  unfold nsw_pass. rewrite nsw_fold_identifiers.
  unfold acnc_pass.
  destruct (acnc_fold_identifiers (by_name nsw_records) acnc_records
              (abn_pass clock abn_records acnc_records nsw_records)) as [-> _].
  unfold abn_pass.
  destruct (abn_fold_identifiers (by_abn acnc_records) (by_name nsw_records) abn_records
              (initial_state abn_records acnc_records nsw_records)) as [Hids Habns];
    [done|].
  cbn zeta in Hids, Habns. rewrite Hids. cbn [initial_state merged omap list_omap].
  f_equal. apply list_filter_iff. intros k.
  rewrite Habns, Hids, elem_of_list_to_set, fromkeys_step_elem_of.
  cbn [initial_state merged omap list_omap]. rewrite elem_of_nil. tauto.
Qed.

(** X2. The identifiers of the output, in order: the distinct identifiers of
    the ABN records in order of first occurrence, then the identifiers of
    the ACNC records that no ABN record carries, once per such record. *)
Theorem output_identifiers abn_records acnc_records nsw_records :
  omap identifier (merge_organization_records clock abn_records acnc_records nsw_records).1
  = fromkeys (truthy_values "abn" abn_records)
    ++ filter (λ k, k ∉ truthy_values "abn" abn_records)
              (truthy_values "abn" acnc_records).
Proof. apply merge_identifiers. Qed.

(** *** Uniqueness, as a condition on the inputs *)

Lemma NoDup_omap_index {A B} (f : A → option B) (l : list A) :
  NoDup (omap f l)
  ↔ ∀ i j a b y, l !! i = Some a → l !! j = Some b →
                 f a = Some y → f b = Some y → i = j.
Proof.
  induction l as [|x l IH].
  { split; [intros _ i j a b y Hi; by rewrite lookup_nil in Hi|intros _; apply NoDup_nil_2]. }
  destruct IH as [IH1 IH2]. cbn [omap list_omap]. split.
  - intros Hnd [|i] [|j] a b y Hi Hj Ha Hb; cbn in Hi, Hj; simplify_eq.
    + done.
    + rewrite Ha in Hnd. apply NoDup_cons in Hnd as [Hnotin _].
      destruct Hnotin. apply list_elem_of_omap. exists b.
      split; [by eapply list_elem_of_lookup_2|done].
    + rewrite Hb in Hnd. apply NoDup_cons in Hnd as [Hnotin _].
      destruct Hnotin. apply list_elem_of_omap. exists a.
      split; [by eapply list_elem_of_lookup_2|done].
    + f_equal. assert (NoDup (omap f l)) as Hl
        by (destruct (f x); [by apply NoDup_cons in Hnd as [_ ?]|done]).
      by apply (IH1 Hl i j a b y).
  - intros Huniq.
    assert (NoDup (omap f l)) as Hl.
    { apply IH2. intros i j a b y Hi Hj Ha Hb.
      assert (S i = S j) as [= ->]; [|done]. by apply (Huniq (S i) (S j) a b y). }
    destruct (f x) as [y|] eqn:Hx; [|done].
    apply NoDup_cons. split; [|done].
    intros (b & Hb & Hfb)%list_elem_of_omap.
    apply list_elem_of_lookup_1 in Hb as [j Hj].
    by specialize (Huniq 0 (S j) x b y eq_refl Hj Hx Hfb).
Qed.

Lemma identifier_unique_NoDup (records : list merged_record) :
  identifier_unique records ↔ NoDup (omap identifier records).
Proof.
  rewrite NoDup_omap_index. unfold identifier_unique, identifier. split.
  - intros H i j a b y Hi Hj Ha Hb. apply (H i j a b Hi Hj).
    + by destruct (field a "abn").
    + destruct (field a "abn"), (field b "abn"); congruence.
  - intros H i j r1 r2 Hi Hj Hne Heq.
    destruct (field r1 "abn") as [|y] eqn:H1; [done|].
    apply (H i j r1 r2 y Hi Hj); [by rewrite H1|by rewrite <- Heq].
Qed.

Lemma nsw_name_unique_NoDup (records : list merged_record) :
  nsw_name_unique records ↔ NoDup (omap nsw_only_name records).
Proof. by rewrite NoDup_omap_index. Qed.

(** X3. No two canonical records share an identifier exactly when the ACNC
    records whose identifier no ABN record carries have pairwise distinct
    identifiers. Repetitions among the ABN records, and ACNC records that
    repeat an identifier of an ABN record, never break uniqueness. *)
Theorem identifier_unique_iff abn_records acnc_records nsw_records :
  identifier_unique
    (merge_organization_records clock abn_records acnc_records nsw_records).1
  ↔ NoDup (filter (λ k, k ∉ truthy_values "abn" abn_records)
                  (truthy_values "abn" acnc_records)).
Proof.
  rewrite identifier_unique_NoDup, merge_identifiers, NoDup_app.
  split; [by intros (_ & _ & ?)|]. intros Hnd.
  split; [by apply fromkeys_step_NoDup, NoDup_nil_2|]. split; [|done].
  intros k Hk (Hnot & _)%list_elem_of_filter. apply Hnot.
  apply fromkeys_step_elem_of in Hk as [Hk|Hk]; [by apply elem_of_nil in Hk|done].
Qed.

(** *** The NSW-only records *)

Lemma nsw_only_name_seed_nsw n name now :
  get_truthy n "name" = Some name → nsw_only_name (seed_nsw n now) = Some (clean name).
Proof.
  intros Hn. unfold nsw_only_name.
  rewrite (sources_lookup _ _ (seed_nsw_sources n now)).
  assert (field (seed_nsw n now) "nsw_name" = VStr name) as ->; [|done].
  lookup_canonical. by rewrite (get_truthy_get _ _ _ Hn).
Qed.

Lemma nsw_only_name_Some r c :
  nsw_only_name r = Some c →
  sources r = ["nsw"] ∧ ∃ name, field r "nsw_name" = VStr name ∧ c = clean name.
Proof.
  unfold nsw_only_name.
  destruct (sources r) as [|x rest]; [done|].
  destruct x as [|a x]; [done|].
  destruct a as [[] [] [] [] [] [] [] []]; try done.
  destruct x as [|a x]; [done|].
  destruct a as [[] [] [] [] [] [] [] []]; try done.
  destruct x as [|a x]; [done|].
  destruct a as [[] [] [] [] [] [] [] []]; try done.
  destruct x as [|a x]; [|done].
  destruct rest as [|y rest]; [|done].
  destruct (field r "nsw_name") as [|name]; [done|].
  intros [= <-]. eauto.
Qed.

Lemma nsw_only_name_seeded source r :
  source ≠ "nsw" → seeded source r → nsw_only_name r = None.
Proof.
  unfold seeded. intros Hne Hhead.
  destruct (nsw_only_name r) as [c|] eqn:Hname; [|done].
  apply nsw_only_name_Some in Hname as [Hsrc _]. rewrite Hsrc in Hhead.
  by injection Hhead as <-.
Qed.

Lemma nsw_fold_names l s :
  omap nsw_only_name (merged (foldl (nsw_body clock) s l))
  = omap nsw_only_name (merged s)
    ++ filter (λ c, c ∉ processed_nsw_names s) (clean <$> truthy_values "name" l).
Proof.
  revert s. induction l as [|n l IH]; intros s.
  { cbn. by rewrite app_nil_r. }
  cbn [foldl]. rewrite IH. unfold truthy_values. cbn [omap list_omap].
  fold (truthy_values "name" l).
  pose proof (nsw_body_step s n) as (_ & -> & Hstep). cbn zeta in Hstep.
  destruct (get_truthy n "name") as [name|] eqn:Hname; [|by rewrite Hstep].
  rewrite fmap_cons, filter_cons.
  destruct (decide (clean name ∈ processed_nsw_names s)) as [Hin|Hout].
  { rewrite Hstep. by rewrite decide_False by auto. }
  rewrite decide_True by done. rewrite Hstep, omap_app. cbn [omap list_omap].
  rewrite (nsw_only_name_seed_nsw _ _ _ Hname). by rewrite <- (assoc_L app).
Qed.

Lemma nsw_only_names abn_records acnc_records nsw_records :
  omap nsw_only_name
    (merge_organization_records clock abn_records acnc_records nsw_records).1
  = filter (λ c, c ∉ processed_nsw_names
                       (acnc_pass clock abn_records acnc_records nsw_records))
           (clean <$> truthy_values "name" nsw_records).
Proof.
  unfold merge_organization_records. cbn [fst]. unfold nsw_pass.
  rewrite nsw_fold_names.
  destruct (abn_pass_invariant clock abn_records acnc_records nsw_records) as [Hs1 _].
  destruct (acnc_pass_invariant clock abn_records acnc_records nsw_records)
    as (l2 & -> & Hs2 & _).
  assert (omap nsw_only_name
            (merged (abn_pass clock abn_records acnc_records nsw_records) ++ l2) = [])
    as ->; [|done].
  rewrite omap_app.
  assert (∀ source l, source ≠ "nsw" → Forall (seeded source) l →
                      omap nsw_only_name l = []) as Hnone.
  { intros source l Hne. induction 1 as [|r l Hr _ IH]; [done|].
    cbn [omap list_omap]. by rewrite (nsw_only_name_seeded source r Hne Hr). }
  by rewrite (Hnone "abn" _ ltac:(discriminate) Hs1),
             (Hnone "acnc" _ ltac:(discriminate) Hs2).
Qed.

(** X4. When the named NSW records have pairwise distinct normalized names,
    no two NSW-only canonical records share a normalized name. *)
Theorem nsw_name_unique_if_distinct abn_records acnc_records nsw_records :
  NoDup (clean <$> truthy_values "name" nsw_records) →
  nsw_name_unique
    (merge_organization_records clock abn_records acnc_records nsw_records).1.
Proof.
  intros Hnd. rewrite nsw_name_unique_NoDup, nsw_only_names. by apply NoDup_filter.
Qed.

Lemma nsw_fold_complete l s n name :
  n ∈ l → get_truthy n "name" = Some name →
  clean name ∉ processed_nsw_names s →
  ∃ now, seed_nsw n now ∈ merged (foldl (nsw_body clock) s l).
Proof.
  assert (∀ l s r, r ∈ merged s → r ∈ merged (foldl (nsw_body clock) s l)) as Hmono.
  { clear. intros l. induction l as [|n l IH]; intros s r Hr; [done|].
    cbn [foldl]. apply IH.
    pose proof (nsw_body_step s n) as (_ & _ & Hstep). cbn zeta in Hstep.
    destruct (get_truthy n "name") as [name|]; [|by rewrite Hstep].
    destruct (decide (clean name ∈ processed_nsw_names s)); [by rewrite Hstep|].
    rewrite Hstep. apply elem_of_app. by left. }
  revert s. induction l as [|n' l IH]; intros s Hn Hname Hout.
  { by apply elem_of_nil in Hn. }
  cbn [foldl]. pose proof (nsw_body_step s n') as (_ & Hnames & Hstep).
  cbn zeta in Hstep. apply elem_of_cons in Hn as [->|Hn].
  - rewrite Hname in Hstep. rewrite decide_False in Hstep by done.
    exists (clock (length (merged s))). apply Hmono. rewrite Hstep.
    apply elem_of_app. right. by apply list_elem_of_singleton.
  - apply IH; [done|done|by rewrite Hnames].
Qed.

(** X5. No named NSW record is lost: for each one the output holds a record
    with NSW provenance whose NSW name normalizes to the same string. *)
Theorem nsw_records_represented abn_records acnc_records nsw_records n name :
  n ∈ nsw_records →
  get_truthy n "name" = Some name →
  ∃ r name',
    r ∈ (merge_organization_records clock abn_records acnc_records nsw_records).1
    ∧ "nsw" ∈ sources r
    ∧ field r "nsw_name" = VStr name'
    ∧ clean name' = clean name.
Proof.
  intros Hn Hname. unfold merge_organization_records. cbn [fst].
  destruct (decide (clean name ∈ processed_nsw_names
                      (acnc_pass clock abn_records acnc_records nsw_records)))
    as [Hin|Hout].
  - destruct (acnc_pass_canonical abn_records acnc_records nsw_records) as [_ Hcov].
    destruct (Hcov _ Hin) as (r & name' & Hr & Hsrc & Hfield & Hclean).
    exists r, name'. split; [|done].
    destruct (nsw_pass_invariant clock abn_records acnc_records nsw_records)
      as (l3 & -> & _).
    apply elem_of_app. by left.
  - destruct (nsw_fold_complete nsw_records _ n name Hn Hname Hout) as [now Hr].
    exists (seed_nsw n now), name. split; [done|]. split; [|split; [|done]].
    + rewrite (sources_lookup _ _ (seed_nsw_sources n now)).
      by apply list_elem_of_singleton.
    + lookup_canonical. by rewrite (get_truthy_get _ _ _ Hname).
Qed.

(** *** What the output records are made of *)

(** X6. Every record of the output is built from input records: an ABN
    record, the ACNC record with the same identifier, and the NSW record
    whose normalized name is the normalized legal name of that ACNC
    record, as far as its provenance goes. *)
Theorem merge_output_canonical abn_records acnc_records nsw_records :
  Forall (canonical abn_records acnc_records nsw_records)
    (merge_organization_records clock abn_records acnc_records nsw_records).1.
Proof. apply nsw_pass_canonical. Qed.

Ltac each_key Hk tac :=
  cbn [fmap list_fmap fst abn_fields_empty acnc_fields_empty nsw_fields_empty] in Hk;
  repeat (apply elem_of_cons in Hk as [->|Hk]; [tac|]);
  by apply elem_of_nil in Hk.

Ltac no_member H :=
  repeat (apply elem_of_cons in H as [H|H]; [discriminate H|]);
  by apply elem_of_nil in H.

Lemma canonical_blank_fields abn_records acnc_records nsw_records r :
  canonical abn_records acnc_records nsw_records r →
  ("abn" ∉ sources r →
     ∀ k, k ∈ (abn_fields_empty VNone).*1 → k ≠ "abn" → field r k = VNone)
  ∧ ("acnc" ∉ sources r → ∀ k, k ∈ acnc_fields_empty.*1 → field r k = VNone)
  ∧ ("nsw" ∉ sources r → ∀ k, k ∈ nsw_fields_empty.*1 → field r k = VNone).
Proof.
  destruct 1 as [a k now _ Hk | a c k now _ Hk _ _ | a c n k ln nm now _ Hk _ _ _ _ Hnm _
                | c k now _ Hk | c n k ln nm now _ Hk _ _ Hnm _ | n nm now _ Hnm].
  - rewrite (sources_lookup _ _ (seed_abn_sources a now)).
    split; [intros H; destruct H; by repeat constructor|].
    split; intros _ key Hkey; each_key Hkey ltac:(by lookup_canonical).
  - rewrite (sources_lookup _ _ (with_acnc_sources _ _ c (seed_abn_sources a now))).
    split; [intros H; destruct H; by repeat constructor|].
    split; [intros H; destruct H; by repeat constructor|].
    intros _ key Hkey; each_key Hkey ltac:(by lookup_canonical).
  - rewrite (sources_lookup _ _
               (with_nsw_sources _ _ n (with_acnc_sources _ _ c (seed_abn_sources a now)))).
    split; [intros H; destruct H; by repeat constructor|].
    split; intros H; destruct H; by repeat constructor.
  - rewrite (sources_lookup _ _ (seed_acnc_sources k c now)).
    split; [intros _ key Hkey Hne; each_key Hkey ltac:(by lookup_canonical)|].
    split; [intros H; destruct H; by repeat constructor|].
    intros _ key Hkey; each_key Hkey ltac:(by lookup_canonical).
  - rewrite (sources_lookup _ _ (with_nsw_sources _ _ n (seed_acnc_sources k c now))).
    split; [intros _ key Hkey Hne; each_key Hkey ltac:(by lookup_canonical)|].
    split; intros H; destruct H; by repeat constructor.
  - rewrite (sources_lookup _ _ (seed_nsw_sources n now)).
    split; [intros _ key Hkey Hne; each_key Hkey ltac:(by lookup_canonical)|].
    split; [intros _ key Hkey; each_key Hkey ltac:(by lookup_canonical)|].
    intros H; destruct H; by repeat constructor.
Qed.

Lemma canonical_names_agree abn_records acnc_records nsw_records r :
  canonical abn_records acnc_records nsw_records r →
  "acnc" ∈ sources r → "nsw" ∈ sources r →
  ∃ legal_name name,
    field r "legal_name" = VStr legal_name
    ∧ field r "nsw_name" = VStr name
    ∧ clean name = clean legal_name.
Proof.
  destruct 1 as [a k now _ Hk | a c k now _ Hk _ _
                | a c n k ln nm now _ Hk _ _ Hln _ Hnm Hclean
                | c k now _ Hk | c n k ln nm now _ Hk Hln _ Hnm Hclean | n nm now _ Hnm].
  - rewrite (sources_lookup _ _ (seed_abn_sources a now)). intros H. no_member H.
  - rewrite (sources_lookup _ _ (with_acnc_sources _ _ c (seed_abn_sources a now))).
    intros _ H. no_member H.
  - intros _ _. exists ln, nm. split; [|split; [|done]].
    + lookup_canonical. by rewrite (get_truthy_get _ _ _ Hln).
    + lookup_canonical. by rewrite (get_truthy_get _ _ _ Hnm).
  - rewrite (sources_lookup _ _ (seed_acnc_sources k c now)). intros _ H. no_member H.
  - intros _ _. exists ln, nm. split; [|split; [|done]].
    + lookup_canonical. by rewrite (get_truthy_get _ _ _ Hln).
    + lookup_canonical. by rewrite (get_truthy_get _ _ _ Hnm).
  - rewrite (sources_lookup _ _ (seed_nsw_sources n now)). intros H. no_member H.
Qed.

(** X7. In every record of the output the provenance is one of six lists
    and tells which fields are filled: the record has no identifier exactly
    when its provenance is NSW alone, and the fields of a source that is
    not in the provenance are all [None]. *)
Theorem provenance_tells_fields abn_records acnc_records nsw_records r :
  r ∈ (merge_organization_records clock abn_records acnc_records nsw_records).1 →
  (sources r = ["abn"] ∨ sources r = ["abn"; "acnc"] ∨ sources r = ["abn"; "acnc"; "nsw"]
   ∨ sources r = ["acnc"] ∨ sources r = ["acnc"; "nsw"] ∨ sources r = ["nsw"])
  ∧ (identifier r = None ↔ sources r = ["nsw"])
  ∧ ("abn" ∉ sources r →
       ∀ k, k ∈ (abn_fields_empty VNone).*1 → k ≠ "abn" → field r k = VNone)
  ∧ ("acnc" ∉ sources r → ∀ k, k ∈ acnc_fields_empty.*1 → field r k = VNone)
  ∧ ("nsw" ∉ sources r → ∀ k, k ∈ nsw_fields_empty.*1 → field r k = VNone).
Proof.
  intros Hr.
  pose proof (nsw_pass_canonical abn_records acnc_records nsw_records) as [Hcan _].
  rewrite Forall_forall in Hcan. specialize (Hcan r Hr).
  destruct (canonical_provenance _ _ _ _ Hcan) as (? & ? & _).
  destruct (canonical_blank_fields _ _ _ _ Hcan) as (? & ? & ?). done.
Qed.

(** X8. A record of the output that carries both ACNC and NSW data was
    matched by name: its NSW name and its ACNC legal name normalize to the
    same string. *)
Theorem matched_names_agree abn_records acnc_records nsw_records r :
  r ∈ (merge_organization_records clock abn_records acnc_records nsw_records).1 →
  "acnc" ∈ sources r → "nsw" ∈ sources r →
  ∃ legal_name name,
    field r "legal_name" = VStr legal_name
    ∧ field r "nsw_name" = VStr name
    ∧ clean name = clean legal_name.
Proof.
  intros Hr.
  pose proof (nsw_pass_canonical abn_records acnc_records nsw_records) as [Hcan _].
  rewrite Forall_forall in Hcan. by apply (canonical_names_agree _ _ _ _ (Hcan r Hr)).
Qed.

(** *** The export of a merge result *)

Lemma is_Some_update (d : merged_record) kvs k :
  is_Some (update d kvs !! k) ↔ k ∈ kvs.*1 ∨ is_Some (d !! k).
Proof.
  unfold update. revert d. induction kvs as [|[k' v] kvs IH]; intros d; cbn [foldl].
  - cbn. rewrite elem_of_nil. tauto.
  - rewrite IH. cbn [fmap list_fmap fst snd]. rewrite elem_of_cons, lookup_insert.
    destruct (decide (k' = k)) as [->|Hne]; [|intuition congruence].
    split; [auto|]. intros _. right. by eexists.
Qed.

Lemma is_Some_append_source (d : merged_record) s k :
  is_Some (append_source d s !! k) ↔ is_Some (d !! k).
Proof.
  unfold append_source. destruct (d !! "sources") as [[v|xs]|] eqn:Hsrc; try done.
  rewrite lookup_insert. destruct (decide ("sources" = k)) as [<-|]; [|done].
  rewrite Hsrc. split; intros _; by eexists.
Qed.

Lemma is_Some_dict_of kvs k : is_Some (dict_of kvs !! k) ↔ k ∈ kvs.*1.
Proof.
  unfold dict_of. rewrite is_Some_update, lookup_empty.
  split; [intros [?|[? ?]]; done|auto].
Qed.

Lemma acnc_fields_columns c k : k ∈ (acnc_fields c).*1 → k ∈ Output.fieldnames.
Proof. intros Hk. cbn in Hk. each_key Hk ltac:(by repeat constructor). Qed.

Lemma nsw_fields_columns n k : k ∈ (nsw_fields n).*1 → k ∈ Output.fieldnames.
Proof. intros Hk. cbn in Hk. each_key Hk ltac:(by repeat constructor). Qed.

(** The keys of a canonical record are the columns of the export. *)
Lemma canonical_keys abn_records acnc_records nsw_records r k :
  canonical abn_records acnc_records nsw_records r →
  is_Some (r !! k) ↔ k ∈ Output.fieldnames.
Proof.
  assert (∀ d c, (∀ k, is_Some (d !! k) ↔ k ∈ Output.fieldnames) →
                 ∀ k, is_Some (with_acnc d c !! k) ↔ k ∈ Output.fieldnames) as Hacnc.
  { intros d c Hd k'. unfold with_acnc.
    rewrite is_Some_append_source, is_Some_update, Hd.
    split; [intros [?|?]; [by eapply acnc_fields_columns|done]|auto]. }
  assert (∀ d n, (∀ k, is_Some (d !! k) ↔ k ∈ Output.fieldnames) →
                 ∀ k, is_Some (with_nsw d n !! k) ↔ k ∈ Output.fieldnames) as Hnsw.
  { intros d n Hd k'. unfold with_nsw.
    rewrite is_Some_append_source, is_Some_update, Hd.
    split; [intros [?|?]; [by eapply nsw_fields_columns|done]|auto]. }
  assert (∀ a now k, is_Some (seed_abn a now !! k) ↔ k ∈ Output.fieldnames) as Habn
    by (intros; apply is_Some_dict_of).
  assert (∀ x c now k, is_Some (seed_acnc x c now !! k) ↔ k ∈ Output.fieldnames) as Hsacnc
    by (intros; apply is_Some_dict_of).
  assert (∀ n now k, is_Some (seed_nsw n now !! k) ↔ k ∈ Output.fieldnames) as Hsnsw
    by (intros; apply is_Some_dict_of).
  destruct 1; auto.
Qed.

Lemma wrong_fields_nil (r : merged_record) :
  (∀ k, is_Some (r !! k) → k ∈ Output.fieldnames) → Output.wrong_fields r = [].
Proof.
  intros Hkeys. unfold Output.wrong_fields.
  destruct (filter _ _) as [|k ks] eqn:Hfilter; [done|].
  assert (k ∈ filter (λ k, k ∉ Output.fieldnames) (map fst (map_to_list r))) as Hk
    by (rewrite Hfilter; by left).
  apply list_elem_of_filter in Hk as [Hnot Hk]. destruct Hnot. apply Hkeys.
  apply list_elem_of_In, in_map_iff in Hk as ([k' v] & <- & Hkv).
  apply list_elem_of_In, elem_of_map_to_list in Hkv. by eexists.
Qed.

Lemma write_rows_ok file rs :
  Forall (λ r, Output.wrong_fields r = []) rs →
  Output.write_rows file rs
  = (file ++ map (λ r, map (λ k, Output.csv_field (r !! k)) Output.fieldnames) rs, Ok tt).
Proof.
  intros Hok. revert file. induction Hok as [|r rs Hr _ IH]; intros file.
  { cbn. by rewrite app_nil_r. }
  cbn [Output.write_rows]. unfold Output.writerow. rewrite Hr, IH.
  cbn [map]. by rewrite <- (assoc_L app).
Qed.

(** The records of a merge only have keys that are columns, so the writer
    accepts each of them. *)
Lemma write_merged_records_ok abn_records acnc_records nsw_records filename :
  let out := merge_organization_records clock abn_records acnc_records nsw_records in
  Output.write_merged_records_to_csv out.1 filename
  = (Output.fieldnames
       :: map (λ r, map (λ k, Output.csv_field (r !! k)) Output.fieldnames) out.1,
     Ok tt).
Proof.
  intros out. unfold Output.write_merged_records_to_csv. rewrite write_rows_ok; [done|].
  eapply Forall_impl; [apply nsw_pass_canonical|].
  intros r Hr. apply wrong_fields_nil. intros k. by apply (canonical_keys _ _ _ _ _ Hr).
Qed.

(** X9. The writer refuses no record of a merge result, since every key of
    such a record is a column: the file holds the header and one row of 39
    fields per canonical record, in the order of the records. Errors of the
    file system are outside the model. *)
Theorem export_of_merge_succeeds abn_records acnc_records nsw_records filename :
  let out := merge_organization_records clock abn_records acnc_records nsw_records in
  let file := (Output.write_merged_records_to_csv out.1 filename).1 in
  Output.write_merged_records_to_csv out.1 filename
  = (Output.fieldnames
       :: map (λ r, map (λ k, Output.csv_field (r !! k)) Output.fieldnames) out.1,
     Ok tt)
  ∧ length file = S (merged_records out.2)
  ∧ Forall (λ row, length row = 39) file.
Proof.
  intros out file.
  pose proof (write_merged_records_ok abn_records acnc_records nsw_records filename)
    as Hfile. cbn zeta in Hfile. fold out in Hfile.
  subst file. rewrite Hfile. split; [done|]. cbn [fst length]. split.
  - by rewrite length_map.
  - apply Forall_cons. split; [done|]. apply Forall_forall.
    intros row (r & <- & _)%list_elem_of_In%in_map_iff. by rewrite length_map.
Qed.

(** *** Bounds on the counters *)

Lemma fold_length_le {A} (f : loop_state → A → loop_state) (l : list A) s :
  (∀ s a, length (merged (f s a)) ≤ S (length (merged s))) →
  length (merged (foldl f s l)) ≤ length (merged s) + length l.
Proof.
  intros Hstep. revert s. induction l as [|a l IH]; intros s; cbn [foldl length]; [lia|].
  specialize (IH (f s a)). specialize (Hstep s a). lia.
Qed.

Lemma abn_body_length acnc_by_abn nsw_by_name s a :
  length (merged (abn_body clock acnc_by_abn nsw_by_name s a)) ≤ S (length (merged s)).
Proof.
  pose proof (abn_body_step acnc_by_abn nsw_by_name s a) as Hstep. cbn zeta in Hstep.
  destruct (get_truthy a "abn") as [k|]; [|rewrite Hstep; lia].
  destruct (decide (k ∈ processed_abns s)); [rewrite Hstep; lia|].
  destruct Hstep as [_ Hstep].
  destruct (acnc_by_abn !! k) as [c|];
    [destruct (get_truthy c "legal_name") as [legal_name|];
     [destruct (nsw_by_name !! clean legal_name)|]|];
    destruct Hstep as [-> _]; rewrite length_app; cbn [length]; lia.
Qed.

Lemma acnc_body_length nsw_by_name s c :
  length (merged (acnc_body clock nsw_by_name s c)) ≤ S (length (merged s)).
Proof.
  pose proof (acnc_body_step nsw_by_name s c) as [_ Hstep]. cbn zeta in Hstep.
  destruct (get_truthy c "abn") as [k|]; [|rewrite Hstep; lia].
  destruct (decide (k ∈ processed_abns s)); [rewrite Hstep; lia|].
  destruct (get_truthy c "legal_name") as [legal_name|];
    [destruct (nsw_by_name !! clean legal_name);
     [destruct (decide (clean legal_name ∈ processed_nsw_names s))|]|];
    destruct Hstep as [-> _]; rewrite length_app; cbn [length]; lia.
Qed.

Lemma nsw_body_length s n :
  length (merged (nsw_body clock s n)) ≤ S (length (merged s)).
Proof.
  pose proof (nsw_body_step s n) as (_ & _ & Hstep). cbn zeta in Hstep.
  destruct (get_truthy n "name") as [name|]; [|rewrite Hstep; lia].
  destruct (decide (clean name ∈ processed_nsw_names s)); [rewrite Hstep; lia|].
  rewrite Hstep, length_app. cbn [length]. lia.
Qed.

Lemma totals_of (s : loop_state) :
  let totals st := (total_abn_records st, total_acnc_records st, total_nsw_records st) in
  (∀ acnc_by_abn nsw_by_name a,
     totals (stats (abn_body clock acnc_by_abn nsw_by_name s a)) = totals (stats s))
  ∧ (∀ nsw_by_name c, totals (stats (acnc_body clock nsw_by_name s c)) = totals (stats s))
  ∧ (∀ n, totals (stats (nsw_body clock s n)) = totals (stats s)).
Proof.
  intros totals. split; [|split].
  - intros acnc_by_abn nsw_by_name a. unfold abn_body.
    destruct (get_truthy a "abn") as [k|]; [|done].
    destruct (decide (k ∈ processed_abns s)); [done|].
    destruct (acnc_by_abn !! k) as [c|]; [|done].
    destruct (get_truthy c "legal_name") as [legal_name|]; [|done].
    by destruct (nsw_by_name !! clean legal_name).
  - intros nsw_by_name c. unfold acnc_body.
    destruct (get_truthy c "abn") as [k|]; [|done].
    destruct (decide (k ∈ processed_abns s)); [done|].
    destruct (get_truthy c "legal_name") as [legal_name|]; [|done].
    destruct (nsw_by_name !! clean legal_name); [|done].
    by destruct (decide (clean legal_name ∈ processed_nsw_names s)).
  - intros n. unfold nsw_body.
    destruct (get_truthy n "name") as [name|]; [|done].
    by destruct (decide (clean name ∈ processed_nsw_names s)).
Qed.

Lemma totals_kept abn_records acnc_records nsw_records :
  let st := stats (nsw_pass clock abn_records acnc_records nsw_records) in
  (total_abn_records st, total_acnc_records st, total_nsw_records st)
  = (length abn_records, length acnc_records, length nsw_records).
Proof.
  cbn zeta. unfold nsw_pass, acnc_pass, abn_pass.
  pose (totals := λ st, (total_abn_records st, total_acnc_records st, total_nsw_records st)).
  change (totals (stats (foldl (nsw_body clock)
            (foldl (acnc_body clock (by_name nsw_records))
               (foldl (abn_body clock (by_abn acnc_records) (by_name nsw_records))
                  (initial_state abn_records acnc_records nsw_records) abn_records)
               acnc_records) nsw_records))
          = (length abn_records, length acnc_records, length nsw_records)).
  apply (foldl_invariant (λ s, totals (stats s) = _));
    [|intros s n <-; apply (totals_of s)].
  apply (foldl_invariant (λ s, totals (stats s) = _));
    [|intros s c <-; apply (totals_of s)].
  apply (foldl_invariant (λ s, totals (stats s) = _));
    [done|intros s a <-; apply (totals_of s)].
Qed.

(** X10. The source totals are the lengths of the inputs, and no pass creates
    more records than it reads: the records seeded from each source, the
    record total and the match counters are bounded accordingly. *)
Theorem counters_bounded abn_records acnc_records nsw_records :
  let st := (merge_organization_records clock abn_records acnc_records nsw_records).2 in
  total_abn_records st = length abn_records
  ∧ total_acnc_records st = length acnc_records
  ∧ total_nsw_records st = length nsw_records
  ∧ abn_only st + abn_acnc_matches st ≤ total_abn_records st
  ∧ acnc_only st + acnc_nsw_matches st ≤ total_acnc_records st + all_source_matches st
  ∧ nsw_only st ≤ total_nsw_records st
  ∧ merged_records st ≤ total_abn_records st + total_acnc_records st + total_nsw_records st
  ∧ all_source_matches st ≤ abn_acnc_matches st
  ∧ all_source_matches st ≤ acnc_nsw_matches st.
Proof.
  intros st.
  pose proof (totals_kept abn_records acnc_records nsw_records) as Htot.
  cbn zeta in Htot. injection Htot as Ht1 Ht2 Ht3.
  destruct (abn_pass_invariant clock abn_records acnc_records nsw_records)
    as (_ & Hn1 & Ha1 & Hb1 & Hc1 & Hd1).
  destruct (acnc_pass_invariant clock abn_records acnc_records nsw_records)
    as (l2 & Hl2 & _ & Hn2 & Hm2 & Ha2 & Hb2 & Hc2 & Hd2).
  destruct (nsw_pass_invariant clock abn_records acnc_records nsw_records)
    as (l3 & Hl3 & _ & Hn3 & Ha3 & Hb3 & Hc3 & Hd3 & He3).
  pose proof (fold_length_le (abn_body clock (by_abn acnc_records) (by_name nsw_records))
                abn_records (initial_state abn_records acnc_records nsw_records)
                (abn_body_length _ _)) as Hle1.
  pose proof (fold_length_le (acnc_body clock (by_name nsw_records)) acnc_records
                (abn_pass clock abn_records acnc_records nsw_records)
                (acnc_body_length _)) as Hle2.
  pose proof (fold_length_le (nsw_body clock) nsw_records
                (acnc_pass clock abn_records acnc_records nsw_records)
                nsw_body_length) as Hle3.
  fold (abn_pass clock abn_records acnc_records nsw_records) in Hle1.
  fold (acnc_pass clock abn_records acnc_records nsw_records) in Hle2.
  fold (nsw_pass clock abn_records acnc_records nsw_records) in Hle3.
  rewrite Hl3, length_app in Hle3. rewrite Hl2, length_app in Hle2.
  cbn [initial_state merged length] in Hle1.
  subst st. unfold merge_organization_records, set_merged_records.
  cbn [snd total_abn_records total_acnc_records total_nsw_records merged_records abn_only
       acnc_only nsw_only abn_acnc_matches acnc_nsw_matches all_source_matches].
  rewrite Hl3, Hl2, !length_app. repeat split; lia.
Qed.

End merge_extras.

Section route_facts.

Import Merge Sync Canon Routes.

Context {str_methods : Strings}.
Context {raw : Type}.
Context (read_postcodes : string → result (list string)).
Context (abr_lookup : string → result json).
Context (nsw_extract : string → result raw).
Context (acnc_extract abn_extract : string → string → result raw).
Context (transform_nsw_assoc_data transform_acnc_data transform_abn_data :
           raw → result (list record)).
Context (table_upsert : list merged_record → result json).

Local Abbreviation upload_postcodes := (upload_postcodes read_postcodes).
Local Abbreviation lookup_abn := (lookup_abn abr_lookup).
Local Abbreviation sync_data_with_location :=
  (sync_data_with_location nsw_extract acnc_extract abn_extract
     transform_nsw_assoc_data transform_acnc_data transform_abn_data table_upsert).

(** *** Registering postcodes and reading them back *)

Lemma strings_of_JStr l : strings_of (map JStr l) = Some l.
Proof. induction l as [|x l IH]; [done|]. cbn. by rewrite IH. Qed.

(** The loader on a store that holds an upload entry for the state. *)
Lemma load_uploaded c state_upper postcodes now :
  upper state_upper = state_upper →
  load_postcodes_for_state
    (cache_set c ("postcodes:" +:+ state_upper) (upload_entry state_upper postcodes now))
    state_upper
  = Ok (merge_sort String.le postcodes).
Proof.
  intros Hup. unfold load_postcodes_for_state. rewrite Hup, cache_hit_set.
  rewrite decide_True by done. cbn. by rewrite strings_of_JStr.
Qed.

Lemma fromkeys_elem_of l x : x ∈ fromkeys l ↔ x ∈ l.
Proof.
  unfold fromkeys. rewrite fromkeys_step_elem_of, elem_of_nil.
  split; [by intros [[]|?]|by right].
Qed.

Lemma fromkeys_NoDup l : NoDup (fromkeys l).
Proof. apply fromkeys_step_NoDup, NoDup_nil_2. Qed.

(** X11. After an upload answered 200, [get_postcodes] for the same state, in
    any letter case, answers 200 with the postcodes found in the file,
    each once, in ascending order. *)
Theorem upload_then_get_postcodes c state state' file now :
  status_code (answer (upload_postcodes c state file now)) = 200 →
  upper state' = upper state →
  ∃ f found postcodes,
    file = Some f
    ∧ read_postcodes (content f) = Ok found
    ∧ get_postcodes (store (upload_postcodes c state file now)) state'
      = {| status_code := 200;
           body := JObj [ ("status", JStr "success");
                          ("state", JStr (upper state));
                          ("postcodes", JArr (map JStr postcodes));
                          ("total_postcodes", JNum (length postcodes)) ] |}
    ∧ Sorted String.le postcodes
    ∧ NoDup postcodes
    ∧ (∀ p, p ∈ postcodes ↔ p ∈ found).
Proof.
  unfold Routes.upload_postcodes. intros Hok Hstate.
  destruct file as [f|]; [|done].
  destruct (bool_decide (filename f = Some "")); [done|].
  destruct (match filename f with Some name => _ | None => _ end); [done|].
  destruct (read_postcodes (content f)) as [[|p found]|e] eqn:Hread; try done.
  exists f, (p :: found), (merge_sort String.le (fromkeys (p :: found))).
  split; [done|]. split; [done|]. cbn [store]. split; [|split; [|split]].
  - unfold get_postcodes. rewrite Hstate.
    by rewrite load_uploaded by apply upper_idemp.
  - apply Sorted_merge_sort; apply _.
  - rewrite merge_sort_Permutation. apply fromkeys_NoDup.
  - intros x. rewrite merge_sort_Permutation. apply fromkeys_elem_of.
Qed.

(** X12. An upload that is not answered 200 leaves the store as it was, and
    an upload answered 200 changes one key only, the postcodes key of the
    state, where it puts a payload the loader accepts. *)
Theorem upload_touches_one_key c state file now :
  let r := upload_postcodes c state file now in
  (status_code (answer r) ≠ 200 → store r = c)
  ∧ (∀ key, key ≠ "postcodes:" +:+ upper state → store r !! key = c !! key)
  ∧ (status_code (answer r) = 200 →
       ∃ postcodes, load_postcodes_for_state (store r) (upper state) = Ok postcodes
                    ∧ postcodes ≠ []).
Proof.
  cbn zeta. unfold Routes.upload_postcodes.
  destruct file as [f|]; [|done].
  destruct (bool_decide (filename f = Some "")); [done|].
  destruct (match filename f with Some name => _ | None => _ end); [done|].
  destruct (read_postcodes (content f)) as [[|p found]|e] eqn:Hread; try done.
  cbn [answer store status_code]. split; [done|]. split.
  - intros key Hkey. unfold cache_set. by rewrite lookup_insert_ne.
  - intros _. rewrite load_uploaded by apply upper_idemp. eexists. split; [done|].
    intros Hnil. assert (p ∈ merge_sort String.le (fromkeys (p :: found))) as Hp.
    { rewrite merge_sort_Permutation. apply fromkeys_elem_of. by left. }
    rewrite Hnil in Hp. by apply elem_of_nil in Hp.
Qed.

(** X13. [get_postcodes] answers 200 or 404, never 500: every failure of the
    loader reaches the route as a [KeyError]. It answers 404 whenever no
    truthy payload is stored under the postcodes key of the state. *)
Theorem get_postcodes_never_500 c state :
  (status_code (get_postcodes c state) = 200
   ∨ status_code (get_postcodes c state) = 404)
  ∧ (cache_hit c ("postcodes:" +:+ upper state) = None →
       status_code (get_postcodes c state) = 404)
  ∧ (status_code (get_postcodes c state) = 200 →
       is_Some (cache_hit c ("postcodes:" +:+ upper state))).
Proof.
  unfold get_postcodes.
  destruct (load_postcodes_for_state c (upper state)) as [postcodes|e] eqn:Hload.
  - apply load_postcodes_registered in Hload. rewrite upper_idemp in Hload.
    split; [by left|]. split; [|done]. intros Hnone. rewrite Hnone in Hload.
    by destruct Hload.
  - apply load_postcodes_raises in Hload as [msg ->].
    split; [by right|]. done.
Qed.

(** *** Single lookups *)

(** X14. A lookup that finds the ABN stores the bare result, and the next
    lookup of the same number answers with that bare result, not with the
    envelope of the first answer, whatever the register would say then. A
    lookup that finds nothing answers 404 and stores nothing. *)
Theorem lookup_abn_caches_bare_result c abn_number result :
  cache_hit c ("abn_lookup_" +:+ abn_number) = None →
  abr_lookup abn_number = Ok result →
  let first := lookup_abn c abn_number in
  if json_truthy result then
    answer first
    = {| status_code := 200;
         body := JObj [ ("status", JStr "success"); ("abn", JStr abn_number);
                        ("data", result) ] |}
    ∧ ∀ abr_lookup',
        Routes.lookup_abn abr_lookup' (store first) abn_number
        = {| answer := {| status_code := 200; body := result |}; store := store first |}
  else
    status_code (answer first) = 404 ∧ store first = c.
Proof.
  intros Hmiss Hlookup first. subst first. unfold Routes.lookup_abn.
  rewrite Hmiss, Hlookup. destruct (json_truthy result) eqn:Htruthy; [|done].
  cbn [answer store]. split; [done|]. intros abr_lookup'.
  rewrite cache_hit_set, decide_True by done. by rewrite Htruthy.
Qed.

(** *** Single-source syncs *)

(** The cases of [sync_data_with_location] on a cache miss. *)
Lemma sync_data_with_location_miss c source state postcode :
  cache_hit c ("sync_" +:+ source +:+ "_" +:+ state +:+ "_" +:+ postcode) = None →
  let r := sync_data_with_location c source state postcode in
  let extracted :=
    extract_and_transform nsw_extract acnc_extract abn_extract
      transform_nsw_assoc_data transform_acnc_data transform_abn_data
      source state postcode in
  ((source ∉ ["nsw"; "acnc"; "abn"]) ∧ status_code (answer r) = 400 ∧ store r = c)
  ∨ (source ∈ ["nsw"; "acnc"; "abn"]
     ∧ ((∃ e, extracted = Raise e) ∧ status_code (answer r) = 500 ∧ store r = c
        ∨ ∃ transformed_data,
            extracted = Ok transformed_data
            ∧ ((∃ e, table_upsert (as_row <$> transformed_data) = Raise e)
               ∧ status_code (answer r) = 500 ∧ store r = c
               ∨ (∃ result, table_upsert (as_row <$> transformed_data) = Ok result)
                 ∧ status_code (answer r) = 200
                 ∧ subscript (body (answer r)) "records_processed"
                   = Ok (JNum (length transformed_data))
                 ∧ store r
                   = cache_set c ("sync_" +:+ source +:+ "_" +:+ state +:+ "_" +:+ postcode)
                       (JArr (map json_of_source_record transformed_data))))).
Proof.
  intros Hmiss r extracted. subst r extracted. unfold Routes.sync_data_with_location.
  rewrite Hmiss. case_bool_decide as Hsrc; [right|by left].
  split; [done|].
  destruct (extract_and_transform _ _ _ _ _ _ _ _ _) as [transformed_data|e];
    [|left; eauto].
  right. exists transformed_data. split; [done|].
  unfold upsert_organizations, try_except.
  destruct (table_upsert _) as [result|e]; [right|left; eauto].
  split; [eauto|]. done.
Qed.

(** X15. On a cache miss, [sync_data_with_location] answers 400 for an
    unknown source and 500 when the extraction, the transformation or the
    loader raises, and in these cases it leaves the store as it was;
    otherwise it answers 200 with the number of records and stores the
    records under its key. *)
Theorem sync_data_with_location_outcomes c source state postcode :
  cache_hit c ("sync_" +:+ source +:+ "_" +:+ state +:+ "_" +:+ postcode) = None →
  let r := sync_data_with_location c source state postcode in
  let extracted :=
    extract_and_transform nsw_extract acnc_extract abn_extract
      transform_nsw_assoc_data transform_acnc_data transform_abn_data
      source state postcode in
  ((source ∉ ["nsw"; "acnc"; "abn"]) ∧ status_code (answer r) = 400 ∧ store r = c)
  ∨ (source ∈ ["nsw"; "acnc"; "abn"]
     ∧ ((∃ e, extracted = Raise e) ∧ status_code (answer r) = 500 ∧ store r = c
        ∨ ∃ transformed_data,
            extracted = Ok transformed_data
            ∧ ((∃ e, table_upsert (as_row <$> transformed_data) = Raise e)
               ∧ status_code (answer r) = 500 ∧ store r = c
               ∨ (∃ result, table_upsert (as_row <$> transformed_data) = Ok result)
                 ∧ status_code (answer r) = 200
                 ∧ subscript (body (answer r)) "records_processed"
                   = Ok (JNum (length transformed_data))
                 ∧ store r
                   = cache_set c ("sync_" +:+ source +:+ "_" +:+ state +:+ "_" +:+ postcode)
                       (JArr (map json_of_source_record transformed_data))))).
Proof. apply sync_data_with_location_miss. Qed.

(** X16. An empty result is stored but never served: after a sync that found
    no record, the same request misses the cache again. A non-empty result
    is served as the bare list of records. *)
Theorem sync_data_with_location_empty_not_cached c source state postcode :
  let key := "sync_" +:+ source +:+ "_" +:+ state +:+ "_" +:+ postcode in
  let r := sync_data_with_location c source state postcode in
  cache_hit c key = None →
  status_code (answer r) = 200 →
  ∃ transformed_data,
    store r !! key = Some (JArr (map json_of_source_record transformed_data))
    ∧ (transformed_data = [] → cache_hit (store r) key = None)
    ∧ (transformed_data ≠ [] →
         answer (sync_data_with_location (store r) source state postcode)
         = {| status_code := 200;
              body := JArr (map json_of_source_record transformed_data) |}).
Proof.
  intros key r Hmiss Hok. subst r.
  destruct (sync_data_with_location_miss c source state postcode Hmiss)
    as [(_ & Hbad & _)|(_ & [(_ & Hbad & _)|(data & _ & [(_ & Hbad & _)|(_ & _ & _ & Hstore)])])];
    try (rewrite Hbad in Hok; discriminate Hok).
  exists data. fold key in Hstore. rewrite Hstore. unfold cache_set at 1.
  rewrite lookup_insert_eq. split; [done|]. split.
  - intros ->. rewrite cache_hit_set, decide_True by done. done.
  - intros Hne. unfold Routes.sync_data_with_location at 1. fold key.
    rewrite cache_hit_set, decide_True by done.
    by destruct data.
Qed.

(** *** The keys the single routes write *)

(** The store left by [upload_postcodes], [lookup_abn] and
    [sync_data_with_location] is again one the application can leave. *)
Lemma routes_stay_reachable c :
  app_cache c →
  (∀ state file now, app_cache (store (upload_postcodes c state file now)))
  ∧ (∀ abn_number, app_cache (store (lookup_abn c abn_number)))
  ∧ (∀ source state postcode,
       app_cache (store (sync_data_with_location c source state postcode))).
Proof.
  intros Hc. split; [|split].
  - intros state file now. unfold Routes.upload_postcodes.
    destruct file as [f|]; [|done].
    destruct (bool_decide (filename f = Some "")); [done|].
    destruct (match filename f with Some name => _ | None => _ end); [done|].
    destruct (read_postcodes (content f)) as [[|p found]|e]; try done.
    cbn [store]. apply app_cache_upload; [|done].
    intros Hnil. assert (p ∈ fromkeys (p :: found)) as Hp
      by (apply fromkeys_elem_of; by left).
    rewrite Hnil in Hp. by apply elem_of_nil in Hp.
  - intros abn_number. unfold Routes.lookup_abn.
    destruct (cache_hit c _); [done|].
    destruct (abr_lookup abn_number) as [result|e]; [|done].
    destruct (json_truthy result); [|done].
    by apply app_cache_lookup_abn.
  - intros source state postcode. unfold Routes.sync_data_with_location.
    destruct (cache_hit c _); [done|].
    case_bool_decide as Hsrc; [|done].
    destruct (extract_and_transform _ _ _ _ _ _ _ _ _) as [transformed_data|e]; [|done].
    destruct (upsert_organizations _ _) as [result|e]; [|done].
    by apply app_cache_sync_data_with_location.
Qed.

Lemma lookup_abn_frame c abn_number key :
  key ≠ "abn_lookup_" +:+ abn_number →
  store (lookup_abn c abn_number) !! key = c !! key.
Proof.
  intros Hkey. unfold Routes.lookup_abn.
  destruct (cache_hit c _); [done|].
  destruct (abr_lookup abn_number) as [result|e]; [|done].
  destruct (json_truthy result); [|done].
  cbn [store]. unfold cache_set. by rewrite lookup_insert_ne.
Qed.

Lemma sync_data_with_location_frame c source state postcode key :
  key ≠ "sync_" +:+ source +:+ "_" +:+ state +:+ "_" +:+ postcode →
  store (sync_data_with_location c source state postcode) !! key = c !! key.
Proof.
  intros Hkey. unfold Routes.sync_data_with_location.
  destruct (cache_hit c _); [done|].
  case_bool_decide as Hsrc; [|done].
  destruct (extract_and_transform _ _ _ _ _ _ _ _ _) as [transformed_data|e]; [|done].
  destruct (upsert_organizations _ _) as [result|e]; [|done].
  cbn [store]. unfold cache_set. by rewrite lookup_insert_ne.
Qed.

Lemma sync_data_with_location_unknown c source state postcode :
  source ∉ ["nsw"; "acnc"; "abn"] →
  store (sync_data_with_location c source state postcode) = c.
Proof.
  intros Hsrc. unfold Routes.sync_data_with_location.
  destruct (cache_hit c _); [done|]. by rewrite bool_decide_eq_false_2.
Qed.

(** X17. [lookup_abn] and [sync_data_with_location] change at most one key
    of the cache, their own: ['abn_lookup_<number>'] for the first,
    ['sync_<source>_<state>_<postcode>'] for the second, and this one only
    for the sources nsw, acnc and abn. So neither route ever changes the
    postcodes of a state or a memoized bulk response, whatever the source,
    the state and the postcode of the request: a request for the source
    ['all'], whose key is the key of a bulk response, is answered without a
    write. *)
Theorem single_routes_write_their_key_only c :
  (∀ abn_number key,
     key ≠ "abn_lookup_" +:+ abn_number →
     store (lookup_abn c abn_number) !! key = c !! key)
  ∧ (∀ source state postcode key,
       key ≠ "sync_" +:+ source +:+ "_" +:+ state +:+ "_" +:+ postcode →
       store (sync_data_with_location c source state postcode) !! key = c !! key)
  ∧ (∀ source state postcode,
       source ∉ ["nsw"; "acnc"; "abn"] →
       store (sync_data_with_location c source state postcode) = c)
  ∧ (∀ abn_number b,
       store (lookup_abn c abn_number) !! ("postcodes:" +:+ b) = c !! ("postcodes:" +:+ b)
       ∧ store (lookup_abn c abn_number) !! ("sync_all_" +:+ b) = c !! ("sync_all_" +:+ b))
  ∧ (∀ source state postcode b,
       store (sync_data_with_location c source state postcode) !! ("postcodes:" +:+ b)
       = c !! ("postcodes:" +:+ b)
       ∧ store (sync_data_with_location c source state postcode) !! ("sync_all_" +:+ b)
         = c !! ("sync_all_" +:+ b)).
Proof.
  split; [intros; by apply lookup_abn_frame|].
  split; [intros; by apply sync_data_with_location_frame|].
  split; [intros; by apply sync_data_with_location_unknown|].
  split.
  - intros abn_number b. destruct (lookup_key_fresh abn_number b) as [Hmemo Hpost].
    split; apply lookup_abn_frame; congruence.
  - intros source state postcode b.
    destruct (decide (source ∈ ["nsw"; "acnc"; "abn"])) as [Hsrc|Hsrc].
    + destruct (source_key_fresh source ("_" +:+ state +:+ "_" +:+ postcode) b Hsrc)
        as (Hmemo & Hpost & _).
      split; apply sync_data_with_location_frame; congruence.
    + by rewrite sync_data_with_location_unknown.
Qed.

End route_facts.

Section bulk_facts.

Import Merge Sync Canon Batch.

Context {str_methods : Strings}.
Context {raw : Type}.
Context (nsw_extract : string → result raw).
Context (acnc_extract abn_extract : string → string → result raw).
Context (transform_nsw_assoc_data transform_acnc_data transform_abn_data :
           raw → result (list record)).
Context (as_completed : list future → list future).
Context (table_upsert : list merged_record → result json).
Context (clock : nat → string).
Context (processing_time : string).

Local Abbreviation extract_data_for_postcode :=
  (extract_data_for_postcode nsw_extract acnc_extract abn_extract
     transform_nsw_assoc_data transform_acnc_data transform_abn_data).
Local Abbreviation submit :=
  (submit nsw_extract acnc_extract abn_extract
     transform_nsw_assoc_data transform_acnc_data transform_abn_data).
Local Abbreviation collect_results :=
  (collect_results nsw_extract acnc_extract abn_extract
     transform_nsw_assoc_data transform_acnc_data transform_abn_data as_completed).
Local Abbreviation batch_stats :=
  (batch_stats nsw_extract acnc_extract abn_extract
     transform_nsw_assoc_data transform_acnc_data transform_abn_data as_completed).
Local Abbreviation sync_all_sources :=
  (sync_all_sources nsw_extract acnc_extract abn_extract
     transform_nsw_assoc_data transform_acnc_data transform_abn_data
     as_completed table_upsert clock processing_time).

(** *** A second request is served from the cache *)

(** An answer 200 is a memoized body, or a fresh non-empty body that is
    stored under the key of the state. *)
Lemma sync_all_sources_200 c state :
  let out := sync_all_sources c state in
  status_code (response out) = 200 →
  ∃ data,
    response out = {| status_code := 200; body := data |}
    ∧ json_truthy data = true
    ∧ (cache_hit c ("sync_all_" +:+ upper state) = Some data ∧ cache_after out = c
       ∨ cache_hit c ("sync_all_" +:+ upper state) = None
         ∧ cache_after out = cache_set c ("sync_all_" +:+ upper state) data).
Proof.
  cbn zeta. unfold Sync.sync_all_sources.
  destruct (cache_hit c ("sync_all_" +:+ upper state)) as [cached|] eqn:Hhit.
  { intros _. exists cached. split; [done|]. split; [|by left].
    unfold cache_hit in Hhit. destruct (cache_get c _) as [v|]; [|done].
    destruct (json_truthy v) eqn:Hv; [|done]. by injection Hhit as <-. }
  destruct (load_postcodes_for_state c (upper state)) as [[|p ps]|e]; [done| |].
  - destruct (merge_organization_records _ _ _ _) as [merged_records merge_stats].
    destruct (load_merged _ _ _) as [loading [loader_result|e]].
    + intros _. eexists. split; [reflexivity|]. split; [reflexivity|]. by right.
    + cbn [response]. by destruct e.
  - cbn [response]. by destruct e.
Qed.

(** X18. After a request answered 200, the same request is answered from the
    cache: same response, no extraction, no merge, no write, whatever the
    extractors, the pool and the loader would do then. *)
Theorem sync_all_sources_memoized c state
    {raw'} (nsw_extract' : string → result raw')
    (acnc_extract' abn_extract' : string → string → result raw')
    (transform_nsw' transform_acnc' transform_abn' : raw' → result (list record))
    as_completed' table_upsert' clock' processing_time' :
  let first := sync_all_sources c state in
  status_code (response first) = 200 →
  Sync.sync_all_sources nsw_extract' acnc_extract' abn_extract'
    transform_nsw' transform_acnc' transform_abn'
    as_completed' table_upsert' clock' processing_time' (cache_after first) state
  = {| response := response first; cache_after := cache_after first; trace := [] |}.
Proof.
  intros first Hok.
  destruct (sync_all_sources_200 c state Hok) as (data & Hresp & Htruthy & Hcache).
  fold first in Hresp, Hcache. rewrite Hresp.
  assert (cache_hit (cache_after first) ("sync_all_" +:+ upper state) = Some data) as Hhit.
  { destruct Hcache as [[Hhit ->]|[_ ->]]; [done|].
    rewrite cache_hit_set, decide_True by done. by rewrite Htruthy. }
  unfold Sync.sync_all_sources. by rewrite Hhit.
Qed.

(** *** What the collecting loop gathers *)

Lemma submit_elem_of state_upper postcodes f :
  f ∈ submit state_upper postcodes
  ↔ ∃ source postcode,
      postcode ∈ postcodes ∧ source ∈ ["abn"; "acnc"; "nsw"]
      ∧ f = {| f_source := source; f_postcode := postcode;
               f_result := extract_data_for_postcode source state_upper postcode |}.
Proof.
  unfold Sync.submit. rewrite list_elem_of_bind. split.
  - intros (postcode & Hf & Hp). apply list_elem_of_bind in Hf as (source & Hf & Hs).
    apply list_elem_of_singleton in Hf. eauto.
  - intros (source & postcode & Hp & Hs & ->). exists postcode. split; [|done].
    apply list_elem_of_bind. exists source. split; [|done].
    by apply list_elem_of_singleton.
Qed.

Lemma submit_well_formed state_upper postcodes f :
  f ∈ submit state_upper postcodes →
  f_source f ∈ ["abn"; "acnc"; "nsw"]
  ∧ f_postcode f ∈ postcodes
  ∧ f_result f
    = Ok (job_records extract_data_for_postcode (f_source f) state_upper (f_postcode f)).
Proof.
  intros (source & postcode & Hp & Hs & ->)%submit_elem_of. cbn.
  split; [done|]. split; [done|]. unfold job_records.
  by rewrite extract_data_for_postcode_returns.
Qed.

Ltac source_cases H :=
  repeat (apply elem_of_cons in H as [H|H]; [|]); [| | |by apply elem_of_nil in H].

Lemma collect_counts_invariant state_upper postcodes (futures : list future) :
  (∀ f, f ∈ futures →
        f_source f ∈ ["abn"; "acnc"; "nsw"]
        ∧ f_result f
          = Ok (job_records extract_data_for_postcode (f_source f) state_upper
                  (f_postcode f))) →
  let bp := by_postcode (pstats (foldl collect_step (initial_collection postcodes) futures)) in
  (∀ p e, bp !! p = Some e →
          n_total e = n_abn e + n_acnc e + n_nsw e
          ∧ ∃ f, f ∈ futures ∧ f_postcode f = p)
  ∧ (∀ f, f ∈ futures →
          ∃ e, bp !! f_postcode f = Some e
               ∧ count_of e (f_source f)
                 = length (job_records extract_data_for_postcode (f_source f)
                             state_upper (f_postcode f))).
Proof.
  induction futures as [|g futures IH] using rev_ind; intros Hwf bp.
  { split; [intros p e Hp; cbn in Hp; by rewrite lookup_empty in Hp|].
    intros f Hf. by apply elem_of_nil in Hf. }
  destruct IH as [IHtotal IHcount].
  { intros f Hf. apply Hwf, elem_of_app. by left. }
  destruct (Hwf g) as [Hsrc Hres].
  { apply elem_of_app. right. by apply list_elem_of_singleton. }
  subst bp. rewrite foldl_app. cbn [foldl].
  set (acc := foldl collect_step (initial_collection postcodes) futures) in *.
  set (q := f_postcode g) in *.
  set (recs := job_records extract_data_for_postcode (f_source g) state_upper q) in *.
  set (old := default zero_counts (by_postcode (pstats acc) !! q)).
  assert (∃ new,
            by_postcode (pstats (collect_step acc g)) !! q = Some new
            ∧ (∀ p, p ≠ q → by_postcode (pstats (collect_step acc g)) !! p
                            = by_postcode (pstats acc) !! p)
            ∧ n_total new = n_abn new + n_acnc new + n_nsw new
            ∧ count_of new (f_source g) = length recs
            ∧ (∀ source, source ∈ ["abn"; "acnc"; "nsw"] → source ≠ f_source g →
                         count_of new source = count_of old source))
    as (new & Hq & Hother & Htotal & Hset & Hkeep).
  { unfold collect_step. rewrite Hres. fold q.
    assert (default zero_counts
              (match by_postcode (pstats acc) !! q with
               | Some _ => by_postcode (pstats acc)
               | None => <[q := zero_counts]> (by_postcode (pstats acc))
               end !! q) = old) as ->.
    { subst old. destruct (by_postcode (pstats acc) !! q) eqn:Hlook.
      - by rewrite Hlook.
      - by rewrite lookup_insert_eq. }
    assert (∀ p, p ≠ q →
                 match by_postcode (pstats acc) !! q with
                 | Some _ => by_postcode (pstats acc)
                 | None => <[q := zero_counts]> (by_postcode (pstats acc))
                 end !! p = by_postcode (pstats acc) !! p) as Hinit.
    { intros p Hp. destruct (by_postcode (pstats acc) !! q); [done|].
      by rewrite lookup_insert_ne. }
    source_cases Hsrc; rewrite Hsrc; cbn [String.eqb Ascii.eqb Bool.eqb pstats by_postcode
      n_abn n_acnc n_nsw n_total];
      (eexists; split; [apply lookup_insert_eq|]; split;
       [intros p Hp; rewrite lookup_insert_ne by done; by apply Hinit|];
       split; [reflexivity|]; split; [reflexivity|];
       intros source Hs Hne; source_cases Hs; subst source; try done). }
  split.
  - intros p e Hp. destruct (decide (p = q)) as [->|Hne].
    + rewrite Hq in Hp. injection Hp as <-. split; [done|].
      exists g. split; [|done]. apply elem_of_app. right. by apply list_elem_of_singleton.
    + rewrite Hother in Hp by done. destruct (IHtotal p e Hp) as [? (f & Hf & ?)].
      split; [done|]. exists f. split; [|done]. apply elem_of_app. by left.
  - intros f [Hf|Hf%list_elem_of_singleton]%elem_of_app.
    + destruct (IHcount f Hf) as (e & He & Hcount).
      destruct (decide (f_postcode f = q)) as [Heq|Hne].
      * exists new. rewrite Heq. split; [done|].
        destruct (decide (f_source f = f_source g)) as [Hs|Hs].
        -- rewrite Hs, Hset. subst recs. by rewrite <- Heq.
        -- rewrite Hkeep; [|by apply Hwf, elem_of_app; left|done].
           subst old. rewrite Heq in He. rewrite He. cbn. by rewrite <- Heq.
      * exists e. by rewrite Hother.
    + subst f. exists new. done.
Qed.

Lemma completed_well_formed state_upper postcodes f :
  (∀ l, as_completed l ≡ₚ l) →
  f ∈ as_completed (submit state_upper postcodes) →
  f_source f ∈ ["abn"; "acnc"; "nsw"] ∧ f_postcode f ∈ postcodes
  ∧ f_result f
    = Ok (job_records extract_data_for_postcode (f_source f) state_upper (f_postcode f)).
Proof. intros Hperm Hf. apply submit_well_formed. by rewrite <- (Hperm _). Qed.

Lemma by_postcode_collected state_upper postcodes p :
  (∀ l, as_completed l ≡ₚ l) →
  by_postcode (pstats (collect_results state_upper postcodes)) !! p
  = if decide (p ∈ postcodes)
    then Some (expected_counts extract_data_for_postcode state_upper p)
    else None.
Proof.
  intros Hperm. unfold Sync.collect_results.
  destruct (collect_counts_invariant state_upper postcodes
              (as_completed (submit state_upper postcodes))) as [Htotal Hcount].
  { intros f Hf. by destruct (completed_well_formed _ _ _ Hperm Hf) as (? & _ & ?). }
  cbn zeta in Htotal, Hcount.
  destruct (decide (p ∈ postcodes)) as [Hp|Hp].
  - assert (∀ source, source ∈ ["abn"; "acnc"; "nsw"] →
              ∃ e, by_postcode
                     (pstats (foldl collect_step (initial_collection postcodes)
                                (as_completed (submit state_upper postcodes)))) !! p = Some e
                   ∧ count_of e source
                     = length (job_records extract_data_for_postcode source state_upper p))
      as Hsource.
    { intros source Hs.
      apply (Hcount {| f_source := source; f_postcode := p;
                       f_result := extract_data_for_postcode source state_upper p |}).
      rewrite (Hperm _). apply submit_elem_of. by exists source, p. }
    destruct (Hsource "abn") as (e & He & Habn); [by left|].
    destruct (Hsource "acnc") as (e1 & He1 & Hacnc); [by right; left|].
    destruct (Hsource "nsw") as (e2 & He2 & Hnsw); [by right; right; left|].
    rewrite He in He1, He2. injection He1 as <-. injection He2 as <-.
    destruct (Htotal p e He) as [Hsum _]. rewrite He. f_equal.
    destruct e as [a b n t]. unfold expected_counts. cbn in *. by subst.
  - destruct (by_postcode _ !! p) as [e|] eqn:He; [|done].
    destruct (Htotal p e He) as [_ (f & Hf & <-)]. destruct Hp.
    by destruct (completed_well_formed _ _ _ Hperm Hf) as (_ & ? & _).
Qed.

(** X19. Whatever the order of completion, the statistics of a batch hold one
    entry per postcode of the list and no other: the numbers of records its
    three tasks returned and their sum; the processed postcodes are those
    whose three tasks returned at least one record together. *)
Theorem batch_stats_per_postcode state_upper postcodes :
  (∀ l, as_completed l ≡ₚ l) →
  let stats := batch_stats state_upper postcodes in
  (∀ p, by_postcode stats !! p
        = if decide (p ∈ postcodes)
          then Some (expected_counts extract_data_for_postcode state_upper p)
          else None)
  ∧ processed_postcodes stats
    = length (List.filter
                (λ p, 0 <? n_total (expected_counts extract_data_for_postcode state_upper p))
                postcodes)
  ∧ total_postcodes stats = length postcodes
  ∧ failed_postcodes stats = [].
Proof.
  intros Hperm stats. split; [|split; [|split]].
  - intros p. by apply by_postcode_collected.
  - cbn [stats Sync.batch_stats processed_postcodes]. unfold count_processed. f_equal.
    apply List.filter_ext_in. intros p Hp%list_elem_of_In. unfold has_records.
    by rewrite by_postcode_collected, decide_True.
  - cbn [stats Sync.batch_stats total_postcodes]. unfold Sync.collect_results.
    apply (foldl_invariant (λ acc, total_postcodes (pstats acc) = length postcodes));
      [done|].
    intros acc f Hacc. unfold collect_step.
    destruct (f_result f); [|done].
    by destruct (String.eqb (f_source f) "abn"), (String.eqb (f_source f) "acnc"),
      (String.eqb (f_source f) "nsw").
  - apply failed_postcodes_always_empty. intros l f Hf. by rewrite <- (Hperm l).
Qed.

(** *** What the merge is given *)

Lemma collect_step_records state_upper acc g :
  f_source g ∈ ["abn"; "acnc"; "nsw"] →
  f_result g
  = Ok (job_records extract_data_for_postcode (f_source g) state_upper (f_postcode g)) →
  all_abn_records (collect_step acc g)
  = all_abn_records acc ++ contribution extract_data_for_postcode state_upper "abn" g
  ∧ all_acnc_records (collect_step acc g)
    = all_acnc_records acc ++ contribution extract_data_for_postcode state_upper "acnc" g
  ∧ all_nsw_records (collect_step acc g)
    = all_nsw_records acc ++ contribution extract_data_for_postcode state_upper "nsw" g.
Proof.
  intros Hsrc Hres. unfold collect_step, contribution. rewrite Hres.
  source_cases Hsrc; rewrite Hsrc;
    cbn [String.eqb Ascii.eqb Bool.eqb all_abn_records all_acnc_records all_nsw_records];
    by rewrite !app_nil_r.
Qed.

Lemma collect_records state_upper (futures : list future) acc :
  (∀ f, f ∈ futures →
        f_source f ∈ ["abn"; "acnc"; "nsw"]
        ∧ f_result f
          = Ok (job_records extract_data_for_postcode (f_source f) state_upper
                  (f_postcode f))) →
  let out := foldl collect_step acc futures in
  all_abn_records out
  = all_abn_records acc
    ++ (futures ≫= contribution extract_data_for_postcode state_upper "abn")
  ∧ all_acnc_records out
    = all_acnc_records acc
      ++ (futures ≫= contribution extract_data_for_postcode state_upper "acnc")
  ∧ all_nsw_records out
    = all_nsw_records acc
      ++ (futures ≫= contribution extract_data_for_postcode state_upper "nsw").
Proof.
  revert acc. induction futures as [|g futures IH]; intros acc Hwf.
  { cbn. by rewrite !app_nil_r. }
  cbn zeta. cbn [foldl].
  destruct (IH (collect_step acc g)) as (-> & -> & ->).
  { intros f Hf. apply Hwf. by right. }
  destruct (Hwf g) as [Hsrc Hres]; [by left|].
  destruct (collect_step_records state_upper acc g Hsrc Hres) as (-> & -> & ->).
  rewrite !bind_cons. by rewrite <- !(assoc_L app).
Qed.

Lemma submit_contribution state_upper postcodes source :
  source ∈ ["abn"; "acnc"; "nsw"] →
  submit state_upper postcodes ≫= contribution extract_data_for_postcode state_upper source
  = postcodes ≫= job_records extract_data_for_postcode source state_upper.
Proof.
  intros Hs. induction postcodes as [|p ps IH]; [done|].
  unfold Sync.submit in *. rewrite !bind_cons, bind_app, IH. f_equal.
  unfold contribution.
  source_cases Hs; subst source; cbn; by rewrite ?app_nil_r.
Qed.

(** X20. Whatever the order of completion, the three lists given to the merge
    hold, source by source, exactly the records the tasks of that source
    returned, each as often as it was returned: nothing is lost, invented or
    moved to another source. *)
Theorem collected_records_are_task_results state_upper postcodes :
  (∀ l, as_completed l ≡ₚ l) →
  let collected := collect_results state_upper postcodes in
  all_abn_records collected
  ≡ₚ postcodes ≫= job_records extract_data_for_postcode "abn" state_upper
  ∧ all_acnc_records collected
    ≡ₚ postcodes ≫= job_records extract_data_for_postcode "acnc" state_upper
  ∧ all_nsw_records collected
    ≡ₚ postcodes ≫= job_records extract_data_for_postcode "nsw" state_upper.
Proof.
  intros Hperm collected. subst collected. unfold Sync.collect_results.
  destruct (collect_records state_upper (as_completed (submit state_upper postcodes))
              (initial_collection postcodes)) as (-> & -> & ->).
  { intros f Hf. by destruct (completed_well_formed _ _ _ Hperm Hf) as (? & _ & ?). }
  cbn [initial_collection all_abn_records all_acnc_records all_nsw_records app].
  rewrite !(Hperm _).
  rewrite !submit_contribution; [done|by right; right; left|by right; left|by left].
Qed.

(** *** The outcome of a fresh request *)

(** X21. A request that is not served from the cache, for a state with
    registered postcodes, fails in one case only: the merge produced records
    and the Supabase call raised. The answer is then 500 with the wrapped
    message and nothing is cached. In every other case the answer is 200
    and the body is stored under the key of the state: the CSV writer
    refuses no merged record, so the export never stops a request (errors
    of the file system are outside the model). *)
Theorem sync_all_sources_fails_only_on_upsert c state p ps :
  cache_hit c ("sync_all_" +:+ upper state) = None →
  load_postcodes_for_state c (upper state) = Ok (p :: ps) →
  let out := sync_all_sources c state in
  let collected := collect_results (upper state) (p :: ps) in
  let merged_records :=
    (merge_organization_records clock (all_abn_records collected)
       (all_acnc_records collected) (all_nsw_records collected)).1 in
  match merged_records, table_upsert merged_records with
  | _ :: _, Raise e =>
      response out
      = server_error state (OtherError ("Error upserting to Supabase: " +:+ str_exn e))
      ∧ cache_after out = c
  | _, _ =>
      status_code (response out) = 200
      ∧ cache_after out
        = cache_set c ("sync_all_" +:+ upper state) (body (response out))
  end.
Proof.
  intros Hmiss Hload out collected merged_records.
  pose proof (write_merged_records_ok clock (all_abn_records collected)
                (all_acnc_records collected) (all_nsw_records collected)
                ("merged_records_" +:+ upper state +:+ ".csv")) as Hcsv.
  cbn zeta in Hcsv. fold merged_records in Hcsv.
  subst out. unfold Sync.sync_all_sources. rewrite Hmiss, Hload.
  fold collected.
  destruct (merge_organization_records clock _ _ _) as [merged merge_stats].
  cbn [fst] in merged_records. subst merged_records.
  unfold load_merged. destruct merged as [|r merged]; [done|].
  rewrite Hcsv. unfold upsert_organizations.
  by destruct (table_upsert (r :: merged)) as [j|e].
Qed.

End bulk_facts.

Section abn_facts.

Import Merge Sync Abn Transform Routes.

Context {str_methods : Strings}.
Context (dumps : json → string).
Context (found_abns : string → result (list string)).
Context (lookup_abn_details : string → result json).

Local Abbreviation format_record := (Abn.format_record dumps).
Local Abbreviation lookup_abn := (Abn.lookup_abn dumps lookup_abn_details).
Local Abbreviation search_body := (Abn.search_body dumps lookup_abn_details).
Local Abbreviation search_charities :=
  (Abn.search_charities dumps found_abns lookup_abn_details).

(** *** From the register to the transformed record *)

(** X22. The transformer reads two fields under names the extractor does not
    write: whatever the register says about an entity, its entity
    description and its ACNC status do not reach the transformed record,
    where both fields are [None]. The sixteen other fields do. *)
Theorem transformed_abn_record_loses_two_fields be formatted now :
  format_record be = Ok formatted →
  ∃ kvs,
    be = JObj kvs
    ∧ transform_abn_item now formatted
      = Ok (JObj
              [ ("abn", get_path be ["ABN"; "identifierValue"]);
                ("is_current", get_path be ["ABN"; "isCurrentIndicator"]);
                ("replaced_from", get_path be ["ABN"; "replacedFrom"]);
                ("entity_status", get_path be ["entityStatus"; "entityStatusCode"]);
                ("effective_from", get_path be ["entityStatus"; "effectiveFrom"]);
                ("effective_to", get_path be ["entityStatus"; "effectiveTo"]);
                ("entity_type_code", get_path be ["entityType"; "entityTypeCode"]);
                ("entity_type_description", JNull);
                ("anc_status", JNull);
                ("acnc_status_from", get_path be ["ACNCRegistration"; "effectiveFrom"]);
                ("acnc_status_to", get_path be ["ACNCRegistration"; "effectiveTo"]);
                ("record_last_updated", field_of kvs "recordLastUpdatedDate");
                ("gst", dumped dumps kvs "goodsAndServicesTax");
                ("dgr", dumped dumps kvs "dgrEndorsement");
                ("main_trading_names", dumped dumps kvs "mainTradingName");
                ("other_trading_names", dumped dumps kvs "otherTradingName");
                ("main_business_physical_address",
                 dumped dumps kvs "mainBusinessPhysicalAddress");
                ("tax_concession_endorsements",
                 dumped dumps kvs "taxConcessionCharityEndorsement");
                ("updated_at", JStr now) ]).
Proof.
  destruct be as [| | | | |kvs]; try discriminate.
  intros [= <-]. exists kvs. split; [done|]. reflexivity.
Qed.

(** *** Single lookups *)

Lemma format_record_truthy be formatted :
  format_record be = Ok formatted → json_truthy formatted = true.
Proof. destruct be; try discriminate. by intros [= <-]. Qed.

(** What [ABNExtractor.lookup_abn] returns when it is not [None]. *)
Lemma lookup_abn_cases abn :
  lookup_abn abn = JNull
  ∨ ∃ parsed_details be,
      lookup_abn_details abn = Ok parsed_details
      ∧ json_truthy parsed_details = true
      ∧ extract_business_entity parsed_details = Ok be
      ∧ json_truthy be = true
      ∧ format_record be = Ok (lookup_abn abn).
Proof.
  unfold Abn.lookup_abn.
  destruct (lookup_abn_details abn) as [parsed_details|e] eqn:Hlookup; [|by left]. cbn.
  destruct (json_truthy parsed_details) eqn:Hdetails; [|by left]. cbn.
  destruct (extract_business_entity parsed_details) as [be|e] eqn:Hextract; [|by left].
  cbn.
  destruct (json_truthy be) eqn:Hbe; [|by left].
  destruct (format_record be) as [formatted|e] eqn:Hformat; [|by left].
  right. by exists parsed_details, be.
Qed.

(** X23. [ABNExtractor.lookup_abn] never raises. It returns [None], or the
    record formatted from the business entity found in the details of the
    ABN; such a record is never falsy. *)
Theorem lookup_abn_none_or_formatted abn :
  lookup_abn abn = JNull
  ∨ json_truthy (lookup_abn abn) = true
    ∧ ∃ parsed_details be,
        lookup_abn_details abn = Ok parsed_details
        ∧ extract_business_entity parsed_details = Ok be
        ∧ format_record be = Ok (lookup_abn abn).
Proof.
  destruct (lookup_abn_cases abn) as [?|(parsed_details & be & ? & _ & ? & _ & Hformat)];
    [by left|].
  right. split; [by eapply format_record_truthy|]. by exists parsed_details, be.
Qed.

(** X24. Once the extractor is created, the route [lookup_abn] answers 200
    or 404 and never 500: the extractor turns every failure into [None].
    It answers 404 exactly when nothing is cached for the number and the
    extractor returns [None]. *)
Theorem lookup_abn_route_200_or_404 (abr_lookup : string → result json) c abn_number :
  abr_lookup abn_number = Ok (lookup_abn abn_number) →
  let r := Routes.lookup_abn abr_lookup c abn_number in
  (status_code (answer r) = 200 ∨ status_code (answer r) = 404)
  ∧ (status_code (answer r) = 404
     ↔ cache_hit c ("abn_lookup_" +:+ abn_number) = None ∧ lookup_abn abn_number = JNull).
Proof.
  intros Hcreated. cbn zeta. unfold Routes.lookup_abn. rewrite Hcreated.
  destruct (cache_hit c ("abn_lookup_" +:+ abn_number)) as [cached|].
  { split; [by left|]. split; [done|]. by intros [? _]. }
  destruct (lookup_abn_cases abn_number)
    as [Hnone|(parsed_details & be & _ & _ & _ & _ & Hformat)].
  - rewrite Hnone. split; [by right|]. done.
  - rewrite (format_record_truthy _ _ Hformat). split; [by left|].
    split; [done|]. intros [_ Hnone]. rewrite Hnone in Hformat.
    apply format_record_truthy in Hformat. discriminate Hformat.
Qed.

(** *** The search by postcode *)

Lemma main_location_matches be postcode state location :
  main_location be = Ok location →
  bool_decide (location.2 = Some (upper state)) && is_str location.1 postcode = true →
  located_in postcode state be.
Proof.
  unfold main_location, located_in.
  destruct (dict_get be "mainBusinessPhysicalAddress" JNull) as [main_addr|e] eqn:Hmain;
    [|done].
  cbn. destruct (json_truthy main_addr) eqn:Haddr; [|by intros [= <-]].
  destruct (dict_get main_addr "postcode" JNull) as [postcode_val|e] eqn:Hpostcode;
    [|done].
  cbn. destruct (dict_get main_addr "stateCode" JNull) as [state_val|e] eqn:Hstate_val;
    [|done].
  cbn. intros Hloc Hmatch. exists main_addr, state_val.
  assert (∃ state_code,
            location = (postcode_val, Some state_code)
            ∧ ((∃ s, state_val = JStr s ∧ upper s = state_code)
               ∨ json_truthy state_val = false ∧ state_code = ""))
    as (state_code & -> & Hstate).
  { destruct (json_truthy state_val) eqn:Htruthy.
    - destruct state_val as [| | |s| |]; try discriminate Hloc.
      injection Hloc as <-. exists (upper s). split; [done|]. left. by exists s.
    - injection Hloc as <-. exists "". split; [done|]. by right. }
  apply andb_true_iff in Hmatch as [Hs Hp]. apply bool_decide_eq_true in Hs.
  injection Hs as Hs. cbn in Hp.
  destruct postcode_val as [| | |p| |]; try discriminate Hp.
  apply String.eqb_eq in Hp as ->.
  split; [done|]. split; [done|]. split; [done|]. split; [done|].
  destruct Hstate as [(s & -> & Hup)|[Hfalsy ->]].
  - left. exists s. split; [done|]. congruence.
  - right. done.
Qed.

(** One turn of the loop adds nothing, or the formatted record of an entity
    located where the search looks. *)
Lemma search_body_step postcode state charities abn charities' :
  search_body postcode state charities abn = Ok charities' →
  charities' = charities
  ∨ ∃ parsed_details be formatted,
      charities' = charities ++ [formatted]
      ∧ lookup_abn_details abn = Ok parsed_details
      ∧ extract_business_entity parsed_details = Ok be
      ∧ format_record be = Ok formatted
      ∧ located_in postcode state be.
Proof.
  unfold Abn.search_body.
  destruct (lookup_abn_details abn) as [parsed_details|e] eqn:Hlookup; [|done]. cbn.
  destruct (json_truthy parsed_details); cbn; [|by intros [= <-]; left].
  destruct (extract_business_entity parsed_details) as [be|e] eqn:Hextract; [|done]. cbn.
  destruct (main_location be) as [location|e] eqn:Hloc; [|done]. cbn.
  destruct (bool_decide (location.2 = Some (upper state)) && is_str location.1 postcode)
    eqn:Hmatch; [|by intros [= <-]; left].
  destruct (format_record be) as [formatted|e] eqn:Hformat; [|done]. cbn.
  intros [= <-]. right. exists parsed_details, be, formatted.
  split; [done|]. split; [done|]. split; [done|]. split; [done|].
  by eapply main_location_matches.
Qed.

(** The loop over the ABNs listed. *)
Lemma search_loop_sound postcode state abns charities :
  foldl (λ acc abn, charities ← acc; search_body postcode state charities abn)
        (Ok []) abns = Ok charities →
  length charities ≤ length abns
  ∧ Forall (λ formatted,
              ∃ abn parsed_details be,
                abn ∈ abns
                ∧ lookup_abn_details abn = Ok parsed_details
                ∧ extract_business_entity parsed_details = Ok be
                ∧ format_record be = Ok formatted
                ∧ located_in postcode state be)
           charities.
Proof.
  revert charities. induction abns as [|abn abns IH] using rev_ind; intros charities Hloop.
  { cbn in Hloop. injection Hloop as <-. split; [done|]. constructor. }
  rewrite foldl_app in Hloop. cbn [foldl] in Hloop.
  destruct (foldl _ (Ok []) abns) as [before|e]; [|done]. cbn in Hloop.
  destruct (IH before eq_refl) as [IHlen IHall].
  assert (Forall (λ formatted,
                    ∃ abn0 parsed_details be,
                      abn0 ∈ abns ++ [abn]
                      ∧ lookup_abn_details abn0 = Ok parsed_details
                      ∧ extract_business_entity parsed_details = Ok be
                      ∧ format_record be = Ok formatted
                      ∧ located_in postcode state be)
                 before) as Hbefore.
  { eapply Forall_impl; [exact IHall|].
    intros formatted (abn0 & pd & be & Hin & Hrest).
    exists abn0, pd, be. split; [|exact Hrest]. apply elem_of_app. by left. }
  rewrite length_app. cbn [length].
  destruct (search_body_step _ _ _ _ _ Hloop) as [->|(pd & be & formatted & -> & Hrest)].
  - split; [lia|done].
  - split; [rewrite length_app; cbn; lia|].
    apply Forall_app. split; [done|]. apply Forall_singleton.
    exists abn, pd, be. split; [|exact Hrest].
    apply elem_of_app. right. by apply list_elem_of_singleton.
Qed.

(** X25. Every record a search returns is the formatted record of an entity
    whose ABN the register listed for the postcode, and whose main business
    address holds the postcode and the state searched. The search returns
    at most one record per ABN listed, and at most [max_abns] records. *)
Theorem search_charities_sound postcode state max_abns charities :
  search_charities postcode state max_abns = Ok charities →
  ∃ abns,
    call_search_by_charity found_abns postcode max_abns = Ok abns
    ∧ length charities ≤ length abns
    ∧ (∀ n, max_abns = Some n → length charities ≤ n)
    ∧ Forall (λ formatted,
                ∃ abn parsed_details be,
                  abn ∈ abns
                  ∧ lookup_abn_details abn = Ok parsed_details
                  ∧ extract_business_entity parsed_details = Ok be
                  ∧ format_record be = Ok formatted
                  ∧ located_in postcode state be)
             charities.
Proof.
  unfold Abn.search_charities.
  destruct (call_search_by_charity found_abns postcode max_abns) as [abns|e] eqn:Hcall;
    [|done].
  cbn. intros Hloop. exists abns. split; [done|].
  destruct (search_loop_sound _ _ _ _ Hloop) as [Hlen Hall].
  split; [done|]. split; [|done].
  intros n ->. unfold call_search_by_charity in Hcall.
  destruct (found_abns postcode) as [found|e]; [|done]. cbn in Hcall.
  injection Hcall as <-. rewrite length_take in Hlen. lia.
Qed.

(** *** From the search to the transformer *)

Lemma transform_loop_formatted clock n charities :
  Forall (λ formatted, ∃ be, format_record be = Ok formatted) charities →
  ∃ transformed,
    transform_loop transform_abn_item clock n charities = Ok transformed
    ∧ length transformed = length charities
    ∧ Forall (λ record,
                dict_get record "entity_type_description" JNull = Ok JNull
                ∧ dict_get record "anc_status" JNull = Ok JNull)
             transformed.
Proof.
  intros Hall. revert n. induction Hall as [|formatted charities [be Hbe] _ IH]; intros n.
  { exists []. split; [done|]. split; [done|]. constructor. }
  destruct (IH (S n)) as (transformed & Hloop & Hlen & Hlost).
  destruct be as [| | | | |kvs]; try discriminate Hbe. injection Hbe as <-.
  cbn [transform_loop]. rewrite Hloop. eexists. split; [reflexivity|].
  split; [cbn; by rewrite Hlen|]. apply Forall_cons. split; [|done].
  split; reflexivity.
Qed.

(** X26. What the ABN source delivers to the merge: when the extractor
    returns, the transformer returns too, with one record per charity
    found, and in every one of these records the entity description and the
    ACNC status are [None]. *)
Theorem abn_source_never_describes_entities state postcode max_abns clock charities :
  Abn.extract dumps found_abns lookup_abn_details state postcode max_abns = Ok charities →
  ∃ transformed,
    transform_abn_data clock charities = Ok transformed
    ∧ length transformed = length charities
    ∧ Forall (λ record,
                dict_get record "entity_type_description" JNull = Ok JNull
                ∧ dict_get record "anc_status" JNull = Ok JNull)
             transformed.
Proof.
  unfold Abn.extract, Abn.search_charities.
  destruct (call_search_by_charity found_abns _ max_abns) as [abns|e]; [|done].
  cbn. intros Hloop. apply transform_loop_formatted.
  destruct (search_loop_sound _ _ _ _ Hloop) as [_ Hall].
  eapply Forall_impl; [exact Hall|].
  intros formatted (_ & _ & be & _ & _ & _ & Hformat & _). by exists be.
Qed.

End abn_facts.

Section transform_facts.

Import Merge Sync Abn Transform.

Context {str_methods : Strings}.

(** *** The loop of the transformers *)

Lemma transform_loop_returns transform_item clock n raw_data :
  (∀ now kvs, ∃ transformed, transform_item now (JObj kvs) = Ok transformed) →
  Forall (λ x, is_dict x = true) raw_data →
  ∃ transformed,
    transform_loop transform_item clock n raw_data = Ok transformed
    ∧ length transformed = length raw_data.
Proof.
  intros Hitem Hall. revert n. induction Hall as [|x raw_data Hx _ IH]; intros n.
  { by exists []. }
  destruct x as [| | | | |kvs]; try discriminate Hx.
  destruct (Hitem (clock n) kvs) as [t Ht]. destruct (IH (S n)) as (ts & Hts & Hlen).
  exists (t :: ts). cbn [transform_loop]. rewrite Ht, Hts. split; [done|].
  cbn. by rewrite Hlen.
Qed.

Lemma transform_loop_raises transform_item clock n raw_data :
  (∀ now kvs, ∃ transformed, transform_item now (JObj kvs) = Ok transformed) →
  (∀ now x, is_dict x = false → transform_item now x = Raise attribute_error) →
  Exists (λ x, is_dict x = false) raw_data →
  transform_loop transform_item clock n raw_data = Raise attribute_error.
Proof.
  intros Hdict Hitem Hsome. revert n. induction raw_data as [|x raw_data IH]; intros n.
  { by apply Exists_nil in Hsome. }
  cbn [transform_loop]. destruct (is_dict x) eqn:Hx.
  - apply Exists_cons in Hsome as [Hsome|Hsome]; [congruence|].
    rewrite (IH Hsome). destruct x as [| | | | |kvs]; try discriminate Hx.
    destruct (Hdict (clock n) kvs) as [t ->]. done.
  - by rewrite (Hitem _ _ Hx).
Qed.

(** X27. A transformer needs every raw item to be a dictionary: it then
    returns one record per item, and otherwise it raises [AttributeError]
    and returns nothing, whatever the other items are. *)
Theorem transformers_need_dictionaries clock raw_data :
  (Forall (λ x, is_dict x = true) raw_data →
     ∃ abn acnc nsw,
       transform_abn_data clock raw_data = Ok abn
       ∧ transform_acnc_data clock raw_data = Ok acnc
       ∧ transform_nsw_assoc_data clock raw_data = Ok nsw
       ∧ length abn = length raw_data
       ∧ length acnc = length raw_data
       ∧ length nsw = length raw_data)
  ∧ (Exists (λ x, is_dict x = false) raw_data →
       transform_abn_data clock raw_data = Raise attribute_error
       ∧ transform_acnc_data clock raw_data = Raise attribute_error
       ∧ transform_nsw_assoc_data clock raw_data = Raise attribute_error).
Proof.
  split.
  - intros Hall.
    destruct (transform_loop_returns transform_abn_item clock 0 raw_data)
      as (abn & ? & ?); [by eexists|done|].
    destruct (transform_loop_returns transform_acnc_item clock 0 raw_data)
      as (acnc & ? & ?); [by eexists|done|].
    destruct (transform_loop_returns transform_nsw_assoc_item clock 0 raw_data)
      as (nsw & ? & ?); [by eexists|done|].
    by exists abn, acnc, nsw.
  - intros Hsome. unfold transform_abn_data, transform_acnc_data, transform_nsw_assoc_data.
    rewrite !transform_loop_raises; [done|..]; try done;
      first [by intros now [] | by eexists].
Qed.

(** *** The ACNC address *)

(** X28. The street of a transformed ACNC record is the third address line:
    the address type and the first two address lines are written under the
    same key and overwritten, so they never reach the record. The address
    has five fields. *)
Theorem acnc_street_is_address_line_3 now kvs :
  ∃ transformed,
    transform_acnc_item now (JObj kvs) = Ok transformed
    ∧ dict_get transformed "address" JNull
      = Ok (JObj [ ("street", field_of kvs "Address_Line_3");
                   ("city", field_of kvs "Town_City");
                   ("state", field_of kvs "State");
                   ("postcode", field_of kvs "Postcode");
                   ("country", field_of kvs "Country") ]).
Proof. eexists. split; reflexivity. Qed.

(** *** The fields the merge reads *)

Ltac same_fields Hsame :=
  repeat (f_equal; [unfold get; rewrite Hsame; [reflexivity|];
                    apply (bool_decide_unpack _); by vm_compute|..]);
  try reflexivity.

(** X29. The merge reads no field that the transformers do not write: two
    records of a source that agree on the keys of a transformed record of
    that source give the merge the same fields, names and identifiers. *)
Theorem merge_reads_transformed_fields now raw_item (r1 r2 : record) :
  (∀ transformed,
     transform_abn_item now raw_item = Ok transformed →
     (∀ k, k ∈ keys transformed → r1 !! k = r2 !! k) →
     abn_fields r1 = abn_fields r2)
  ∧ (∀ transformed,
       transform_acnc_item now raw_item = Ok transformed →
       (∀ k, k ∈ keys transformed → r1 !! k = r2 !! k) →
       acnc_fields r1 = acnc_fields r2
       ∧ get_truthy r1 "abn" = get_truthy r2 "abn"
       ∧ get_truthy r1 "legal_name" = get_truthy r2 "legal_name")
  ∧ (∀ transformed,
       transform_nsw_assoc_item now raw_item = Ok transformed →
       (∀ k, k ∈ keys transformed → r1 !! k = r2 !! k) →
       nsw_fields r1 = nsw_fields r2
       ∧ get_truthy r1 "name" = get_truthy r2 "name").
Proof.
  destruct raw_item as [| | | | |kvs];
    try (split; [|split]; intros transformed Hraise; discriminate Hraise).
  split; [|split]; intros transformed [= <-] Hsame.
  - unfold abn_fields. same_fields Hsame.
  - split; [|split].
    + unfold acnc_fields. same_fields Hsame.
    + unfold get_truthy, get. rewrite Hsame; [done|].
      apply (bool_decide_unpack _). by vm_compute.
    + unfold get_truthy, get. rewrite Hsame; [done|].
      apply (bool_decide_unpack _). by vm_compute.
  - split.
    + unfold nsw_fields. same_fields Hsame.
    + unfold get_truthy, get. rewrite Hsame; [done|].
      apply (bool_decide_unpack _). by vm_compute.
Qed.

End transform_facts.

Section etree_facts.

Import Sync Abn.

Context {str_methods : Strings}.

(** *** Dictionaries with one binding per key *)

Lemma item_fold (d : list (string * json)) key acc :
  foldl (λ acc kv, if String.eqb kv.1 key then Some kv.2 else acc) acc d
  = match item d key with
    | Some v => Some v
    | None => acc
    end.
Proof.
  unfold item. revert acc. induction d as [|[k x] d IH]; intros acc; [done|].
  cbn [foldl fst snd]. rewrite IH, (IH (if String.eqb k key then Some x else None)).
  destruct (foldl _ None d); [done|]. by destruct (String.eqb k key).
Qed.

Lemma item_cons k x (d : list (string * json)) key :
  item ((k, x) :: d) key
  = match item d key with
    | Some v => Some v
    | None => if String.eqb k key then Some x else None
    end.
Proof. unfold item at 1. cbn [foldl fst snd]. by rewrite item_fold. Qed.

Lemma item_absent (d : list (string * json)) key : key ∉ d.*1 → item d key = None.
Proof.
  induction d as [|[k x] d IH]; [done|]. cbn [fmap list_fmap fst].
  intros [Hne Hnot]%not_elem_of_cons. rewrite item_cons, IH by done.
  destruct (String.eqb_spec k key); [congruence|done].
Qed.

Lemma setitem_keys (d : list (string * json)) key v :
  (setitem d key v).*1 = if decide (key ∈ d.*1) then d.*1 else d.*1 ++ [key].
Proof.
  induction d as [|[k x] d IH]; [done|]. cbn [setitem fmap list_fmap fst].
  destruct (String.eqb_spec k key) as [->|Hne].
  - rewrite decide_True by left. done.
  - cbn [fmap list_fmap fst]. change (list_fmap _ _ fst ?l) with (l.*1). rewrite IH.
    destruct (decide (key ∈ d.*1)) as [Hin|Hnot].
    + rewrite decide_True by (by right). done.
    + rewrite decide_False; [done|]. intros [?|?]%elem_of_cons; congruence.
Qed.

Lemma setitem_NoDup (d : list (string * json)) key v :
  NoDup d.*1 → NoDup (setitem d key v).*1.
Proof.
  intros Hd. rewrite setitem_keys. destruct (decide (key ∈ d.*1)); [done|].
  apply NoDup_app. split; [done|]. split; [|apply NoDup_singleton].
  intros k Hk ->%list_elem_of_singleton. done.
Qed.

Lemma item_setitem (d : list (string * json)) key v key' :
  NoDup d.*1 →
  item (setitem d key v) key' = if decide (key = key') then Some v else item d key'.
Proof.
  induction d as [|[k x] d IH]; intros Hd.
  { cbn. destruct (String.eqb_spec key key'), (decide (key = key')); congruence. }
  cbn [fmap list_fmap fst] in Hd. apply NoDup_cons in Hd as [Hk Hd].
  cbn [setitem]. destruct (String.eqb_spec k key) as [->|Hne].
  - rewrite !item_cons. destruct (decide (key = key')) as [<-|Hne'].
    + rewrite item_absent by done. by rewrite String.eqb_refl.
    + destruct (String.eqb_spec key key'); [congruence|done].
  - rewrite !item_cons, IH by done. destruct (decide (key = key')) as [<-|Hne']; [done|].
    done.
Qed.

(** *** The conversion of an answer of the register *)

Lemma etree_to_dict_not_list elem values : etree_to_dict elem ≠ JArr values.
Proof.
  destruct elem as [tag text children]. cbn [etree_to_dict].
  destruct (negb _ && _); [done|]. by destruct (negb _).
Qed.

Lemma grouped_snoc values v :
  Forall (λ x, ∀ xs, x ≠ JArr xs) values →
  grouped (values ++ [v])
  = match grouped values with
    | Some (JArr xs) => Some (JArr (xs ++ [v]))
    | Some x => Some (JArr [x; v])
    | None => Some v
    end.
Proof.
  intros Hvalues. destruct values as [|v0 [|v1 values]]; [done| |done].
  cbn. apply Forall_cons in Hvalues as [Hv0 _]. destruct v0; try done. by destruct (Hv0 xs).
Qed.

(** The dictionary built from the children: one binding per local tag,
    holding the grouped values of the children with that tag. *)
Lemma child_dict_grouped (children : list element) :
  let child_dict :=
    foldl (λ acc child, add_child acc (local_tag (tag_of child)) (etree_to_dict child))
          [] children in
  NoDup child_dict.*1
  ∧ ∀ key, item child_dict key
           = grouped (etree_to_dict <$> filter (λ child, local_tag (tag_of child) = key)
                                               children).
Proof.
  induction children as [|child children IH] using rev_ind.
  { split; [constructor|done]. }
  cbn zeta in *. destruct IH as [IHkeys IHitems]. rewrite foldl_app. cbn [foldl].
  set (child_dict := foldl _ [] children) in *.
  set (t := local_tag (tag_of child)). set (v := etree_to_dict child).
  assert (∃ stored, add_child child_dict t v = setitem child_dict t stored
                    ∧ Some stored
                      = grouped ((etree_to_dict <$>
                                    filter (λ c, local_tag (tag_of c) = t) children) ++ [v]))
    as (stored & Hadd & Hstored).
  { unfold add_child. rewrite grouped_snoc.
    - rewrite <- IHitems. destruct (item child_dict t) as [[]|]; by eexists.
    - apply Forall_forall. intros x (c & -> & _)%list_elem_of_fmap xs.
      apply etree_to_dict_not_list. }
  rewrite Hadd. split; [by apply setitem_NoDup|].
  intros key. rewrite item_setitem by done. rewrite filter_app, fmap_app.
  destruct (decide (t = key)) as [<-|Hne].
  - rewrite filter_cons_True by done. rewrite filter_nil. done.
  - rewrite filter_cons_False by done. rewrite filter_nil, app_nil_r. apply IHitems.
Qed.

(** X30. What [etree_to_dict] makes of an element. A childless element with
    text that is not blank becomes that text, stripped. Every other element
    becomes a dictionary with one key per local tag of its children, bound
    to the value of the child when one child has the tag and to the list of
    the values, in document order, when several have it; text that is not
    blank is stored under ['value'], where it replaces the children tagged
    so. A childless element without text becomes the empty dictionary. *)
Theorem etree_to_dict_groups_children tag text children :
  let elem := Element tag text children in
  let stripped := strip (default "" text) in
  (children = [] → stripped ≠ "" → etree_to_dict elem = JStr stripped)
  ∧ (children = [] → stripped = "" → etree_to_dict elem = JObj [])
  ∧ (children ≠ [] ∨ stripped = "" →
       ∃ d, etree_to_dict elem = JObj d
            ∧ NoDup d.*1
            ∧ ∀ key, item d key
                     = if decide (key = "value" ∧ stripped ≠ "")
                       then Some (JStr stripped)
                       else grouped (child_values elem key)).
Proof.
  intros elem stripped. subst elem. cbn [etree_to_dict child_values].
  fold stripped. destruct (child_dict_grouped children) as [Hkeys Hitems].
  cbn zeta in Hkeys, Hitems. set (child_dict := foldl _ [] children) in *.
  split; [|split].
  - intros -> Hne. destruct (String.eqb_spec stripped ""); [done|].
    by rewrite bool_decide_eq_true_2.
  - intros -> ->. done.
  - intros Hcase. destruct (String.eqb_spec stripped "") as [Hblank|Hne].
    + exists child_dict. split; [done|]. split; [done|]. intros key.
      rewrite decide_False by (by intros [_ ?]). apply Hitems.
    + destruct Hcase as [Hchildren|?]; [|done].
      rewrite bool_decide_eq_false_2 by done. cbn [negb andb].
      exists (setitem child_dict "value" (JStr stripped)).
      split; [done|]. split; [by apply setitem_NoDup|]. intros key.
      rewrite item_setitem by done.
      destruct (decide ("value" = key)) as [<-|Hkey].
      * by rewrite decide_True.
      * rewrite decide_False by (by intros [-> _]). apply Hitems.
Qed.

End etree_facts.

Section merge_examples.

Import Merge Props Canon.

(** Two associations with different names and no other source. *)
Lemma nsw_name_unique_if_distinct_witness :
  let nsw_records := [record_of [("name", "Club A")]; record_of [("name", "Club B")]] in
  NoDup (clean <$> truthy_values "name" nsw_records)
  ∧ nsw_name_unique (merge_organization_records Scenario.clock [] [] nsw_records).1.
Proof.
  intros nsw_records.
  assert (NoDup (clean <$> truthy_values "name" nsw_records)) as Hdistinct.
  { apply (bool_decide_unpack _). by vm_compute. }
  split; [exact Hdistinct|].
  exact (nsw_name_unique_if_distinct Scenario.clock [] [] nsw_records Hdistinct).
Defined.

(** An association whose name matches the legal name of a charity: it is
    represented by the record of the charity. *)
Lemma nsw_records_represented_witness :
  let acnc_records := [record_of [("abn", "7"); ("legal_name", "Club A")]] in
  let n := record_of [("name", " club a")] in
  n ∈ [n]
  ∧ get_truthy n "name" = Some " club a"
  ∧ ∃ r name',
      r ∈ (merge_organization_records Scenario.clock [] acnc_records [n]).1
      ∧ "nsw" ∈ sources r
      ∧ field r "nsw_name" = VStr name'
      ∧ clean name' = clean " club a".
Proof.
  intros acnc_records n.
  assert (n ∈ [n]) as Hin by (by left).
  assert (get_truthy n "name" = Some " club a") as Hname by reflexivity.
  split; [exact Hin|]. split; [exact Hname|].
  exact (nsw_records_represented Scenario.clock [] acnc_records [n] n " club a" Hin Hname).
Defined.

(** The record seeded from a lone ABN record. *)
Lemma provenance_tells_fields_witness :
  let abn_records := [record_of [("abn", "1")]] in
  let r := seed_abn (record_of [("abn", "1")]) (Scenario.clock 0) in
  r ∈ (merge_organization_records Scenario.clock abn_records [] []).1
  ∧ (sources r = ["abn"] ∨ sources r = ["abn"; "acnc"] ∨ sources r = ["abn"; "acnc"; "nsw"]
     ∨ sources r = ["acnc"] ∨ sources r = ["acnc"; "nsw"] ∨ sources r = ["nsw"])
  ∧ (identifier r = None ↔ sources r = ["nsw"])
  ∧ ("abn" ∉ sources r →
       ∀ k, k ∈ (abn_fields_empty VNone).*1 → k ≠ "abn" → field r k = VNone)
  ∧ ("acnc" ∉ sources r → ∀ k, k ∈ acnc_fields_empty.*1 → field r k = VNone)
  ∧ ("nsw" ∉ sources r → ∀ k, k ∈ nsw_fields_empty.*1 → field r k = VNone).
Proof.
  intros abn_records r.
  assert (r ∈ (merge_organization_records Scenario.clock abn_records [] []).1) as Hin.
  { apply list_elem_of_singleton. reflexivity. }
  split; [exact Hin|].
  exact (provenance_tells_fields Scenario.clock abn_records [] [] r Hin).
Defined.

(** A charity and an association with the same normalized name. *)
Lemma matched_names_agree_witness :
  let c := record_of [("abn", "7"); ("legal_name", "Club A")] in
  let n := record_of [("name", " club a")] in
  let r := with_nsw (seed_acnc "7" c (Scenario.clock 0)) n in
  r ∈ (merge_organization_records Scenario.clock [] [c] [n]).1
  ∧ "acnc" ∈ sources r
  ∧ "nsw" ∈ sources r
  ∧ ∃ legal_name name,
      field r "legal_name" = VStr legal_name
      ∧ field r "nsw_name" = VStr name
      ∧ clean name = clean legal_name.
Proof.
  intros c n r.
  assert (r ∈ (merge_organization_records Scenario.clock [] [c] [n]).1) as Hin.
  { apply list_elem_of_singleton. reflexivity. }
  assert ("acnc" ∈ sources r) as Hacnc by (apply (bool_decide_unpack _); by vm_compute).
  assert ("nsw" ∈ sources r) as Hnsw by (apply (bool_decide_unpack _); by vm_compute).
  split; [exact Hin|]. split; [exact Hacnc|]. split; [exact Hnsw|].
  exact (matched_names_agree Scenario.clock [] [c] [n] r Hin Hacnc Hnsw).
Defined.

End merge_examples.

Section route_examples.

Import Merge Sync Props Canon Routes Batch.

(** A file uploaded for "nsw" and read back as "NSW". *)
Lemma upload_then_get_postcodes_witness :
  let uploaded :=
    upload_postcodes Requests.read_postcodes ∅ "nsw" (Some Requests.csv_file)
      "2024-01-01T00:00:00" in
  status_code (answer uploaded) = 200
  ∧ upper "NSW" = upper "nsw"
  ∧ ∃ f found postcodes,
      Some Requests.csv_file = Some f
      ∧ Requests.read_postcodes (content f) = Ok found
      ∧ get_postcodes (store uploaded) "NSW"
        = {| status_code := 200;
             body := JObj [ ("status", JStr "success");
                            ("state", JStr (upper "nsw"));
                            ("postcodes", JArr (map JStr postcodes));
                            ("total_postcodes", JNum (length postcodes)) ] |}
      ∧ Sorted String.le postcodes
      ∧ NoDup postcodes
      ∧ (∀ p, p ∈ postcodes ↔ p ∈ found).
Proof.
  intros uploaded.
  assert (status_code (answer uploaded) = 200) as Hok by reflexivity.
  assert (upper "NSW" = upper "nsw") as Hstate by reflexivity.
  split; [exact Hok|]. split; [exact Hstate|].
  exact (upload_then_get_postcodes Requests.read_postcodes ∅ "nsw" "NSW"
           (Some Requests.csv_file) "2024-01-01T00:00:00" Hok Hstate).
Defined.

(** The ABN the register knows, looked up on the empty store, then again
    when the register is down. *)
Lemma lookup_abn_caches_bare_result_witness :
  let abn_number := "51824753556" in
  let result := JObj [("abn", JStr abn_number); ("entityStatus", JStr "Active")] in
  let first := lookup_abn Requests.abr_lookup ∅ abn_number in
  cache_hit ∅ ("abn_lookup_" +:+ abn_number) = None
  ∧ Requests.abr_lookup abn_number = Ok result
  ∧ answer first
    = {| status_code := 200;
         body := JObj [ ("status", JStr "success"); ("abn", JStr abn_number);
                        ("data", result) ] |}
  ∧ lookup_abn Requests.abr_down (store first) abn_number
    = {| answer := {| status_code := 200; body := result |}; store := store first |}.
Proof.
  intros abn_number result first.
  assert (cache_hit ∅ ("abn_lookup_" +:+ abn_number) = None) as Hmiss by reflexivity.
  assert (Requests.abr_lookup abn_number = Ok result) as Hfound by reflexivity.
  split; [exact Hmiss|]. split; [exact Hfound|].
  destruct (lookup_abn_caches_bare_result Requests.abr_lookup ∅ abn_number result
              Hmiss Hfound) as [Hfirst Hnext].
  split; [exact Hfirst|]. exact (Hnext Requests.abr_down).
Defined.

(** The ACNC register synced for postcode 2001 on the empty store. *)
Lemma sync_data_with_location_outcomes_witness :
  let r := Requests.sync_one ∅ "acnc" "NSW" "2001" in
  let extracted :=
    extract_and_transform Scenario.nsw_extract Scenario.acnc_extract Scenario.abn_extract
      Scenario.transform Scenario.transform Scenario.transform "acnc" "NSW" "2001" in
  cache_hit ∅ ("sync_" +:+ "acnc" +:+ "_" +:+ "NSW" +:+ "_" +:+ "2001") = None
  ∧ (("acnc" ∉ ["nsw"; "acnc"; "abn"]) ∧ status_code (answer r) = 400 ∧ store r = ∅
     ∨ "acnc" ∈ ["nsw"; "acnc"; "abn"]
       ∧ ((∃ e, extracted = Raise e) ∧ status_code (answer r) = 500 ∧ store r = ∅
          ∨ ∃ transformed_data,
              extracted = Ok transformed_data
              ∧ ((∃ e, Scenario.table_upsert (as_row <$> transformed_data) = Raise e)
                 ∧ status_code (answer r) = 500 ∧ store r = ∅
                 ∨ (∃ result, Scenario.table_upsert (as_row <$> transformed_data) = Ok result)
                   ∧ status_code (answer r) = 200
                   ∧ subscript (body (answer r)) "records_processed"
                     = Ok (JNum (length transformed_data))
                   ∧ store r
                     = cache_set ∅ ("sync_" +:+ "acnc" +:+ "_" +:+ "NSW" +:+ "_" +:+ "2001")
                         (JArr (map json_of_source_record transformed_data))))).
Proof.
  intros r extracted.
  assert (cache_hit ∅ ("sync_" +:+ "acnc" +:+ "_" +:+ "NSW" +:+ "_" +:+ "2001") = None)
    as Hmiss by reflexivity.
  split; [exact Hmiss|].
  exact (sync_data_with_location_outcomes Scenario.nsw_extract Scenario.acnc_extract
           Scenario.abn_extract Scenario.transform Scenario.transform Scenario.transform
           Scenario.table_upsert ∅ "acnc" "NSW" "2001" Hmiss).
Defined.

(** The ABN register synced for postcode 2000, where the extractor of the
    batch finds nothing to return: here an extractor that returns the empty
    list. *)
Lemma sync_data_with_location_empty_not_cached_witness :
  let nothing : string → string → result (list record) := λ _ _, Ok [] in
  let sync :=
    sync_data_with_location Scenario.nsw_extract Scenario.acnc_extract nothing
      Scenario.transform Scenario.transform Scenario.transform Scenario.table_upsert in
  let key := "sync_" +:+ "abn" +:+ "_" +:+ "NSW" +:+ "_" +:+ "2000" in
  let r := sync ∅ "abn" "NSW" "2000" in
  cache_hit ∅ key = None
  ∧ status_code (answer r) = 200
  ∧ ∃ transformed_data,
      store r !! key = Some (JArr (map json_of_source_record transformed_data))
      ∧ (transformed_data = [] → cache_hit (store r) key = None)
      ∧ (transformed_data ≠ [] →
           answer (sync (store r) "abn" "NSW" "2000")
           = {| status_code := 200;
                body := JArr (map json_of_source_record transformed_data) |}).
Proof.
  intros nothing sync key r.
  assert (cache_hit ∅ key = None) as Hmiss by reflexivity.
  assert (status_code (answer r) = 200) as Hok by reflexivity.
  split; [exact Hmiss|]. split; [exact Hok|].
  exact (sync_data_with_location_empty_not_cached Scenario.nsw_extract Scenario.acnc_extract
           nothing Scenario.transform Scenario.transform Scenario.transform
           Scenario.table_upsert ∅ "abn" "NSW" "2000" Hmiss Hok).
Defined.

End route_examples.

Section bulk_examples.

Import Merge Sync Props Canon Routes Batch.

Local Abbreviation extract :=
  (extract_data_for_postcode Scenario.nsw_extract Scenario.acnc_extract Scenario.abn_extract
     Scenario.transform Scenario.transform Scenario.transform).

(** The batch of the two registered postcodes, answered 200; the second
    request finds every collaborator down. *)
Lemma sync_all_sources_memoized_witness :
  let first := Scenario.sync_all Scenario.registered "nsw" in
  status_code (response first) = 200
  ∧ sync_all_sources Requests.nsw_down Requests.register_down Requests.register_down
      Scenario.transform Scenario.transform Scenario.transform
      Requests.as_completed Requests.table_upsert_down Scenario.clock "2024-01-01T00:00:09"
      (cache_after first) "nsw"
    = {| response := response first; cache_after := cache_after first; trace := [] |}.
Proof.
  intros first.
  assert (status_code (response first) = 200) as Hok by (by vm_compute).
  split; [exact Hok|].
  exact (sync_all_sources_memoized Scenario.nsw_extract Scenario.acnc_extract
           Scenario.abn_extract Scenario.transform Scenario.transform Scenario.transform
           Scenario.as_completed Scenario.table_upsert Scenario.clock "2024-01-01T00:00:01"
           Scenario.registered "nsw"
           Requests.nsw_down Requests.register_down Requests.register_down
           Scenario.transform Scenario.transform Scenario.transform
           Requests.as_completed Requests.table_upsert_down Scenario.clock
           "2024-01-01T00:00:09" Hok).
Defined.

(** The two postcodes of the batch, the tasks completing in reverse
    order. *)
Lemma batch_stats_per_postcode_witness :
  let postcodes := ["2000"; "2001"] in
  let stats :=
    batch_stats Scenario.nsw_extract Scenario.acnc_extract Scenario.abn_extract
      Scenario.transform Scenario.transform Scenario.transform Requests.as_completed
      "NSW" postcodes in
  (∀ l, Requests.as_completed l ≡ₚ l)
  ∧ (∀ p, by_postcode stats !! p
          = if decide (p ∈ postcodes)
            then Some (expected_counts extract "NSW" p)
            else None)
  ∧ processed_postcodes stats
    = length (List.filter (λ p, 0 <? n_total (expected_counts extract "NSW" p)) postcodes)
  ∧ total_postcodes stats = length postcodes
  ∧ failed_postcodes stats = [].
Proof.
  intros postcodes stats.
  assert (∀ l, Requests.as_completed l ≡ₚ l) as Hperm by (intros l; apply reverse_Permutation).
  split; [exact Hperm|].
  exact (batch_stats_per_postcode Scenario.nsw_extract Scenario.acnc_extract
           Scenario.abn_extract Scenario.transform Scenario.transform Scenario.transform
           Requests.as_completed "NSW" postcodes Hperm).
Defined.

Lemma collected_records_are_task_results_witness :
  let postcodes := ["2000"; "2001"] in
  let collected :=
    collect_results Scenario.nsw_extract Scenario.acnc_extract Scenario.abn_extract
      Scenario.transform Scenario.transform Scenario.transform Requests.as_completed
      "NSW" postcodes in
  (∀ l, Requests.as_completed l ≡ₚ l)
  ∧ all_abn_records collected ≡ₚ postcodes ≫= job_records extract "abn" "NSW"
  ∧ all_acnc_records collected ≡ₚ postcodes ≫= job_records extract "acnc" "NSW"
  ∧ all_nsw_records collected ≡ₚ postcodes ≫= job_records extract "nsw" "NSW".
Proof.
  intros postcodes collected.
  assert (∀ l, Requests.as_completed l ≡ₚ l) as Hperm by (intros l; apply reverse_Permutation).
  split; [exact Hperm|].
  exact (collected_records_are_task_results Scenario.nsw_extract Scenario.acnc_extract
           Scenario.abn_extract Scenario.transform Scenario.transform Scenario.transform
           Requests.as_completed "NSW" postcodes Hperm).
Defined.

(** The batch of the two registered postcodes when the loader is down. *)
Lemma sync_all_sources_fails_only_on_upsert_witness :
  let c := Scenario.registered in
  let out :=
    sync_all_sources Scenario.nsw_extract Scenario.acnc_extract Scenario.abn_extract
      Scenario.transform Scenario.transform Scenario.transform Scenario.as_completed
      Requests.table_upsert_down Scenario.clock "2024-01-01T00:00:01" c "nsw" in
  let collected :=
    collect_results Scenario.nsw_extract Scenario.acnc_extract Scenario.abn_extract
      Scenario.transform Scenario.transform Scenario.transform Scenario.as_completed
      (upper "nsw") ["2000"; "2001"] in
  let merged_records :=
    (merge_organization_records Scenario.clock (all_abn_records collected)
       (all_acnc_records collected) (all_nsw_records collected)).1 in
  cache_hit c ("sync_all_" +:+ upper "nsw") = None
  ∧ load_postcodes_for_state c (upper "nsw") = Ok ["2000"; "2001"]
  ∧ match merged_records, Requests.table_upsert_down merged_records with
    | _ :: _, Raise e =>
        response out
        = server_error "nsw" (OtherError ("Error upserting to Supabase: " +:+ str_exn e))
        ∧ cache_after out = c
    | _, _ =>
        status_code (response out) = 200
        ∧ cache_after out = cache_set c ("sync_all_" +:+ upper "nsw") (body (response out))
    end.
Proof.
  intros c out collected merged_records.
  assert (cache_hit c ("sync_all_" +:+ upper "nsw") = None) as Hmiss by reflexivity.
  assert (load_postcodes_for_state c (upper "nsw") = Ok ["2000"; "2001"]) as Hload
    by reflexivity.
  split; [exact Hmiss|]. split; [exact Hload|].
  exact (sync_all_sources_fails_only_on_upsert Scenario.nsw_extract Scenario.acnc_extract
           Scenario.abn_extract Scenario.transform Scenario.transform Scenario.transform
           Scenario.as_completed Requests.table_upsert_down Scenario.clock
           "2024-01-01T00:00:01" c "nsw" "2000" ["2001"] Hmiss Hload).
Defined.

End bulk_examples.

Section abn_examples.

Import Merge Sync Abn Transform Routes.

(** The entity of the register, formatted and transformed. *)
Lemma transformed_abn_record_loses_two_fields_witness :
  let be := Register.entity in
  let now := "2024-01-01T00:00:00" in
  format_record Register.dumps be = Ok Register.formatted
  ∧ get_path be ["entityType"; "entityDescription"] = JStr "Australian Public Company"
  ∧ get_path be ["ACNCRegistration"; "status"] = JStr "Registered"
  ∧ ∃ transformed,
      transform_abn_item now Register.formatted = Ok transformed
      ∧ dict_get transformed "entity_type_description" JNull = Ok JNull
      ∧ dict_get transformed "anc_status" JNull = Ok JNull
      ∧ dict_get transformed "abn" JNull = Ok (JStr "51824753556").
Proof.
  intros be now.
  assert (format_record Register.dumps be = Ok Register.formatted) as Hformat
    by reflexivity.
  split; [exact Hformat|]. split; [reflexivity|]. split; [reflexivity|].
  destruct (transformed_abn_record_loses_two_fields Register.dumps be Register.formatted
              now Hformat) as (kvs & _ & Htransformed).
  eexists. split; [exact Htransformed|]. split; [reflexivity|]. split; reflexivity.
Defined.

(** The route asked for the ABN the register knows, and for one it does not
    know. *)
Lemma lookup_abn_route_200_or_404_witness :
  let extractor := λ n, Ok (Abn.lookup_abn Register.dumps Register.lookup_abn_details n) in
  let known := Routes.lookup_abn extractor ∅ "51824753556" in
  let unknown := Routes.lookup_abn extractor ∅ "00000000000" in
  extractor "51824753556"
  = Ok (Abn.lookup_abn Register.dumps Register.lookup_abn_details "51824753556")
  ∧ ((status_code (answer known) = 200 ∨ status_code (answer known) = 404)
     ∧ (status_code (answer known) = 404
        ↔ cache_hit ∅ ("abn_lookup_" +:+ "51824753556") = None
          ∧ Abn.lookup_abn Register.dumps Register.lookup_abn_details "51824753556" = JNull))
  ∧ status_code (answer known) = 200
  ∧ status_code (answer unknown) = 404.
Proof.
  intros extractor known unknown.
  assert (extractor "51824753556"
          = Ok (Abn.lookup_abn Register.dumps Register.lookup_abn_details "51824753556"))
    as Hcreated by reflexivity.
  split; [exact Hcreated|].
  split; [exact (lookup_abn_route_200_or_404 Register.dumps Register.lookup_abn_details
                   extractor ∅ "51824753556" Hcreated)|].
  split; reflexivity.
Defined.

(** The search for postcode 2000 in NSW finds the entity of the register,
    whose address gives the state in lower case. *)
Lemma search_charities_sound_witness :
  let search :=
    search_charities Register.dumps Register.found_abns Register.lookup_abn_details in
  let charities := [Register.formatted] in
  search "2000" "NSW" None = Ok charities
  ∧ ∃ abns,
      call_search_by_charity Register.found_abns "2000" None = Ok abns
      ∧ length charities ≤ length abns
      ∧ (∀ n, None = Some n → length charities ≤ n)
      ∧ Forall (λ formatted,
                  ∃ abn parsed_details be,
                    abn ∈ abns
                    ∧ Register.lookup_abn_details abn = Ok parsed_details
                    ∧ extract_business_entity parsed_details = Ok be
                    ∧ format_record Register.dumps be = Ok formatted
                    ∧ located_in "2000" "NSW" be)
               charities.
Proof.
  intros search charities.
  assert (search "2000" "NSW" None = Ok charities) as Hsearch by reflexivity.
  split; [exact Hsearch|].
  exact (search_charities_sound Register.dumps Register.found_abns
           Register.lookup_abn_details "2000" "NSW" None charities Hsearch).
Defined.

(** The same search through [ABNExtractor.extract], followed by the
    transformer. *)
Lemma abn_source_never_describes_entities_witness :
  let clock := λ _ : nat, "2024-01-01T00:00:00" in
  let charities := [Register.formatted] in
  extract Register.dumps Register.found_abns Register.lookup_abn_details
    (Some "NSW") (Some "2000") None = Ok charities
  ∧ ∃ transformed,
      transform_abn_data clock charities = Ok transformed
      ∧ length transformed = length charities
      ∧ Forall (λ record,
                  dict_get record "entity_type_description" JNull = Ok JNull
                  ∧ dict_get record "anc_status" JNull = Ok JNull)
               transformed.
Proof.
  intros clock charities.
  assert (extract Register.dumps Register.found_abns Register.lookup_abn_details
            (Some "NSW") (Some "2000") None = Ok charities) as Hextract by reflexivity.
  split; [exact Hextract|].
  exact (abn_source_never_describes_entities Register.dumps Register.found_abns
           Register.lookup_abn_details (Some "NSW") (Some "2000") None clock charities
           Hextract).
Defined.

End abn_examples.
